(** * PrinterPal: a shallow embedding of the print pipeline

    The development follows the repository file by file:
    - [util.py]: the command runner [run_cmd], the error classes and
      [human_bytes];
    - [printerpal/printer.py]: [print_file], [cancel_job] and the status
      queries built on [lpstat];
    - [printerpal/imageproc.py]: the mode filters, the preview renderer and
      the print preparation;
    - [printerpal/config.py]: [validate_config];
    - [printerpal/airprint.py]: the call of the root helper;
    - [printerpal/web.py]: the AirPrint block of the status handler, the
      token check and the print request.

    Python values are modelled as follows.  A [str] is a [string] whose
    characters are the code points below 256; an [int] is a [Z]; a [float]
    is an IEEE 754 binary64 number, given by the Standard Library's
    [spec_float] with [prec = 53] and [emax = 1024]; a [dict] with string
    keys is a [gmap string _]; an exception is a value of [exn] and a
    function that can raise returns a [result].  Everything outside the
    interpreter (child processes, the file system, clocks, random names,
    image codecs) is collected in a [host] record that a [world] carries
    along: the functions of the repository are state transformers over
    [world]. *)

From Stdlib Require Import ZArith Zpower String Ascii List Bool Lia.
From Stdlib Require Import DecimalString DecimalPos.
From Stdlib Require Import Floats.SpecFloat.
From stdpp Require Import base gmap strings list fin_maps.

Set Warnings "-register-all,-clear-no-such-hyp".
Open Scope Z_scope.

(** ** Python strings *)

(** Characters are compared through their code point. *)
Definition code (c : ascii) : Z := Z.of_N (N_of_ascii c).

Definition chr (n : Z) : ascii := ascii_of_N (Z.to_N n).

Definition between (lo hi c : ascii) : bool :=
  (code lo <=? code c) && (code c <=? code hi).

(** The newline and the other control characters have no literal here. *)
Definition LF : ascii := chr 10.
Definition CR : ascii := chr 13.

(** [c.lower()] on the code points below 256: the ASCII capitals and the
    Latin-1 capitals (all of 0xC0..0xDE but the multiplication sign). *)
Definition lower_char (c : ascii) : ascii :=
  let n := code c in
  if ((65 <=? n) && (n <=? 90)) || ((192 <=? n) && (n <=? 222) && negb (n =? 215))
  then chr (n + 32) else c.

Fixpoint lower (s : string) : string :=
  match s with
  | EmptyString => EmptyString
  | String c s' => String (lower_char c) (lower s')
  end.

(** [c.isspace()] below 256. *)
Definition isspace (c : ascii) : bool :=
  let n := code c in
  ((9 <=? n) && (n <=? 13)) || ((28 <=? n) && (n <=? 32)) || (n =? 133) || (n =? 160).

Fixpoint lstrip (s : string) : string :=
  match s with
  | String c s' => if isspace c then lstrip s' else s
  | EmptyString => EmptyString
  end.

(** [rstrip] keeps a character when it is no space or when something that
    is kept follows it. *)
Fixpoint rstrip (s : string) : string :=
  match s with
  | EmptyString => EmptyString
  | String c s' =>
      match rstrip s' with
      | EmptyString => if isspace c then EmptyString else String c EmptyString
      | r => String c r
      end
  end.

Definition strip (s : string) : string := rstrip (lstrip s).

Definition startswith (s p : string) : bool := String.prefix p s.

(** The line boundaries of [str.splitlines] below 256. *)
Definition is_linebreak (c : ascii) : bool :=
  let n := code c in
  (n =? 10) || (n =? 11) || (n =? 12) || (n =? 13) ||
  (n =? 28) || (n =? 29) || (n =? 30) || (n =? 133).

(** [splitlines_from cur s]: [cur] is the line read so far, reversed.  A
    carriage return followed by a line feed is one boundary, and no empty
    line is reported after the last boundary. *)
Fixpoint splitlines_from (cur : list ascii) (s : string) : list string :=
  match s with
  | EmptyString =>
      match cur with
      | [] => []
      | _ => [string_of_list_ascii (rev cur)]
      end
  | String c s' =>
      if is_linebreak c then
        string_of_list_ascii (rev cur) ::
          match s' with
          | String d s'' =>
              if (code c =? 13) && (code d =? 10)
              then splitlines_from [] s''
              else splitlines_from [] s'
          | EmptyString => []
          end
      else splitlines_from (c :: cur) s'
  end.

Definition splitlines (s : string) : list string := splitlines_from [] s.

(** [s.split(sep, 1)] for a one-character separator: the text before the
    first separator and, when there is one, the text after it. *)
Fixpoint split_once (sep : ascii) (s : string) : string * option string :=
  match s with
  | EmptyString => (EmptyString, None)
  | String c s' =>
      if code c =? code sep then (EmptyString, Some s')
      else let '(a, b) := split_once sep s' in (String c a, b)
  end.

(** [sep.join(parts)]. *)
Definition join (sep : string) (parts : list string) : string :=
  String.concat sep parts.

(** [str(n)] for an [int]. *)
Definition str_of_Z (n : Z) : string := NilZero.string_of_int (Z.to_int n).

(** [int(s)] for a [str]: blanks around, an optional sign, then decimal
    digits in which single underscores may separate digits.  [None] stands
    for [ValueError]. *)
Definition is_digit (c : ascii) : bool := between "0" "9" c.

Fixpoint digits_value (acc : Z) (prev_digit : bool) (s : string) : option Z :=
  match s with
  | EmptyString => if prev_digit then Some acc else None
  | String c s' =>
      if is_digit c then digits_value (10 * acc + (code c - 48)) true s'
      else if (code c =? 95) && prev_digit then digits_value acc false s'
      else None
  end.

Definition int_of_str (s : string) : option Z :=
  match strip s with
  | String c s' =>
      if code c =? 45 then Z.opp <$> digits_value 0 false s'
      else if code c =? 43 then digits_value 0 false s'
      else digits_value 0 false (String c s')
  | EmptyString => None
  end.

(** [os.path.splitext] of [posixpath]: the extension starts at the last dot
    of the last component, leading dots of that component not counted. *)
Fixpoint rfind_from (c : ascii) (i : Z) (s : string) : Z :=
  match s with
  | EmptyString => -1
  | String d s' =>
      let r := rfind_from c (i + 1) s' in
      if 0 <=? r then r else if code d =? code c then i else -1
  end.

Definition rfind (c : ascii) (s : string) : Z := rfind_from c 0 s.

Definition substr_from (i : Z) (s : string) : string :=
  String.substring (Z.to_nat i) (String.length s - Z.to_nat i)%nat s.

Definition substr_to (i : Z) (s : string) : string :=
  String.substring 0 (Z.to_nat i) s.

(** The loop of [genericpath._splitext]: is some character of
    [p[filenameIndex:dotIndex]] not a dot? *)
Fixpoint has_non_dot (s : string) : bool :=
  match s with
  | EmptyString => false
  | String c s' => negb (code c =? 46) || has_non_dot s'
  end.

Definition splitext (p : string) : string * string :=
  let sepIndex := rfind "/" p in
  let dotIndex := rfind "." p in
  if (sepIndex <? dotIndex) &&
     has_non_dot (String.substring (Z.to_nat (sepIndex + 1))
                    (Z.to_nat (dotIndex - (sepIndex + 1))) p)
  then (substr_to dotIndex p, substr_from dotIndex p)
  else (p, EmptyString).

(** [os.path.join(a, b)] of [posixpath] for two components. *)
Definition endswith_slash (s : string) : bool :=
  match rev (list_ascii_of_string s) with
  | c :: _ => code c =? 47
  | [] => false
  end.

Definition os_path_join (a b : string) : string :=
  if startswith b "/" then b
  else if String.eqb a "" || endswith_slash a then a +:+ b
  else a +:+ "/" +:+ b.

(** ** Python floats: IEEE 754 binary64 *)

Definition prec : Z := 53.
Definition emax : Z := 1024.

Definition float := spec_float.

Definition fmul : float -> float -> float := SFmul prec emax.
Definition fdiv : float -> float -> float := SFdiv prec emax.
Definition fadd : float -> float -> float := SFadd prec emax.
Definition fsub : float -> float -> float := SFsub prec emax.
Definition flt : float -> float -> bool := SFltb.

(** [float(n)] for an [int], rounded to nearest even.  Python raises
    [OverflowError] where this gives an infinity (beyond 2^1024). *)
Definition float_of_Z (n : Z) : float := binary_normalize prec emax n 0 false.

(** The builtin [min(a, b)] on floats: [b] when [b < a], else [a]. *)
Definition py_min (a b : float) : float := if flt b a then b else a.

(** [format(x, ".1f")]: the decimal with one digit after the point nearest
    to the exact value, ties to even. *)
Definition tenths (m : positive) (e : Z) : Z :=
  if 0 <=? e then 10 * Z.pos m * 2 ^ e
  else
    let den := 2 ^ (- e) in
    let q := (10 * Z.pos m) / den in
    let r := (10 * Z.pos m) mod den in
    match Z.compare (2 * r) den with
    | Lt => q
    | Gt => q + 1
    | Eq => if Z.even q then q else q + 1
    end.

Definition format_1f (x : float) : string :=
  match x with
  | S754_nan => "nan"
  | S754_infinity s => if s then "-inf" else "inf"
  | S754_zero s => if s then "-0.0" else "0.0"
  | S754_finite s m e =>
      let n := tenths m e in
      (if s then "-" else "") +:+ str_of_Z (n / 10) +:+ "." +:+ str_of_Z (n mod 10)
  end.

(** [int(x)] for a [float]: truncation towards zero. *)
Definition trunc (x : float) : option Z :=
  match x with
  | S754_nan | S754_infinity _ => None
  | S754_zero _ => Some 0
  | S754_finite s m e =>
      let a := Z.shiftl (Z.pos m) e in
      Some (if s then - a else a)
  end.

(** ** [util.py]: results, errors and the command runner *)


Record CmdResult := {
  argv : list string;
  returncode : Z;
  stdout : string;
  stderr : string;
  duration_s : float;
}.

(** The exceptions that cross function boundaries.  [CommandError] is a
    subclass of [PrinterPalError]; [OtherError] stands for the builtin
    exceptions the code does not raise itself ([TypeError],
    [AttributeError], [OSError], ...), by class name. *)
Inductive exn :=
| PrinterPalError (msg : string)
| CommandError (msg : string) (result : CmdResult)
| ValueError (msg : string)
| OtherError (cls : string) (msg : string).

(** [isinstance(e, PrinterPalError)]. *)
Definition is_PrinterPalError (e : exn) : bool :=
  match e with
  | PrinterPalError _ | CommandError _ _ => true
  | _ => false
  end.

(** [isinstance(e, CommandError)]. *)
Definition is_CommandError (e : exn) : bool :=
  match e with
  | CommandError _ _ => true
  | _ => false
  end.

(** The builtin exception of class [cls]. *)
Definition builtin_exn (cls msg : string) : exn :=
  if String.eqb cls "ValueError" then ValueError msg else OtherError cls msg.

Inductive result (A : Type) :=
| Ok (a : A)
| Raise (e : exn).

Arguments Ok {A} a.
Arguments Raise {A} e.

(** [int(x)] with its exceptions. *)
Definition int_of_float (x : float) : result Z :=
  match x with
  | S754_nan => Raise (ValueError "cannot convert float NaN to integer")
  | S754_infinity _ =>
      Raise (OtherError "OverflowError" "cannot convert float infinity to integer")
  | _ => Ok (default 0 (trunc x))
  end.

(** ** The host: everything outside the interpreter *)

(** Images: [im.size] is (width, height); the pixels are listed row by row.
    An "RGB" image has three bytes per pixel, an "L" or "1" image one. *)
Record image (A : Type) := {
  im_size : Z * Z;
  im_data : list A;
}.

Arguments im_size {A} _.
Arguments im_data {A} _.

Definition rgb : Type := Z * Z * Z.

Definition bytes : Type := string.

(** What [subprocess.run] can come back with: [FileNotFoundError] for a
    program that is not there, [TimeoutExpired], a completed process with
    its exit code and the decoded text of both streams, or any other
    exception, given by its class name and message ([ValueError] for a NUL
    in an argument, [PermissionError] for a program that may not be run,
    [UnicodeDecodeError] for output that is not text, ...).  [created]
    lists the paths the child has created by the time the parent goes on. *)
Inductive child :=
| ChildNotFound
| ChildTimeout (created : list string)
| ChildExit (rc : Z) (out err : string) (created : list string)
| ChildRaises (cls msg : string) (created : list string).

(** Each answer of the host is indexed by the number of questions asked
    before it, so that the same question can be answered differently later. *)
Record host := {
  h_spawn : nat -> list string -> child;
  h_monotonic : nat -> float;
  h_tempdir : string;
  h_TMP_MAX : nat;
  h_names : nat -> string;
  h_token_hex : nat -> string;
  h_open_image : nat -> string -> string + image rgb;
  h_resample : image rgb -> Z * Z -> list rgb;
  h_png : image rgb -> bytes;
  h_img2pdf : nat -> list bytes -> option bytes;
  h_pillow_pdf : nat -> list (image rgb) -> string + bytes;
}.

(** The state the functions run in: the host, the paths that exist, the
    argument vector of every [subprocess.run] call made so far (oldest
    first) and the number of questions the host has answered. *)
Record world := {
  w_host : host;
  w_files : gset string;
  w_spawned : list (list string);
  w_tick : nat;
}.

Definition M (A : Type) : Type := world -> result A * world.

Definition ret {A} (a : A) : M A := fun w => (Ok a, w).

Definition raise {A} (e : exn) : M A := fun w => (Raise e, w).

Definition bind {A B} (c : M A) (k : A -> M B) : M B :=
  fun w =>
    match c w with
    | (Ok a, w') => k a w'
    | (Raise e, w') => (Raise e, w')
    end.

Notation "'let*' x ':=' c 'in' k" := (bind c (fun x => k))
  (at level 10, x name, c at level 100, k at level 200).

(** [try: c except: h]. *)
Definition try_except {A} (c : M A) (h : exn -> M A) : M A :=
  fun w =>
    match c w with
    | (Ok a, w') => (Ok a, w')
    | (Raise e, w') => h e w'
    end.

(** [try: c finally: f]. *)
Definition try_finally {A} (c : M A) (f : M unit) : M A :=
  fun w =>
    match c w with
    | (r, w') =>
        match f w' with
        | (Ok _, w'') => (r, w'')
        | (Raise e, w'') => (Raise e, w'')
        end
    end.

Definition lift {A} (r : result A) : M A := fun w => (r, w).

(** The next question to the host. *)
Definition ask {A} (f : host -> nat -> A) : M A :=
  fun w =>
    (Ok (f (w_host w) (w_tick w)),
     {| w_host := w_host w; w_files := w_files w;
        w_spawned := w_spawned w; w_tick := S (w_tick w) |}).

(** A directory exists when it is listed or something below it is. *)
Definition below (dir p : string) : bool := String.prefix (dir +:+ "/") p.

Definition path_exists (files : gset string) (p : string) : bool :=
  bool_decide (p ∈ files) || existsb (below p) (elements files).

Definition os_path_exists (p : string) : M bool :=
  fun w => (Ok (path_exists (w_files w) p), w).

Definition add_files (ps : list string) : M unit :=
  fun w =>
    (Ok tt,
     {| w_host := w_host w; w_files := list_to_set ps ∪ w_files w;
        w_spawned := w_spawned w; w_tick := w_tick w |}).

(** [shutil.rmtree(d)]. *)
Definition rmtree (d : string) : M unit :=
  fun w =>
    (Ok tt,
     {| w_host := w_host w;
        w_files := filter (fun p => p ≠ d ∧ below d p = false) (w_files w);
        w_spawned := w_spawned w; w_tick := w_tick w |}).

(** The host itself, for what does not change between questions. *)
Definition the_host : M host := fun w => (Ok (w_host w), w).

Definition time_monotonic : M float := ask h_monotonic.

(** [subprocess.run(argv, ..., timeout=timeout_s, check=False)]: the call is
    recorded, then the host says how the child fares. *)
Definition subprocess_run (argv : list string) (timeout_s : float) : M child :=
  fun w =>
    let c := h_spawn (w_host w) (w_tick w) argv in
    let created :=
      match c with
      | ChildNotFound => []
      | ChildTimeout l | ChildExit _ _ _ l | ChildRaises _ _ l => l
      end in
    (Ok c,
     {| w_host := w_host w; w_files := list_to_set created ∪ w_files w;
        w_spawned := w_spawned w ++ [argv]; w_tick := S (w_tick w) |}).

Definition CmdEnv : Type := option (gmap string string).

(** The two [except] clauses of [run_cmd]: the classes they catch. *)
Definition not_found_class (cls : string) : bool :=
  String.eqb cls "FileNotFoundError".

Definition timeout_class (cls : string) : bool :=
  String.eqb cls "TimeoutExpired".

(** [run_cmd(argv, *, timeout_s, check, env)]; the argument vector is
    called [args] here, [argv] being the field of [CmdResult].  An
    exception of [subprocess.run] that neither clause catches goes on to
    the caller. *)
Definition run_cmd (args : list string) (timeout_s : float) (check : bool)
    (env : CmdEnv) : M CmdResult :=
  match args with
  | [] => raise (ValueError "argv must not be empty")
  | prog :: _ =>
      let not_found := PrinterPalError ("Command not found: " +:+ prog) in
      let timed_out :=
        PrinterPalError
          ("Command timed out after " +:+ format_1f timeout_s +:+ "s: "
           +:+ join " " args) in
      let* t0 := time_monotonic in
      let* cp := subprocess_run args timeout_s in
      match cp with
      | ChildNotFound => raise not_found
      | ChildTimeout _ => raise timed_out
      | ChildRaises cls msg _ =>
          if not_found_class cls then raise not_found
          else if timeout_class cls then raise timed_out
          else raise (builtin_exn cls msg)
      | ChildExit rc out err _ =>
          let* t1 := time_monotonic in
          let res := {| argv := args; returncode := rc; stdout := out;
                        stderr := err; duration_s := fsub t1 t0 |} in
          if check && negb (returncode res =? 0) then
            raise (CommandError
                     ("Command failed (" +:+ str_of_Z (returncode res) +:+ "): "
                      +:+ join " " (argv res)) res)
          else ret res
      end
  end.

(** ** [printerpal/printer.py] *)

(** The fragment of [re] the module needs.  [Eol] is Python's [$] without
    flags: it matches at the end of the string and also just before a
    newline that is the last character of the string. *)
Inductive regex :=
| Bol
| Eol
| ClassPlus (cls : ascii -> bool)
| Cat (r1 r2 : regex).

(** Greedy repetition of a character class, backtracking into the
    continuation [k]. *)
Fixpoint class_star (cls : ascii -> bool) (s : string)
    (k : string -> bool) : bool :=
  match s with
  | String c s' => if cls c then class_star cls s' k || k s else k s
  | EmptyString => k s
  end.

Definition class_plus (cls : ascii -> bool) (s : string)
    (k : string -> bool) : bool :=
  match s with
  | String c s' => if cls c then class_star cls s' k else false
  | EmptyString => false
  end.

Definition at_eol (s : string) : bool :=
  match s with
  | EmptyString => true
  | String c EmptyString => code c =? 10
  | _ => false
  end.

(** [matches r at_start s k]: [r] matches a prefix of [s] and [k] accepts
    what is left; [at_start] says that [s] is the whole subject. *)
Fixpoint matches (r : regex) (at_start : bool) (s : string)
    (k : bool -> string -> bool) : bool :=
  match r with
  | Bol => at_start && k at_start s
  | Eol => at_eol s && k at_start s
  | ClassPlus cls => class_plus cls s (k false)
  | Cat r1 r2 => matches r1 at_start s (fun b s' => matches r2 b s' k)
  end.

(** [re.match(r, s)] as a truth value. *)
Definition re_match (r : regex) (s : string) : bool :=
  matches r true s (fun _ _ => true).

(** The class [[A-Za-z0-9_.-]]. *)
Definition job_id_char (c : ascii) : bool :=
  between "A" "Z" c || between "a" "z" c || between "0" "9" c ||
  (code c =? 95) || (code c =? 46) || (code c =? 45).

(** The pattern [r"^[A-Za-z0-9_.-]+$"]. *)
Definition JOB_ID_RE : regex := Cat Bol (Cat (ClassPlus job_id_char) Eol).

Definition _safe_timeout : float := float_of_Z 6.

(** [a or b] on strings. *)
Definition str_or (a b : string) : string :=
  if String.eqb a "" then b else a.

(** [print_file(file_path, *, printer, copies, title, options, timeout_s)]. *)
Definition print_file (file_path : string) (printer : option string)
    (copies : Z) (title : string) (options : option (list string))
    (timeout_s : float) : M CmdResult :=
  let* found := os_path_exists file_path in
  if negb found then
    raise (PrinterPalError ("File does not exist: " +:+ file_path))
  else if (copies <? 1) || (copies >? 99) then
    raise (PrinterPalError "copies must be between 1 and 99")
  else
    let args := ["lp"; "-n"; str_of_Z copies; "-t"; title] in
    let args :=
      match printer with
      | Some p => if String.eqb p "" then args else args ++ ["-d"; p]
      | None => args
      end in
    let args :=
      args ++ ["-o"; "print-color-mode=monochrome"; "-o"; "ColorModel=Gray"] in
    let args :=
      fold_left
        (fun acc opt => if String.eqb opt "" then acc else acc ++ ["-o"; opt])
        (default [] options) args in
    let args := args ++ [file_path] in
    try_except (run_cmd args timeout_s true None)
      (fun e =>
         match e with
         | CommandError _ r =>
             raise (PrinterPalError
                      ("Printing failed: " +:+
                       str_or (strip (stderr r))
                         (str_or (strip (stdout r)) "unknown error")))
         | _ => raise e
         end).

(** [cancel_job(job_id)]. *)
Definition cancel_job (job_id : string) : M unit :=
  if String.eqb job_id "" || negb (re_match JOB_ID_RE job_id) then
    raise (PrinterPalError "Invalid job id")
  else
    let* _ := run_cmd ["cancel"; job_id] _safe_timeout true None in
    ret tt.

(** ** [printerpal/imageproc.py]: Pillow's operations *)

(** Python values of the shapes JSON has; a [Dict[str, Any]] is a
    [gmap string value]. *)
Inductive value :=
| VNone
| VBool (b : bool)
| VInt (n : Z)
| VFloat (x : float)
| VStr (s : string)
| VList (l : list value)
| VDict (d : gmap string value).

Definition map_image {A B} (f : A -> B) (im : image A) : image B :=
  {| im_size := im_size im; im_data := map f (im_data im) |}.

(** [im.convert("L")] of an "RGB" image: the ITU-R 601-2 luma in 16-bit
    fixed point, as Pillow's [rgb2l] computes it. *)
Definition L24 (p : rgb) : Z :=
  let '(r, g, b) := p in
  Z.shiftr (r * 19595 + g * 38470 + b * 7471 + 32768) 16.

Definition convert_L (im : image rgb) : image Z := map_image L24 im.

(** [im.convert("RGB")] of an "L" image. *)
Definition convert_RGB (im : image Z) : image rgb :=
  map_image (fun v => (v, v, v)) im.

(** [im.point(f, mode="L")] and [ImageOps._lut]: every pixel goes through
    the table of [f]. *)
Definition point (f : Z -> Z) (im : image Z) : image Z := map_image f im.

(** The binarisation both [bw] and [outline] end with:
    [lambda p: 255 if p >= threshold else 0]. *)
Definition binarize (threshold : Z) (p : Z) : Z :=
  if threshold <=? p then 255 else 0.

Definition clip8 (v : Z) : Z :=
  if v <=? 0 then 0 else if 255 <=? v then 255 else v.

Definition pixel_at (im : image Z) (x y : Z) : Z :=
  nth (Z.to_nat (y * fst (im_size im) + x)) (im_data im) 0.

Definition range (n : Z) : list Z := map Z.of_nat (seq 0 (Z.to_nat n)).

(** [im.filter(ImageFilter.FIND_EDGES)] on an "L" image: the 3x3 kernel
    (-1 -1 -1 / -1 8 -1 / -1 -1 -1) with scale 1 and offset 0.  Pillow's
    [ImagingFilter3x3] copies the first and last row and the first and last
    pixel of every row, and an image smaller than the kernel whole. *)
Definition find_edges_at (im : image Z) (x y : Z) : Z :=
  clip8 (8 * pixel_at im x y
         - pixel_at im (x - 1) (y - 1) - pixel_at im x (y - 1)
         - pixel_at im (x + 1) (y - 1)
         - pixel_at im (x - 1) y - pixel_at im (x + 1) y
         - pixel_at im (x - 1) (y + 1) - pixel_at im x (y + 1)
         - pixel_at im (x + 1) (y + 1)).

Definition FIND_EDGES (im : image Z) : image Z :=
  let '(w, h) := im_size im in
  if (w <? 3) || (h <? 3) then im
  else
    {| im_size := (w, h);
       im_data :=
         flat_map
           (fun y =>
              map (fun x =>
                     if (x =? 0) || (x =? w - 1) || (y =? 0) || (y =? h - 1)
                     then pixel_at im x y
                     else find_edges_at im x y)
                (range w))
           (range h) |}.

(** [ImageOps.autocontrast(im)] with the default cutoff: the darkest and the
    lightest value present are stretched to 0 and 255. *)
Definition occurs (im : image Z) (v : Z) : bool := existsb (Z.eqb v) (im_data im).

Definition lowest (im : image Z) : Z :=
  default 255 (find (occurs im) (range 256)).

Definition highest (im : image Z) : Z :=
  default 0 (find (occurs im) (rev (range 256))).

Definition autocontrast_lut (lo hi : Z) (ix : Z) : Z :=
  if hi <=? lo then ix
  else
    let scale := fdiv (float_of_Z 255) (float_of_Z (hi - lo)) in
    let offset := fmul (float_of_Z (- lo)) scale in
    let v := default 0 (trunc (fadd (fmul (float_of_Z ix) scale) offset)) in
    if v <? 0 then 0 else if 255 <? v then 255 else v.

Definition autocontrast (im : image Z) : image Z :=
  point (autocontrast_lut (lowest im) (highest im)) im.

(** [ImageOps.invert(im)]. *)
Definition invert (im : image Z) : image Z := point (fun v => 255 - v) im.

(** [im.convert("1")] of an "L" image: Floyd-Steinberg error diffusion as
    in Pillow's [tobilevel].  [errs] is the part of the error row from the
    current column on; the division is C's, towards zero. *)
Fixpoint dither_row (row errs : list Z) (l l0 l1 : Z) : list Z * list Z :=
  match row with
  | [] => ([], [l0])
  | v :: row' =>
      let l := clip8 (v + Z.quot (l + nth 1 errs 0) 16) in
      let out := if 128 <? l then 255 else 0 in
      let l := l - out in
      let l2 := l in
      let d2 := l + l in
      let l := l + d2 in
      let e := l + l0 in
      let l := l + d2 in
      let l0 := l + l1 in
      let l1 := l2 in
      let l := l + d2 in
      let '(outs, errs') := dither_row row' (tl errs) l l0 l1 in
      (out :: outs, e :: errs')
  end.

Fixpoint dither_rows (w : nat) (h : nat) (data errs : list Z) : list Z :=
  match h with
  | O => []
  | S h' =>
      let '(outs, errs') := dither_row (firstn w data) errs 0 0 0 in
      outs ++ dither_rows w h' (skipn w data) errs'
  end.

Definition convert_1 (im : image Z) : image Z :=
  let '(w, h) := im_size im in
  {| im_size := (w, h);
     im_data := dither_rows (Z.to_nat w) (Z.to_nat h) (im_data im)
                  (repeat 0 (S (Z.to_nat w))) |}.

(** [im.convert("RGB")] of a "1" image. *)
Definition convert_RGB_of_1 (im : image Z) : image rgb :=
  map_image (fun v => if v =? 0 then (0, 0, 0) else (255, 255, 255)) im.

(** [im.resize(size, resample=LANCZOS)]: the new image has the size asked
    for; its pixels are the host's. *)
Definition resize (h : host) (im : image rgb) (sz : Z * Z) : image rgb :=
  {| im_size := sz; im_data := h_resample h im sz |}.

(** ** [printerpal/imageproc.py]: the module *)

Definition SUPPORTED_IMAGE_EXTS : gset string :=
  {[ ".png"; ".jpg"; ".jpeg"; ".bmp"; ".tif"; ".tiff" ]}.

(** [apply_mode(im, mode, *, threshold)]. *)
Definition apply_mode (im : image rgb) (mode : string) (threshold : Z)
    : result (image rgb) :=
  let mode := lower mode in
  if String.eqb mode "raw" then Ok im
  else if String.eqb mode "grayscale" then Ok (convert_RGB (convert_L im))
  else if String.eqb mode "bw" then
    let g := convert_L im in
    let bw := point (binarize threshold) g in
    Ok (convert_RGB bw)
  else if String.eqb mode "dither" then
    let g := convert_L im in
    let bw1 := convert_1 g in
    Ok (convert_RGB_of_1 bw1)
  else if String.eqb mode "outline" then
    let g := convert_L im in
    let edges := FIND_EDGES g in
    let edges := autocontrast edges in
    let inv := invert edges in
    let bw := point (binarize threshold) inv in
    Ok (convert_RGB bw)
  else Raise (PrinterPalError "Unsupported mode").

(** [tempfile]: candidate names come from the host; a candidate that exists
    is skipped, and after [TMP_MAX] of them [FileExistsError] is raised.
    The path found is created. *)
Fixpoint first_unused (n : nat) (pre suf what : string) : M string :=
  match n with
  | O =>
      raise (OtherError "FileExistsError"
               ("[Errno 17] No usable temporary " +:+ what +:+ " name found"))
  | S n' =>
      let* name := ask h_names in
      let* h := the_host in
      let file := os_path_join (h_tempdir h) (pre +:+ name +:+ suf) in
      let* taken := os_path_exists file in
      if taken then first_unused n' pre suf what
      else let* _ := add_files [file] in ret file
  end.

(** [tempfile.mkstemp(prefix=pre, suffix=suf)], the descriptor closed. *)
Definition mkstemp (pre suf : string) : M string :=
  let* h := the_host in
  first_unused (h_TMP_MAX h) pre suf "file".

(** [tempfile.mkdtemp(prefix=pre)]. *)
Definition mkdtemp (pre : string) : M string :=
  let* h := the_host in
  first_unused (h_TMP_MAX h) pre "" "directory".

(** [with tempfile.TemporaryDirectory(prefix=pre) as td: body]. *)
Definition with_TemporaryDirectory {A} (pre : string) (body : string -> M A)
    : M A :=
  let* td := mkdtemp pre in
  try_finally (body td) (rmtree td).

(** [with open(path, "wb") as f: f.write(data)] on a path that exists: the
    model keeps the names of the files, not what they hold. *)
Definition write_bytes (path : string) (data : bytes) : M unit := ret tt.

(** [with Image.open(path) as im: return im.convert("RGB")]. *)
Definition Image_open_RGB (path : string) : M (image rgb) :=
  let* r := ask (fun h t => h_open_image h t path) in
  match r with
  | inl msg => raise (OtherError "UnidentifiedImageError" msg)
  | inr im => ret im
  end.

(** [pdf_page_count(path)]: the first line that starts with "pages:"
    decides. *)
Fixpoint pages_field (lines : list string) : option Z :=
  match lines with
  | [] => None
  | ln :: rest =>
      if startswith (lower ln) "pages:" then
        match snd (split_once ":" ln) with
        | Some v => int_of_str (strip v)
        | None => None
        end
      else pages_field rest
  end.

Definition pdf_page_count (path : string) : M Z :=
  let* found := os_path_exists path in
  if negb found then raise (PrinterPalError "PDF not found")
  else
    let* res := run_cmd ["pdfinfo"; path] (float_of_Z 8) true None in
    match pages_field (splitlines (stdout res)) with
    | Some n => ret n
    | None =>
        raise (PrinterPalError
                 "Unable to determine PDF page count (pdfinfo output unexpected)")
    end.

(** [_render_pdf_page_to_png(path, *, page, dpi)]. *)
Definition _render_pdf_page_to_png (path : string) (page dpi : Z)
    : M (image rgb) :=
  if page <? 1 then raise (PrinterPalError "page must be >= 1")
  else
    with_TemporaryDirectory "printerpal_pdf_"
      (fun td =>
         let outprefix := os_path_join td "page" in
         let* _ :=
           run_cmd
             ["pdftoppm"; "-png"; "-f"; str_of_Z page; "-l"; str_of_Z page;
              "-r"; str_of_Z dpi; "-singlefile"; path; outprefix]
             (float_of_Z 25) true None in
         let png_path := outprefix +:+ ".png" in
         let* found := os_path_exists png_path in
         if negb found then
           raise (PrinterPalError "pdftoppm did not produce expected PNG output")
         else Image_open_RGB png_path).

(** [_open_image(path)]. *)
Definition _open_image (path : string) : M (image rgb) :=
  try_except (Image_open_RGB path)
    (fun e =>
       match e with
       | PrinterPalError msg | CommandError msg _ | ValueError msg
       | OtherError _ msg =>
           raise (PrinterPalError ("Unable to open image: " +:+ msg))
       end).

(** The two dimensions of the preview: both are scaled by
    [min(1.0, float(width) / float(w0))] and truncated, 1 at least. *)
Definition preview_scale (width w0 : Z) : float :=
  py_min (float_of_Z 1) (fdiv (float_of_Z width) (float_of_Z w0)).

(** [max(1, int(n * scale))]. *)
Definition scaled (n : Z) (scale : float) : result Z :=
  match int_of_float (fmul (float_of_Z n) scale) with
  | Ok v => Ok (Z.max 1 v)
  | Raise e => Raise e
  end.

(** [render_preview_png(path, *, mode, page, width, preview_dpi, threshold)]. *)
Definition render_preview_png (path mode : string)
    (page width preview_dpi threshold : Z) : M bytes :=
  if (width <? 64) || (width >? 2000) then
    raise (PrinterPalError "width must be between 64 and 2000")
  else
    let ext := lower (snd (splitext path)) in
    let* im :=
      if String.eqb ext ".pdf" then _render_pdf_page_to_png path page preview_dpi
      else if bool_decide (ext ∈ SUPPORTED_IMAGE_EXTS) then _open_image path
      else raise (PrinterPalError "Preview supports PDF and common image formats") in
    let* im2 := lift (apply_mode im mode threshold) in
    let '(w0, h0) := im_size im2 in
    if (w0 <=? 0) || (h0 <=? 0) then
      raise (PrinterPalError "Invalid image dimensions")
    else
      let scale := preview_scale width w0 in
      let* new_w := lift (scaled w0 scale) in
      let* new_h := lift (scaled h0 scale) in
      let* h := the_host in
      let im2 := resize h im2 (new_w, new_h) in
      ret (h_png h im2).

(** [_images_to_pdf_bytes(images)]: img2pdf when it is there and succeeds,
    Pillow's PDF writer otherwise. *)
Definition pillow_save_pdf (images : list (image rgb)) : M bytes :=
  let* r := ask (fun h t => h_pillow_pdf h t images) in
  match r with
  | inl msg => raise (OtherError "OSError" msg)
  | inr data => ret data
  end.

Definition _images_to_pdf_bytes (images : list (image rgb)) : M bytes :=
  let* r := ask (fun h t => h_img2pdf h t (map (h_png h) images)) in
  match r with
  | Some data => ret data
  | None =>
      match images with
      | [] => raise (OtherError "IndexError" "list index out of range")
      | _ => pillow_save_pdf images
      end
  end.

(** The loop over the pages of [prepare_print_file]. *)
Fixpoint render_pages (src_path mode : string) (print_dpi threshold : Z)
    (pages : list Z) : M (list (image rgb)) :=
  match pages with
  | [] => ret []
  | p :: rest =>
      let* im := _render_pdf_page_to_png src_path p print_dpi in
      let* im2 := lift (apply_mode im mode threshold) in
      let* imgs := render_pages src_path mode print_dpi threshold rest in
      ret (im2 :: imgs)
  end.

Definition too_many_pages (pages max_pdf_pages : Z) : string :=
  "PDF has " +:+ str_of_Z pages +:+ " pages, which exceeds processing limit ("
  +:+ str_of_Z max_pdf_pages +:+ "). "
  +:+ "Either increase printing.max_pdf_pages_process or use 'Raw' mode.".

(** [prepare_print_file(src_path, *, mode, print_dpi, max_pdf_pages,
    threshold)]: the path to print and the metadata. *)
Definition prepare_print_file (src_path mode : string)
    (print_dpi max_pdf_pages threshold : Z) : M (string * gmap string value) :=
  let* found := os_path_exists src_path in
  if negb found then raise (PrinterPalError "Source file not found")
  else
    let ext := lower (snd (splitext src_path)) in
    let meta : gmap string value :=
      <["print_dpi" := VInt print_dpi]>
        (<["mode" := VStr mode]> {["source" := VStr src_path]}) in
    if String.eqb mode "raw" then
      ret (src_path, <["prepared" := VBool false]> meta)
    else if String.eqb ext ".pdf" then
      let* pages := pdf_page_count src_path in
      let meta := <["pages" := VInt pages]> meta in
      if max_pdf_pages <? pages then
        raise (PrinterPalError (too_many_pages pages max_pdf_pages))
      else
        let* imgs :=
          render_pages src_path mode print_dpi threshold
            (map (Z.add 1) (range pages)) in
        let* pdf_bytes := _images_to_pdf_bytes imgs in
        let* outpath := mkstemp "printerpal_print_" ".pdf" in
        let* _ := write_bytes outpath pdf_bytes in
        ret (outpath,
             <["output" := VStr outpath]> (<["prepared" := VBool true]> meta))
    else if bool_decide (ext ∈ SUPPORTED_IMAGE_EXTS) then
      let* im := _open_image src_path in
      let* im2 := lift (apply_mode im mode threshold) in
      let* buf := pillow_save_pdf [im2] in
      let* outpath := mkstemp "printerpal_print_" ".pdf" in
      let* _ := write_bytes outpath buf in
      ret (outpath,
           <["output" := VStr outpath]> (<["prepared" := VBool true]> meta))
    else raise (PrinterPalError "Unsupported file type for printing").

(** ** [printerpal/config.py] *)

(** The dictionary [_default_config()] returns, for a given secret key. *)
Definition defaults (secret_key : string) : gmap string value :=
  <["app" := VDict
      (<["host" := VStr "0.0.0.0"]>
         (<["port" := VInt 80]>
            (<["secret_key" := VStr secret_key]>
               {["max_upload_mb" := VInt 25]})))]>
    (<["printing" := VDict
         (<["default_printer" := VStr ""]>
            (<["preview_dpi" := VInt 150]>
               (<["print_dpi" := VInt 200]>
                  (<["max_pdf_pages_process" := VInt 30]>
                     (<["default_copies" := VInt 1]>
                        (<["default_mode" := VStr "grayscale"]>
                           {["bw_threshold" := VInt 180]}))))))]>
       (<["airprint" := VDict {["auto_enable" := VBool true]}]>
          (<["ui" := VDict
               (<["default_dark_mode" := VBool false]>
                  {["default_eink_mode" := VBool false]})]>
             {["security" := VDict
                 (<["require_token" := VBool false]>
                    {["token" := VStr ""]})]}))).

(** [_default_config()]; the secret key is the host's
    [secrets.token_hex(32)]. *)
Definition _default_config : M (gmap string value) :=
  let* token := ask h_token_hex in
  ret (defaults token).

(** [_as_int(v, *, min_v, max_v, name)]. *)
Definition _as_int (v : value) (min_v max_v : Z) (name : string) : result Z :=
  let in_range iv :=
    if (iv <? min_v) || (iv >? max_v) then
      Raise (PrinterPalError
               (name +:+ " must be between " +:+ str_of_Z min_v +:+ " and "
                +:+ str_of_Z max_v))
    else Ok iv in
  match v with
  | VInt n => in_range n
  | VFloat x =>
      match int_of_float x with
      | Ok iv => in_range iv
      | Raise e => Raise e
      end
  | _ => Raise (PrinterPalError (name +:+ " must be a number"))
  end.

(** The inner function [merge(dst, src)] of [validate_config], by
    recursion on the source: a key whose old and new values are both
    dictionaries is merged, any other key is overwritten. *)
Fixpoint merge_into (src : value) (dst : gmap string value)
    : gmap string value :=
  match src with
  | VDict s =>
      map_fold
        (fun k v acc =>
           match acc !! k, v with
           | Some (VDict d), VDict _ => <[k := VDict (merge_into v d)]> acc
           | _, _ => <[k := v]> acc
           end)
        dst s
  | _ => dst
  end.

Definition merge (dst src : gmap string value) : gmap string value :=
  merge_into (VDict src) dst.

(** [type(v).__name__]. *)
Definition type_name (v : value) : string :=
  match v with
  | VNone => "NoneType"
  | VBool _ => "bool"
  | VInt _ => "int"
  | VFloat _ => "float"
  | VStr _ => "str"
  | VList _ => "list"
  | VDict _ => "dict"
  end.

(** [merged[sec]]. *)
Definition section (merged : gmap string value) (sec : string) : result value :=
  match merged !! sec with
  | Some v => Ok v
  | None => Raise (OtherError "KeyError" ("'" +:+ sec +:+ "'"))
  end.

(** The message of the [AttributeError] for a method [v] does not have. *)
Definition no_attribute (v : value) (attr : string) : string :=
  "'" +:+ type_name v +:+ "' object has no attribute '" +:+ attr +:+ "'".

(** [d.get(key)]. *)
Definition get (d : value) (key : string) : result value :=
  match d with
  | VDict m => Ok (default VNone (m !! key))
  | _ => Raise (OtherError "AttributeError" (no_attribute d "get"))
  end.

(** [merged[sec].get(key)]. *)
Definition field (merged : gmap string value) (sec key : string) : result value :=
  match section merged sec with
  | Ok d => get d key
  | Raise e => Raise e
  end.

(** [merged[sec][key] = v]. *)
Definition set_field (merged : gmap string value) (sec key : string) (v : value)
    : result (gmap string value) :=
  match section merged sec with
  | Ok (VDict m) => Ok (<[sec := VDict (<[key := v]> m)]> merged)
  | Ok (VList _) =>
      Raise (OtherError "TypeError" "list indices must be integers or slices, not str")
  | Ok d =>
      Raise (OtherError "TypeError"
               ("'" +:+ type_name d +:+ "' object does not support item assignment"))
  | Raise e => Raise e
  end.

(** [merged[sec][key] = _as_int(merged[sec].get(key), min_v=.., max_v=..,
    name="sec.key")]. *)
Definition int_field (sec key : string) (min_v max_v : Z)
    (merged : gmap string value) : M (gmap string value) :=
  let* v := lift (field merged sec key) in
  let* iv := lift (_as_int v min_v max_v (sec +:+ "." +:+ key)) in
  lift (set_field merged sec key (VInt iv)).

(** [if not isinstance(merged[sec].get(key), bool): raise ...]. *)
Definition bool_field (sec key msg : string) (merged : gmap string value)
    : M unit :=
  let* v := lift (field merged sec key) in
  match v with
  | VBool _ => ret tt
  | _ => raise (PrinterPalError msg)
  end.

Definition MODES : list string := ["raw"; "grayscale"; "bw"; "dither"; "outline"].

(** [validate_config(cfg)]. *)
Definition validate_config (cfg : gmap string value) : M (gmap string value) :=
  let* base := _default_config in
  let merged := merge base cfg in
  let* merged := int_field "app" "port" 1 65535 merged in
  let* merged := int_field "app" "max_upload_mb" 1 500 merged in
  let* key := lift (field merged "app" "secret_key") in
  let* _ :=
    match key with
    | VStr k =>
        if (String.length k <? 16)%nat then
          raise (PrinterPalError "app.secret_key must be a non-empty string")
        else ret tt
    | _ => raise (PrinterPalError "app.secret_key must be a non-empty string")
    end in
  let* merged := int_field "printing" "preview_dpi" 72 600 merged in
  let* merged := int_field "printing" "print_dpi" 72 1200 merged in
  let* merged := int_field "printing" "max_pdf_pages_process" 1 500 merged in
  let* merged := int_field "printing" "default_copies" 1 99 merged in
  let* merged := int_field "printing" "bw_threshold" 1 254 merged in
  let* mode := lift (field merged "printing" "default_mode") in
  let* _ :=
    match mode with
    | VStr m =>
        if existsb (String.eqb m) MODES then ret tt
        else
          raise (PrinterPalError
                   "printing.default_mode must be one of raw|grayscale|bw|dither|outline")
    | VList _ | VDict _ =>
        raise (OtherError "TypeError"
                 ("unhashable type: '" +:+ type_name mode +:+ "'"))
    | _ =>
        raise (PrinterPalError
                 "printing.default_mode must be one of raw|grayscale|bw|dither|outline")
    end in
  let* _ := bool_field "ui" "default_dark_mode"
              "ui.default_dark_mode must be boolean" merged in
  let* _ := bool_field "ui" "default_eink_mode"
              "ui.default_eink_mode must be boolean" merged in
  let* _ := bool_field "airprint" "auto_enable"
              "airprint.auto_enable must be boolean" merged in
  let* _ := bool_field "security" "require_token"
              "security.require_token must be boolean" merged in
  let* tok := lift (field merged "security" "token") in
  match tok with
  | VStr _ => ret merged
  | _ => raise (PrinterPalError "security.token must be string")
  end.

(** ** [printerpal/web.py]: the AirPrint block of the status handler *)

(** The three entries of [app.config] the block shares between requests.
    A [threading.Lock] is held or free. *)
Record airprint_state := {
  PP_AIRPRINT_LAST_ENSURE : float;
  PP_AIRPRINT_LAST_SIG : string;
  PP_AIRPRINT_LOCK : bool;
}.

(** Where a request handler stands.  The [Status] points are those of the
    block of [api_status] (its locals [sig] and [now] computed, one point
    per access to the shared state); the [Force] points are those of
    [api_airprint_ensure], which calls the helper without the lock. *)
Inductive pc :=
| StatusReadT (sig : string) (now : float)
| StatusReadSig (sig : string) (now last_t : float)
| StatusTest (sig : string) (now last_t : float) (last_sig : string)
| StatusAcquire (sig : string) (now : float)
| StatusEnsure (sig : string) (now : float)
| StatusStoreT (sig : string) (now : float)
| StatusStoreSig (sig : string)
| StatusRelease
| StatusDone
| ForceStart
| ForceEnsure
| ForceDone.

(** One step of one handler; [ok] is whether a running
    [ensure_airprint_via_root_helper] returns (or raises). *)
Definition step_pc (st : airprint_state) (p : pc) (ok : bool)
    : airprint_state * pc :=
  match p with
  | StatusReadT sig now =>
      (st, StatusReadSig sig now (PP_AIRPRINT_LAST_ENSURE st))
  | StatusReadSig sig now last_t =>
      (st, StatusTest sig now last_t (PP_AIRPRINT_LAST_SIG st))
  | StatusTest sig now last_t last_sig =>
      if negb (String.eqb sig last_sig) || flt (float_of_Z 600) (fsub now last_t)
      then (st, StatusAcquire sig now)
      else (st, StatusDone)
  | StatusAcquire sig now =>
      if PP_AIRPRINT_LOCK st then (st, StatusDone)
      else
        ({| PP_AIRPRINT_LAST_ENSURE := PP_AIRPRINT_LAST_ENSURE st;
            PP_AIRPRINT_LAST_SIG := PP_AIRPRINT_LAST_SIG st;
            PP_AIRPRINT_LOCK := true |},
         StatusEnsure sig now)
  | StatusEnsure sig now =>
      if ok then (st, StatusStoreT sig now) else (st, StatusRelease)
  | StatusStoreT sig now =>
      ({| PP_AIRPRINT_LAST_ENSURE := now;
          PP_AIRPRINT_LAST_SIG := PP_AIRPRINT_LAST_SIG st;
          PP_AIRPRINT_LOCK := PP_AIRPRINT_LOCK st |},
       StatusStoreSig sig)
  | StatusStoreSig sig =>
      ({| PP_AIRPRINT_LAST_ENSURE := PP_AIRPRINT_LAST_ENSURE st;
          PP_AIRPRINT_LAST_SIG := sig;
          PP_AIRPRINT_LOCK := PP_AIRPRINT_LOCK st |},
       StatusRelease)
  | StatusRelease =>
      ({| PP_AIRPRINT_LAST_ENSURE := PP_AIRPRINT_LAST_ENSURE st;
          PP_AIRPRINT_LAST_SIG := PP_AIRPRINT_LAST_SIG st;
          PP_AIRPRINT_LOCK := false |},
       StatusDone)
  | StatusDone => (st, StatusDone)
  | ForceStart => (st, ForceEnsure)
  | ForceEnsure => (st, ForceDone)
  | ForceDone => (st, ForceDone)
  end.

(** The server: the shared state, the handlers of the requests received so
    far, and how often the helper has been called. *)
Record server := {
  sv_state : airprint_state;
  sv_handlers : list pc;
  sv_ensure_calls : nat;
}.

(** What can happen next: a status request enters the block, a forced
    ensure request arrives, or the handler of request [i] takes a step. *)
Inductive event :=
| StatusRequest (sig : string) (now : float)
| ForceRequest
| Step (i : nat) (ok : bool).

(** Does this step call the helper? *)
Definition calls_ensure (p p' : pc) : bool :=
  match p, p' with
  | StatusAcquire _ _, StatusEnsure _ _ => true
  | ForceStart, ForceEnsure => true
  | _, _ => false
  end.

Definition exec (s : server) (e : event) : server :=
  match e with
  | StatusRequest sig now =>
      {| sv_state := sv_state s;
         sv_handlers := sv_handlers s ++ [StatusReadT sig now];
         sv_ensure_calls := sv_ensure_calls s |}
  | ForceRequest =>
      {| sv_state := sv_state s;
         sv_handlers := sv_handlers s ++ [ForceStart];
         sv_ensure_calls := sv_ensure_calls s |}
  | Step i ok =>
      match sv_handlers s !! i with
      | Some p =>
          let '(st, p') := step_pc (sv_state s) p ok in
          {| sv_state := st;
             sv_handlers := <[i := p']> (sv_handlers s);
             sv_ensure_calls :=
               if calls_ensure p p' then S (sv_ensure_calls s)
               else sv_ensure_calls s |}
      | None => s
      end
  end.

Definition run (evs : list event) (s : server) : server := fold_left exec evs s.

(** [create_app]: no ensure yet, the lock free, no request. *)
Definition initial : server :=
  {| sv_state :=
       {| PP_AIRPRINT_LAST_ENSURE := S754_zero false;
          PP_AIRPRINT_LAST_SIG := "";
          PP_AIRPRINT_LOCK := false |};
     sv_handlers := [];
     sv_ensure_calls := 0 |}.

(** The helper has been called by this handler and has not returned. *)
Definition in_flight (p : pc) : bool :=
  match p with
  | StatusEnsure _ _ | ForceEnsure => true
  | _ => false
  end.

Definition status_in_flight (p : pc) : bool :=
  match p with
  | StatusEnsure _ _ => true
  | _ => false
  end.

(** The handler is between [lock.acquire] and [lock.release]. *)
Definition holds_lock (p : pc) : bool :=
  match p with
  | StatusEnsure _ _ | StatusStoreT _ _ | StatusStoreSig _ | StatusRelease => true
  | _ => false
  end.

Definition count (f : pc -> bool) (l : list pc) : nat := length (filter (fun p => f p = true) l).

(** ** Example hosts, for running the model *)

(** A host whose children behave as [spawn] says and whose image decoder
    returns [img]; img2pdf is missing, Pillow's PDF writer works. *)
Definition example_host (spawn : nat -> list string -> child)
    (img : image rgb) : host :=
  {| h_spawn := spawn;
     h_monotonic := fun n => float_of_Z (Z.of_nat n);
     h_tempdir := "/tmp";
     h_TMP_MAX := 100;
     h_names := fun n => "t" +:+ str_of_Z (Z.of_nat n);
     h_token_hex := fun _ =>
       "000102030405060708090a0b0c0d0e0f101112131415161718191a1b1c1d1e1f";
     h_open_image := fun _ _ => inr img;
     h_resample := fun _ sz => repeat (0, 0, 0) (Z.to_nat (fst sz * snd sz));
     h_png := fun im =>
       "PNG " +:+ str_of_Z (fst (im_size im)) +:+ "x" +:+ str_of_Z (snd (im_size im));
     h_img2pdf := fun _ _ => None;
     h_pillow_pdf := fun _ _ => inr "%PDF" |}.

Definition example_world (spawn : nat -> list string -> child)
    (img : image rgb) (files : list string) : world :=
  {| w_host := example_host spawn img;
     w_files := list_to_set files;
     w_spawned := [];
     w_tick := 0 |}.

(** Children that all exit with code [rc] and print [out]. *)
Definition exits (rc : Z) (out : string) : nat -> list string -> child :=
  fun _ _ => ChildExit rc out "" [].

Definition blank (w h : Z) : image rgb :=
  {| im_size := (w, h); im_data := repeat (255, 255, 255) (Z.to_nat (w * h)) |}.

(** ** Notions the statements use *)

(** The child [run_cmd] starts in [w]: the host's answer to the question
    after the first reading of the clock. *)
Definition child_of (args : list string) (w : world) : child :=
  h_spawn (w_host w) (S (w_tick w)) args.

Definition exit_code (c : child) : option Z :=
  match c with
  | ChildExit rc _ _ _ => Some rc
  | _ => None
  end.

Definition raised_CommandError {A} (r : result A) : bool :=
  match r with
  | Raise e => is_CommandError e
  | Ok _ => false
  end.

(** [c] only adds paths: whatever exists before it runs exists after. *)
Definition keeps {A} (c : M A) : Prop :=
  forall w, w_files w ⊆ w_files (snd (c w)).

(** Children and temporary files that the examples of [prepare_print_file]
    run with: [pdfinfo] reports [pages] pages and [pdftoppm] writes the PNG
    it is asked for. *)
Definition pdf_tools (pages : Z) : nat -> list string -> child :=
  fun _ args =>
    match args with
    | prog :: _ =>
        if String.eqb prog "pdfinfo" then
          ChildExit 0 ("Title: x" +:+ String LF ("Pages:  " +:+ str_of_Z pages)) "" []
        else if String.eqb prog "pdftoppm" then
          ChildExit 0 "" "" [default "" (last args) +:+ ".png"]
        else ChildExit 0 "" "" []
    | [] => ChildNotFound
    end.

(** The metadata of a file printed as it is. *)
Definition raw_meta (src_path : string) (print_dpi : Z) : gmap string value :=
  <["prepared" := VBool false]>
    (<["print_dpi" := VInt print_dpi]>
       (<["mode" := VStr "raw"]> {["source" := VStr src_path]})).

(** The worlds of the examples: three uploads and the usual tools. *)
Definition uploads : world :=
  example_world (pdf_tools 3) (blank 4 3) ["/up/a.pdf"; "/up/b.png"; "/up/c.txt"].

(** The two filters that end in a binarisation, as functions. *)
Definition bw (threshold : Z) (im : image rgb) : image rgb :=
  convert_RGB (point (binarize threshold) (convert_L im)).

Definition outline (threshold : Z) (im : image rgb) : image rgb :=
  convert_RGB
    (point (binarize threshold) (invert (autocontrast (FIND_EDGES (convert_L im))))).

(** A white square of five by five pixels with a black pixel in the middle. *)
Definition dot : image rgb :=
  let W := (255, 255, 255) in
  let B := (0, 0, 0) in
  {| im_size := (5, 5);
     im_data := [W; W; W; W; W;
                 W; W; W; W; W;
                 W; W; B; W; W;
                 W; W; W; W; W;
                 W; W; W; W; W] |}.

(** Its negative. *)
Definition dot_negative : image rgb :=
  let W := (255, 255, 255) in
  let B := (0, 0, 0) in
  {| im_size := (5, 5);
     im_data := [B; B; B; B; B;
                 B; B; B; B; B;
                 B; B; W; B; B;
                 B; B; B; B; B;
                 B; B; B; B; B] |}.

(** The lock is held by exactly the handlers between acquire and release. *)
Definition lock_inv (s : server) : Prop :=
  count holds_lock (sv_handlers s) =
  if PP_AIRPRINT_LOCK (sv_state s) then 1%nat else 0%nat.

(** Two status requests for the same printer set that are both in the
    block before either reaches the lock; the first then runs the helper to
    its end, and the second acquires the lock after the release. *)
Definition two_status_requests : list event :=
  [StatusRequest "HP" (float_of_Z 5); StatusRequest "HP" (float_of_Z 5);
   Step 0 true; Step 0 true; Step 0 true;
   Step 1 true; Step 1 true; Step 1 true;
   Step 0 true; Step 0 true; Step 0 true; Step 0 true; Step 0 true;
   Step 1 true].

(** A status request that holds the lock with the helper running, a second
    one that reaches the lock then, and a forced ensure beside them. *)
Definition status_and_forced : list event :=
  [StatusRequest "HP" (float_of_Z 5); StatusRequest "HP" (float_of_Z 5);
   ForceRequest;
   Step 0 true; Step 0 true; Step 0 true; Step 0 true;
   Step 1 true; Step 1 true; Step 1 true;
   Step 2 true].

(** [has m sec key P]: section [sec] of [m] is a dictionary whose entry
    [key] satisfies [P]. *)
Definition has (m : gmap string value) (sec key : string) (P : value -> Prop)
    : Prop :=
  exists d x, m !! sec = Some (VDict d) /\ d !! key = Some x /\ P x.

Definition any_value (v : value) : Prop := True.

Definition int_within (lo hi : Z) (v : value) : Prop :=
  exists n, v = VInt n /\ lo <= n <= hi.

Definition a_bool (v : value) : Prop := exists b, v = VBool b.

Definition a_str (v : value) : Prop := exists s, v = VStr s.

Definition a_secret (v : value) : Prop :=
  exists k, v = VStr k /\ (String.length k <? 16)%nat = false.

Definition a_mode (v : value) : Prop :=
  exists m, v = VStr m /\ existsb (String.eqb m) MODES = true.

(** What [validate_config] lets through: every key of the defaults is
    there, with a value of the shape the function checks. *)
Definition schema : list (string * string * (value -> Prop)) :=
  [("app", "host", any_value);
   ("app", "port", int_within 1 65535);
   ("app", "secret_key", a_secret);
   ("app", "max_upload_mb", int_within 1 500);
   ("printing", "default_printer", any_value);
   ("printing", "preview_dpi", int_within 72 600);
   ("printing", "print_dpi", int_within 72 1200);
   ("printing", "max_pdf_pages_process", int_within 1 500);
   ("printing", "default_copies", int_within 1 99);
   ("printing", "default_mode", a_mode);
   ("printing", "bw_threshold", int_within 1 254);
   ("airprint", "auto_enable", a_bool);
   ("ui", "default_dark_mode", a_bool);
   ("ui", "default_eink_mode", a_bool);
   ("security", "require_token", a_bool);
   ("security", "token", a_str)].

Definition validated (m : gmap string value) : Prop :=
  Forall (fun '(sec, key, P) => has m sec key P) schema.

(** A dictionary none of whose values is a dictionary. *)
Definition is_dict (v : value) : bool :=
  match v with
  | VDict _ => true
  | _ => false
  end.

Definition flat (d : gmap string value) : Prop :=
  map_Forall (fun _ v => is_dict v = false) d.

(** [keyed m sec key]: if section [sec] of [m] is a dictionary, it has an
    entry [key]. *)
Definition keyed (m : gmap string value) (sec key : string) : Prop :=
  forall d, m !! sec = Some (VDict d) -> is_Some (d !! key).

(** What a successful [int_field] does to the configuration. *)
Definition upd (m : gmap string value) (sec key : string) (lo hi : Z)
    (m' : gmap string value) : Prop :=
  exists d iv,
    m !! sec = Some (VDict d) /\ lo <= iv <= hi /\
    m' = <[sec := VDict (<[key := VInt iv]> d)]> m.

(** A quotient of two positive floats: not negative, and with at most
    [prec] digits when finite. *)
Definition good (q : float) : Prop :=
  match q with
  | S754_finite s m _ => s = false /\ Z.pos m < 2 ^ prec
  | S754_infinity s => s = false
  | _ => True
  end.

(** ** Python's [==] on configurations *)

(** [x == n] for a [float] and an [int]: the exact values are compared. *)
Definition float_eq_Z (x : float) (n : Z) : bool :=
  match x with
  | S754_zero _ => n =? 0
  | S754_finite s m e =>
      let a := if s then Z.neg m else Z.pos m in
      if 0 <=? e then n =? a * 2 ^ e else n * 2 ^ (- e) =? a
  | _ => false
  end.

(** A [bool] as the [int] it is. *)
Definition Z_of_bool (b : bool) : Z := if b then 1 else 0.

(** [a == b] by value: numbers are compared whatever their types, a NaN is
    equal to nothing, lists are compared element by element and dictionaries
    key by key.  This is what Python computes for two values that share no
    object; an item that is the same object on both sides Python takes as
    equal without comparing it, so that what is equal by value is equal in
    Python too. *)
Fixpoint py_eq (a b : value) : bool :=
  match a, b with
  | VNone, VNone => true
  | VBool x, VBool y => Z_of_bool x =? Z_of_bool y
  | VBool x, VInt n | VInt n, VBool x => Z_of_bool x =? n
  | VBool x, VFloat f | VFloat f, VBool x => float_eq_Z f (Z_of_bool x)
  | VInt n, VInt m => n =? m
  | VInt n, VFloat f | VFloat f, VInt n => float_eq_Z f n
  | VFloat f, VFloat g => SFeqb f g
  | VStr s, VStr t => String.eqb s t
  | VList l, VList l' =>
      (fix all2 (l l' : list value) : bool :=
         match l, l' with
         | [], [] => true
         | x :: r, y :: r' => py_eq x y && all2 r r'
         | _, _ => false
         end) l l'
  | VDict d, VDict d' =>
      (size d =? size d')%nat &&
      map_fold
        (fun k v acc =>
           acc && match d' !! k with
                  | Some v' => py_eq v v'
                  | None => false
                  end)
        true d
  | _, _ => false
  end.

(** No NaN anywhere in [a]. *)
Fixpoint nan_free (a : value) : bool :=
  match a with
  | VFloat S754_nan => false
  | VList l => forallb nan_free l
  | VDict d => map_fold (fun _ v acc => acc && nan_free v) true d
  | _ => true
  end.

(** The number of constructors of a value below its top. *)
Fixpoint value_size (a : value) : nat :=
  match a with
  | VList l => S (list_sum (map value_size l))
  | VDict d => S (map_fold (fun _ v acc => (value_size v + acc)%nat) O d)
  | _ => O
  end.

(** A configuration that sets a port as a float, asks for a token and has
    a key of its own. *)
Definition custom_config : gmap string value :=
  <["app" := VDict {["port" := VFloat (float_of_Z 8080)]}]>
    (<["security" := VDict (<["require_token" := VBool true]>
                              {["token" := VStr " s3cret "]})]>
       {["note" := VList [VStr "hall"; VInt 2]]}).

(** The stand-in for the JSON codec in the examples: the list of the
    top-level items. *)
Definition items_of (v : gmap string value) : list (string * value) :=
  map_to_list v.

Definition of_items (l : list (string * value)) : option (gmap string value) :=
  Some (list_to_map l).

(** What a right shift has lost: the round bit or the sticky bit of the
    record is set. *)
Definition sticky (mrs : shr_record) : bool := shr_r mrs || shr_s mrs.

(** ** Notions of the further properties *)

(** An image whose pixel list has the length its size announces. *)
Definition well_formed {A} (im : image A) : Prop :=
  0 <= fst (im_size im) /\ 0 <= snd (im_size im) /\
  length (im_data im) = Z.to_nat (fst (im_size im) * snd (im_size im)).

Definition black_or_white (p : rgb) : Prop :=
  p = (0, 0, 0) \/ p = (255, 255, 255).

(** The modes that end in two colours. *)
Definition BILEVEL_MODES : list string := ["bw"; "dither"; "outline"].

(** [c] leaves the component [proj] of the world as it finds it. *)
Definition stable {X A} (proj : world -> X) (c : M A) : Prop :=
  forall w, proj (snd (c w)) = proj w.

(** [web.py]: the extensions an upload may have. *)
Definition ALLOWED_EXTS : gset string := {[ ".pdf" ]} ∪ SUPPORTED_IMAGE_EXTS.

(** [_allowed_filename(filename)]. *)
Definition _allowed_filename (filename : string) : bool :=
  let ext := lower (snd (splitext filename)) in
  bool_decide (ext ∈ ALLOWED_EXTS).

(** The image [render_preview_png] starts from: the page of a PDF, or the
    decoded image file. *)
Definition preview_source (path : string) (page preview_dpi : Z) : M (image rgb) :=
  let ext := lower (snd (splitext path)) in
  if String.eqb ext ".pdf" then _render_pdf_page_to_png path page preview_dpi
  else if bool_decide (ext ∈ SUPPORTED_IMAGE_EXTS) then _open_image path
  else raise (PrinterPalError "Preview supports PDF and common image formats").

(** The command line of [pdftoppm] for one page. *)
Definition pdftoppm_argv (path : string) (dpi : Z) (page : Z) (outprefix : string)
    : list string :=
  ["pdftoppm"; "-png"; "-f"; str_of_Z page; "-l"; str_of_Z page;
   "-r"; str_of_Z dpi; "-singlefile"; path; outprefix].

(** ** [printerpal/printer.py], the status functions *)

(** [str(e)]. *)
Definition str_of_exn (e : exn) : string :=
  match e with
  | PrinterPalError msg | CommandError msg _ | ValueError msg
  | OtherError _ msg => msg
  end.

(** [sub in s]. *)
Fixpoint contains (sub s : string) : bool :=
  String.prefix sub s ||
  match s with
  | String _ s' => contains sub s'
  | EmptyString => false
  end.

(** [s.split()]: the maximal runs of characters that are no white space.
    [cur] is the run read so far, reversed. *)
Fixpoint split_ws_from (cur : list ascii) (s : string) : list string :=
  match s with
  | EmptyString =>
      match cur with
      | [] => []
      | _ => [string_of_list_ascii (rev cur)]
      end
  | String c s' =>
      if isspace c then
        match cur with
        | [] => split_ws_from [] s'
        | _ => string_of_list_ascii (rev cur) :: split_ws_from [] s'
        end
      else split_ws_from (c :: cur) s'
  end.

Definition split_ws (s : string) : list string := split_ws_from [] s.

(** [cups_available()]. *)
Definition cups_available : M bool :=
  try_except
    (let* _ := run_cmd ["lpstat"; "-r"] _safe_timeout false None in
     ret true)
    (fun e => if is_PrinterPalError e then ret false else raise e).

(** [re.search(r"destination:\s*(\S+)", s)]: group 1 of the leftmost match,
    if there is one.  After the literal the white space is skipped; the
    group is the run of other characters that follows, and where there is
    none the search goes on one character further. *)
Fixpoint skip_spaces (s : string) : string :=
  match s with
  | String c s' => if isspace c then skip_spaces s' else s
  | EmptyString => EmptyString
  end.

Fixpoint word (s : string) : string :=
  match s with
  | String c s' => if isspace c then EmptyString else String c (word s')
  | EmptyString => EmptyString
  end.

Fixpoint search_destination (s : string) : option string :=
  let here :=
    if String.prefix "destination:" s then
      match word (skip_spaces (substr_from 12 s)) with
      | EmptyString => None
      | g => Some g
      end
    else None in
  match here with
  | Some g => Some g
  | None =>
      match s with
      | String _ s' => search_destination s'
      | EmptyString => None
      end
  end.

(** [get_default_printer()]. *)
Definition get_default_printer : M string :=
  try_except
    (let* res := run_cmd ["lpstat"; "-d"] _safe_timeout false None in
     ret (default "" (search_destination (stdout res))))
    (fun e => if is_PrinterPalError e then ret "" else raise e).

(** One turn of the loop of [queue_jobs]: the job of a line, if the line
    has three fields. *)
Definition job_of_line (line : string) : option (gmap string value) :=
  let line := strip line in
  if String.eqb line "" then None
  else
    match split_ws line with
    | job_id :: user :: size :: _ =>
        Some (<["raw" := VStr line]>
                (<["size" := VStr size]>
                   (<["user" := VStr user]> {["job_id" := VStr job_id]})))
    | _ => None
    end.

(** [queue_jobs()]. *)
Definition queue_jobs : M (list (gmap string value)) :=
  let* res := run_cmd ["lpstat"; "-o"] _safe_timeout false None in
  ret (omap job_of_line (splitlines (stdout res))).

(** [job_stats()]. *)
Definition job_stats : M (gmap string value) :=
  let* completed :=
    run_cmd ["lpstat"; "-W"; "completed"; "-o"] _safe_timeout false None in
  let completed_lines :=
    List.filter (fun ln => negb (String.eqb (strip ln) ""))
      (splitlines (stdout completed)) in
  let* active := queue_jobs in
  ret (<["last_completed_raw" := VStr (default "" (last completed_lines))]>
         (<["active_jobs" := VInt (Z.of_nat (length active))]>
            {["completed_jobs" := VInt (Z.of_nat (length completed_lines))]})).

(** [scheduler_status()]. *)
Definition scheduler_status : M (gmap string value) :=
  try_except
    (let* res := run_cmd ["lpstat"; "-r"] _safe_timeout false None in
     let running := contains "running" (lower (stdout res)) in
     ret (<["raw" := VStr (strip (stdout res))]>
            {["cups_scheduler_running" := VBool running]}))
    (fun e =>
       if is_PrinterPalError e then
         ret (<["error" := VStr (str_of_exn e)]>
                (<["raw" := VStr ""]>
                   {["cups_scheduler_running" := VBool false]}))
       else raise e).

(** [printer_detail(name)]. *)
Definition printer_detail (name : string) : M (gmap string value) :=
  if String.eqb name "" then ret ∅
  else
    let* out := run_cmd ["lpstat"; "-l"; "-p"; name] _safe_timeout false None in
    let txt := strip (stdout out) in
    ret (<["detail" := VStr txt]> {["name" := VStr name]}).

(** ** [printerpal/airprint.py] *)

(** [ensure_airprint_via_root_helper(timeout_s)]; [ROOT_HELPER] is read
    from the environment when the module is loaded. *)
Definition ensure_airprint_via_root_helper (ROOT_HELPER : string)
    (timeout_s : float) : M (gmap string value) :=
  let* found := os_path_exists ROOT_HELPER in
  if negb found then
    raise (PrinterPalError ("Root helper not found at " +:+ ROOT_HELPER))
  else
    let* res :=
      run_cmd ["sudo"; "-n"; ROOT_HELPER; "ensure-airprint"] timeout_s true None in
    let out := strip (stdout res) in
    ret (<["output" := VStr out]> {["ok" := VBool true]}).

(** ** [util.py]: [human_bytes] *)

(** [float(n)] with its exception. *)
Definition float_of_int (n : Z) : result float :=
  match float_of_Z n with
  | S754_infinity _ =>
      Raise (OtherError "OverflowError" "int too large to convert to float")
  | x => Ok x
  end.

Definition UNITS : list string := ["B"; "KB"; "MB"; "GB"; "TB"].

(** The loop of [human_bytes] over the units that are left. *)
Fixpoint human_bytes_loop (v : float) (units : list string) : result string :=
  match units with
  | [] => Ok (format_1f v +:+ " TB")
  | u :: rest =>
      if flt v (float_of_Z 1024) || String.eqb u (default "" (last UNITS)) then
        if String.eqb u "B" then
          match int_of_float v with
          | Ok k => Ok (str_of_Z k +:+ " " +:+ u)
          | Raise e => Raise e
          end
        else Ok (format_1f v +:+ " " +:+ u)
      else human_bytes_loop (fdiv v (float_of_Z 1024)) rest
  end.

(** [human_bytes(n)]. *)
Definition human_bytes (n : Z) : result string :=
  if n <? 0 then Ok "0 B"
  else
    match float_of_int n with
    | Ok v => human_bytes_loop v UNITS
    | Raise e => Raise e
    end.

(** ** Notions of the properties of [printer.py] *)

(** The command line the property of [print_file] speaks of. *)
Definition lp_argv (file_path : string) (printer : option string) (copies : Z)
    (title : string) (options : option (list string)) : list string :=
  ["lp"; "-n"; str_of_Z copies; "-t"; title] ++
  match printer with
  | Some p => if String.eqb p "" then [] else ["-d"; p]
  | None => []
  end ++
  ["-o"; "print-color-mode=monochrome"; "-o"; "ColorModel=Gray"] ++
  flat_map (fun opt => ["-o"; opt])
    (List.filter (fun opt => negb (String.eqb opt "")) (default [] options)) ++
  [file_path].

(** A job id without the newline that may end it. *)
Fixpoint drop_final_newline (s : string) : string :=
  match s with
  | EmptyString => EmptyString
  | String c s' =>
      match s' with
      | EmptyString => if code c =? 10 then EmptyString else s
      | String _ _ => String c (drop_final_newline s')
      end
  end.

(** The job ids [cancel_job] lets through: characters of the class, one at
    least, and possibly one newline after them. *)
Definition valid_job_id (s : string) : bool :=
  let body := drop_final_newline s in
  negb (String.eqb body "") && forallb job_id_char (list_ascii_of_string body).

Definition no_space (s : string) : bool :=
  forallb (fun c => negb (isspace c)) (list_ascii_of_string s).

(** A field of a job: a string that is not empty and holds no white
    space. *)
Definition a_word (v : option value) : Prop :=
  exists s, v = Some (VStr s) /\ s <> "" /\ no_space s = true.

(** The child ran to its end. *)
Definition exited (c : child) : bool :=
  match c with
  | ChildExit _ _ _ _ => true
  | _ => false
  end.

(** The exception of [subprocess.run] that [run_cmd] lets through, if
    the call ends in one. *)
Definition uncaught (c : child) : option exn :=
  match c with
  | ChildRaises cls msg _ =>
      if not_found_class cls || timeout_class cls then None
      else Some (builtin_exn cls msg)
  | _ => None
  end.

(** A result that is a value, a plain [PrinterPalError], or the exception
    that [subprocess.run] raised for the child [c] and [run_cmd] let
    through. *)
Definition plain_or_uncaught {A} (c : child) (r : result A) : Prop :=
  match r with
  | Ok _ | Raise (PrinterPalError _) => True
  | Raise e => uncaught c = Some e
  end.

Definition child_stdout (c : child) : string :=
  match c with
  | ChildExit _ out _ _ => out
  | _ => ""
  end.

(** The sections of the configuration. *)
Definition SECTIONS : list string :=
  ["app"; "printing"; "airprint"; "ui"; "security"].

(** ** [printerpal/web.py]: the token check and the print request *)

(** The truth value Python gives a value. *)
Definition truthy (v : value) : bool :=
  match v with
  | VNone => false
  | VBool b => b
  | VInt n => negb (n =? 0)
  | VFloat (S754_zero _) => false
  | VFloat _ => true
  | VStr s => negb (String.eqb s "")
  | VList l => match l with [] => false | _ => true end
  | VDict d => negb (bool_decide (d = ∅))
  end.

(** What the wrapper of [_require_token] does with a request: it calls the
    view or aborts with a status. *)
Inductive gate :=
| Pass
| Refuse (status : Z).

(** [a or b] on optional strings: [a] unless it is [None] or empty. *)
Definition opt_or (a b : option string) : option string :=
  match a with
  | Some s => if String.eqb s "" then b else a
  | None => b
  end.

(** The wrapper of [_require_token(app)]: [cfg] is [app.config["PP_CFG"]],
    [header] the request header [X-PrinterPal-Token] and [query] the
    request argument [token]. *)
Definition _require_token (cfg : gmap string value) (header query : option string)
    : result gate :=
  let sec := default (VDict ∅) (cfg !! "security") in
  match get sec "require_token" with
  | Raise e => Raise e
  | Ok rt =>
      if negb (truthy rt) then Ok Pass
      else
        match get sec "token" with
        | Raise e => Raise e
        | Ok tok =>
            match (if truthy tok then tok else VStr "") with
            | VStr s =>
                let expected := strip s in
                if String.eqb expected "" then Ok (Refuse 503)
                else
                  let provided := opt_or header query in
                  if bool_decide (provided = Some expected) then Ok Pass
                  else Ok (Refuse 401)
            | v =>
                Raise (OtherError "AttributeError" (no_attribute v "strip"))
            end
        end
  end.






(** * Proofs *)

(** ** The command runner *)

Ltac monad_unfold :=
  unfold bind, ret, raise, lift, try_except, try_finally, ask, the_host,
    time_monotonic, subprocess_run, os_path_exists, add_files, rmtree in *.

Lemma run_cmd_cases args timeout_s check env w :
  fst (run_cmd args timeout_s check env w) =
  match args with
  | [] => Raise (ValueError "argv must not be empty")
  | prog :: _ =>
      let not_found := PrinterPalError ("Command not found: " +:+ prog) in
      let timed_out :=
        PrinterPalError
          ("Command timed out after " +:+ format_1f timeout_s +:+ "s: "
           +:+ join " " args) in
      match child_of args w with
      | ChildNotFound => Raise not_found
      | ChildTimeout _ => Raise timed_out
      | ChildRaises cls msg _ =>
          if not_found_class cls then Raise not_found
          else if timeout_class cls then Raise timed_out
          else Raise (builtin_exn cls msg)
      | ChildExit rc out err _ =>
          let res :=
            {| argv := args; returncode := rc; stdout := out; stderr := err;
               duration_s :=
                 fsub (h_monotonic (w_host w) (S (S (w_tick w))))
                   (h_monotonic (w_host w) (w_tick w)) |} in
          if check && negb (rc =? 0) then
            Raise (CommandError
                     ("Command failed (" +:+ str_of_Z rc +:+ "): " +:+ join " " args)
                     res)
          else Ok res
      end
  end.
Proof.
  unfold run_cmd, child_of. destruct args as [|prog rest]; [reflexivity|].
  monad_unfold. cbn.
  destruct (h_spawn (w_host w) (S (w_tick w)) (prog :: rest)); cbn; try reflexivity.
  - destruct (check && negb (rc =? 0)); reflexivity.
  - destruct (not_found_class cls); [reflexivity|].
    destruct (timeout_class cls); reflexivity.
Qed.

(** C7.  [run_cmd] raises [CommandError] exactly when [check] is set and
    the child ran to its end with a non-zero exit code; the exception then
    carries the whole result (argument vector, exit code, both streams);
    and without [check] a child that exits, with whatever code, gives a
    normal [CmdResult]. *)
Theorem run_cmd_CommandError_iff (args : list string) (timeout_s : float)
    (check : bool) (env : CmdEnv) (w : world) :
  let r := fst (run_cmd args timeout_s check env w) in
  (raised_CommandError r = true <->
   check = true /\ args <> [] /\
   exists rc, exit_code (child_of args w) = Some rc /\ rc <> 0) /\
  (forall msg res, r = Raise (CommandError msg res) ->
   argv res = args /\
   exists created,
     child_of args w = ChildExit (returncode res) (stdout res) (stderr res) created) /\
  (check = false ->
   forall rc out err created,
     args <> [] -> child_of args w = ChildExit rc out err created ->
     exists res,
       r = Ok res /\ argv res = args /\ returncode res = rc /\
       stdout res = out /\ stderr res = err).
Proof.
  intros r. subst r. rewrite run_cmd_cases.
  destruct args as [|prog rest].
  - split; [|split].
    + cbn. split; [discriminate|]. intros (_ & Hne & _). congruence.
    + intros msg res H. discriminate.
    + intros _ rc out err created Hne. congruence.
  - cbv zeta.
    destruct (child_of (prog :: rest) w) as [|created|rc out err created|cls m created]
      eqn:Hc.
    + split; [|split].
      * cbn. split; [discriminate|]. intros (_ & _ & rc & H & _). discriminate.
      * intros msg res H. discriminate.
      * intros _ rc out err created _ H. discriminate.
    + split; [|split].
      * cbn. split; [discriminate|]. intros (_ & _ & rc & H & _). discriminate.
      * intros msg res H. discriminate.
      * intros _ rc out err created' _ H. discriminate.
    + cbv zeta. split; [|split].
      * destruct check; cbn [andb].
        -- destruct (Z.eqb_spec rc 0) as [->|Hrc]; cbn.
           ++ split; [discriminate|]. intros (_ & _ & rc & H & Hne).
              inversion H. congruence.
           ++ split; [|reflexivity]. intros _. split; [reflexivity|].
              split; [discriminate|]. exists rc. split; [reflexivity|assumption].
        -- cbn. split; [discriminate|]. intros (H & _). discriminate.
      * intros msg res H.
        destruct (check && negb (rc =? 0)); [|discriminate].
        inversion H; subst; cbn. split; [reflexivity|]. exists created. reflexivity.
      * intros -> rc' out' err' created' _ H. inversion H; subst. cbn.
        eexists. split; [reflexivity|]. cbn. repeat split.
    + unfold builtin_exn.
      destruct (not_found_class cls); [|destruct (timeout_class cls);
        [|destruct (String.eqb cls "ValueError")]].
      all: split; [|split].
      all: try (cbn; split; [discriminate|];
                intros (_ & _ & rc & H & _); discriminate).
      all: try (intros msg res H; discriminate).
      all: intros _ rc out err created' _ H; discriminate.
Qed.

(** ** Printing and cancelling *)

(** C5.  With [copies] outside 1..99 [print_file] raises
    [PrinterPalError] (for the missing file when there is none, for the
    copies otherwise) and leaves the world as it was: no child process is
    started and the host is asked nothing. *)
Theorem print_file_copies_out_of_range (file_path : string)
    (printer : option string) (copies : Z) (title : string)
    (options : option (list string)) (timeout_s : float) (w : world) :
  copies < 1 \/ 99 < copies ->
  print_file file_path printer copies title options timeout_s w =
  (Raise (PrinterPalError
            (if path_exists (w_files w) file_path
             then "copies must be between 1 and 99"
             else "File does not exist: " +:+ file_path)),
   w).
Proof.
  intros Hc. unfold print_file. monad_unfold.
  destruct (path_exists (w_files w) file_path); cbn; [|reflexivity].
  replace ((copies <? 1) || (copies >? 99)) with true; [reflexivity|].
  symmetry. apply orb_true_iff.
  destruct Hc; [left; apply Z.ltb_lt | right; apply Z.gtb_lt]; lia.
Qed.

Lemma print_file_copies_out_of_range_witness :
  let w := example_world (exits 0 "") (blank 1 1) ["/up/a.pdf"] in
  print_file "/up/a.pdf" None 100 "job" None (float_of_Z 30) w =
  (Raise (PrinterPalError "copies must be between 1 and 99"), w).
Proof.
  intros w.
  apply (print_file_copies_out_of_range "/up/a.pdf" None 100 "job" None
           (float_of_Z 30) w).
  right. lia.
Defined.

(** C6, at a job id that ends in a newline: the newline is outside the
    class, yet [re.match] accepts the id, because [$] also matches before a
    final newline, and the [cancel] command is started with it. *)
Lemma cancel_job_final_newline :
  let job_id := "12" +:+ String LF "" in
  let w := example_world (exits 0 "") (blank 1 1) [] in
  existsb (fun c => negb (job_id_char c)) (list_ascii_of_string job_id) = true /\
  fst (cancel_job job_id w) = Ok tt /\
  w_spawned (snd (cancel_job job_id w)) = [["cancel"; job_id]].
Proof. vm_compute. repeat split. Qed.

(** ** Print preparation *)

Create HintDb keeps.

Lemma keeps_ret {A} (a : A) : keeps (ret a).
Proof. intros w. reflexivity. Qed.

Lemma keeps_raise {A} (e : exn) : keeps (@raise A e).
Proof. intros w. reflexivity. Qed.

Lemma keeps_lift {A} (r : result A) : keeps (lift r).
Proof. intros w. reflexivity. Qed.

Lemma keeps_bind {A B} (c : M A) (k : A -> M B) :
  keeps c -> (forall a, keeps (k a)) -> keeps (bind c k).
Proof.
  intros Hc Hk w. unfold bind. specialize (Hc w).
  destruct (c w) as [[a|e] w1]; cbn in *; [|assumption].
  etransitivity; [exact Hc|apply Hk].
Qed.

Lemma keeps_try_except {A} (c : M A) (h : exn -> M A) :
  keeps c -> (forall e, keeps (h e)) -> keeps (try_except c h).
Proof.
  intros Hc Hh w. unfold try_except. specialize (Hc w).
  destruct (c w) as [[a|e] w1]; cbn in *; [assumption|].
  etransitivity; [exact Hc|apply Hh].
Qed.

Lemma keeps_ask {A} (f : host -> nat -> A) : keeps (ask f).
Proof. intros w. reflexivity. Qed.

Lemma keeps_the_host : keeps the_host.
Proof. intros w. reflexivity. Qed.

Lemma keeps_os_path_exists p : keeps (os_path_exists p).
Proof. intros w. reflexivity. Qed.

Lemma keeps_add_files ps : keeps (add_files ps).
Proof. intros w. cbn. set_solver. Qed.

Lemma keeps_subprocess_run args t : keeps (subprocess_run args t).
Proof. intros w. cbn. set_solver. Qed.

Lemma keeps_write_bytes p d : keeps (write_bytes p d).
Proof. apply keeps_ret. Qed.

#[local] Hint Resolve keeps_ret keeps_raise keeps_lift keeps_ask keeps_the_host
  keeps_os_path_exists keeps_add_files keeps_subprocess_run keeps_write_bytes
  : keeps.

Ltac keeps_step :=
  match goal with
  | |- keeps (bind _ _) => apply keeps_bind; [|intros ?]
  | |- keeps (try_except _ _) => apply keeps_try_except; [|intros ?]
  | |- keeps (match ?x with _ => _ end) => destruct x
  | |- keeps (if ?b then _ else _) => destruct b
  | |- keeps _ => solve [auto with keeps]
  end.

Lemma keeps_run_cmd args t check env : keeps (run_cmd args t check env).
Proof. unfold run_cmd, time_monotonic. repeat keeps_step. Qed.

#[local] Hint Resolve keeps_run_cmd : keeps.

(** What [first_unused] finds did not exist, and is all it adds. *)
Lemma first_unused_spec n pre suf what w :
  match first_unused n pre suf what w with
  | (Ok f, w') =>
      path_exists (w_files w) f = false /\ w_files w' = {[f]} ∪ w_files w
  | (Raise _, w') => w_files w' = w_files w
  end.
Proof.
  revert w. induction n as [|n IH]; intros w; cbn; [reflexivity|].
  monad_unfold. cbn.
  set (file := os_path_join _ _).
  destruct (path_exists (w_files w) file) eqn:Hex.
  - match goal with |- context [first_unused n pre suf what ?w1] =>
      specialize (IH w1) end.
    destruct (first_unused n pre suf what _) as [[f|e] w']; cbn in *; exact IH.
  - split; [exact Hex|]. set_solver.
Qed.

Lemma keeps_first_unused n pre suf what : keeps (first_unused n pre suf what).
Proof.
  intros w. pose proof (first_unused_spec n pre suf what w) as H.
  destruct (first_unused n pre suf what w) as [[f|e] w']; cbn.
  - destruct H as [_ ->]. set_solver.
  - rewrite H. reflexivity.
Qed.

#[local] Hint Resolve keeps_first_unused : keeps.

Lemma mkstemp_spec pre suf w :
  match mkstemp pre suf w with
  | (Ok f, w') =>
      path_exists (w_files w) f = false /\ w_files w' = {[f]} ∪ w_files w
  | (Raise _, w') => w_files w' = w_files w
  end.
Proof. unfold mkstemp. monad_unfold. apply first_unused_spec. Qed.

Lemma keeps_mkstemp pre suf : keeps (mkstemp pre suf).
Proof. unfold mkstemp. repeat keeps_step. Qed.

#[local] Hint Resolve keeps_mkstemp : keeps.

Lemma path_exists_mono (f1 f2 : gset string) p :
  f1 ⊆ f2 -> path_exists f1 p = true -> path_exists f2 p = true.
Proof.
  unfold path_exists. intros Hsub H.
  apply orb_true_iff in H. apply orb_true_iff. destruct H as [H|H].
  - left. apply bool_decide_eq_true in H. apply bool_decide_eq_true. set_solver.
  - right. apply existsb_exists in H. destruct H as (q & Hq & Hb).
    apply existsb_exists. exists q. split; [|exact Hb].
    apply list_elem_of_In. apply elem_of_elements.
    apply list_elem_of_In, elem_of_elements in Hq. set_solver.
Qed.

(** A directory made by [mkdtemp] and removed again takes nothing with it
    that was there before. *)
Lemma keeps_with_TemporaryDirectory {A} pre (body : string -> M A) :
  (forall td, keeps (body td)) -> keeps (with_TemporaryDirectory pre body).
Proof.
  intros Hbody w. unfold with_TemporaryDirectory, mkdtemp.
  unfold bind at 1. unfold the_host at 1. cbn.
  unfold bind. pose proof (first_unused_spec (h_TMP_MAX (w_host w)) pre "" "directory" w) as H.
  destruct (first_unused _ pre "" "directory" w) as [[td|e] w1]; cbn.
  - destruct H as [Hfresh Hw1]. unfold try_finally.
    specialize (Hbody td w1). destruct (body td w1) as [r w2]. cbn in *.
    intros p Hp. apply elem_of_filter.
    unfold path_exists in Hfresh. apply orb_false_iff in Hfresh.
    destruct Hfresh as [Hnot Hbelow].
    apply bool_decide_eq_false in Hnot.
    split; [split|].
    + intros ->. contradiction.
    + destruct (below td p) eqn:Hb; [|reflexivity].
      assert (existsb (below td) (elements (w_files w)) = true) as Hc.
      { apply existsb_exists. exists p. split; [|exact Hb].
        apply list_elem_of_In, elem_of_elements. exact Hp. }
      congruence.
    + apply Hbody. rewrite Hw1. set_solver.
  - rewrite H. reflexivity.
Qed.

Lemma keeps_Image_open_RGB p : keeps (Image_open_RGB p).
Proof. unfold Image_open_RGB. repeat keeps_step. Qed.

#[local] Hint Resolve keeps_Image_open_RGB : keeps.

Lemma keeps__open_image p : keeps (_open_image p).
Proof. unfold _open_image. repeat keeps_step. Qed.

Lemma keeps__render_pdf_page_to_png path page dpi :
  keeps (_render_pdf_page_to_png path page dpi).
Proof.
  unfold _render_pdf_page_to_png. destruct (page <? 1); [auto with keeps|].
  apply keeps_with_TemporaryDirectory. intros td. repeat keeps_step.
Qed.

#[local] Hint Resolve keeps__open_image keeps__render_pdf_page_to_png : keeps.

Lemma keeps_render_pages src mode dpi thr pages :
  keeps (render_pages src mode dpi thr pages).
Proof.
  induction pages as [|p rest IH]; cbn; [auto with keeps|].
  repeat keeps_step.
Qed.

Lemma keeps_pdf_page_count path : keeps (pdf_page_count path).
Proof. unfold pdf_page_count. repeat keeps_step. Qed.

Lemma keeps_pillow_save_pdf imgs : keeps (pillow_save_pdf imgs).
Proof. unfold pillow_save_pdf. repeat keeps_step. Qed.

#[local] Hint Resolve keeps_render_pages keeps_pdf_page_count
  keeps_pillow_save_pdf : keeps.

Lemma keeps__images_to_pdf_bytes imgs : keeps (_images_to_pdf_bytes imgs).
Proof. unfold _images_to_pdf_bytes. repeat keeps_step. Qed.

#[local] Hint Resolve keeps__images_to_pdf_bytes : keeps.

Lemma bind_ok {A B} (c : M A) (k : A -> M B) w b w' :
  bind c k w = (Ok b, w') ->
  exists a w1, c w = (Ok a, w1) /\ k a w1 = (Ok b, w').
Proof.
  unfold bind. destruct (c w) as [[a|e] w1]; [eauto|discriminate].
Qed.

Lemma keeps_run {A} (c : M A) w r w1 :
  keeps c -> c w = (r, w1) -> w_files w ⊆ w_files w1.
Proof. intros Hk Hc. specialize (Hk w). rewrite Hc in Hk. exact Hk. Qed.

(** The last steps of both converting branches: a fresh file is made in a
    world where the source still exists. *)
Lemma mkstemp_not_source src pre suf w0 w out w' :
  path_exists (w_files w0) src = true ->
  w_files w0 ⊆ w_files w ->
  mkstemp pre suf w = (Ok out, w') ->
  out <> src.
Proof.
  intros Hsrc Hsub Hmk. pose proof (mkstemp_spec pre suf w) as H.
  rewrite Hmk in H. destruct H as [Hfresh _].
  pose proof (path_exists_mono _ _ _ Hsub Hsrc) as Hsrc'.
  intros ->. congruence.
Qed.

Lemma raw_meta_prepared src dpi :
  raw_meta src dpi !! "prepared" = Some (VBool false).
Proof. unfold raw_meta. apply lookup_insert_eq. Qed.

Lemma prepare_print_file_raw src dpi max_pages thr w :
  path_exists (w_files w) src = true ->
  prepare_print_file src "raw" dpi max_pages thr w = (Ok (src, raw_meta src dpi), w).
Proof.
  intros Hex. unfold prepare_print_file. monad_unfold. rewrite Hex. reflexivity.
Qed.

Lemma prepare_print_file_converted src mode dpi max_pages thr w p meta w' :
  path_exists (w_files w) src = true ->
  mode <> "raw" ->
  prepare_print_file src mode dpi max_pages thr w = (Ok (p, meta), w') ->
  p <> src /\ meta !! "prepared" = Some (VBool true).
Proof.
  intros Hex Hmode H. unfold prepare_print_file in H.
  unfold bind at 1 in H. unfold os_path_exists in H. rewrite Hex in H.
  cbn [negb] in H. cbv iota in H.
  destruct (String.eqb_spec mode "raw") as [->|_]; [contradiction|].
  destruct (String.eqb _ ".pdf").
  - apply bind_ok in H as (pages & w1 & H1 & H).
    destruct (max_pages <? pages); [discriminate|].
    apply bind_ok in H as (imgs & w2 & H2 & H).
    apply bind_ok in H as (pdf & w3 & H3 & H).
    apply bind_ok in H as (out & w4 & H4 & H).
    cbn in H. inversion H; subst. split.
    + eapply mkstemp_not_source; [exact Hex| |exact H4].
      etransitivity; [eapply keeps_run; [|exact H1]; auto with keeps|].
      etransitivity; [eapply keeps_run; [|exact H2]; auto with keeps|].
      eapply keeps_run; [|exact H3]. auto with keeps.
    + rewrite lookup_insert_ne by discriminate. apply lookup_insert_eq.
  - destruct (bool_decide _); [|discriminate].
    apply bind_ok in H as (im & w1 & H1 & H).
    apply bind_ok in H as (im2 & w2 & H2 & H).
    apply bind_ok in H as (buf & w3 & H3 & H).
    apply bind_ok in H as (out & w4 & H4 & H).
    cbn in H. inversion H; subst. split.
    + eapply mkstemp_not_source; [exact Hex| |exact H4].
      etransitivity; [eapply keeps_run; [|exact H1]; auto with keeps|].
      etransitivity; [eapply keeps_run; [|exact H2]; auto with keeps|].
      eapply keeps_run; [|exact H3]. auto with keeps.
    + rewrite lookup_insert_ne by discriminate. apply lookup_insert_eq.
Qed.

(** C2.  For a source that exists: with mode [raw] the result is the source
    path itself with [prepared = False], and the world is untouched (no
    file is made, no child started); with any other mode, a successful
    result is a path different from the source, with [prepared = True]. *)
Theorem prepare_print_file_raw_or_converted (src_path mode : string)
    (print_dpi max_pdf_pages threshold : Z) (w : world) :
  path_exists (w_files w) src_path = true ->
  (mode = "raw" ->
   exists meta,
     prepare_print_file src_path mode print_dpi max_pdf_pages threshold w =
     (Ok (src_path, meta), w) /\
     meta !! "prepared" = Some (VBool false)) /\
  (mode <> "raw" ->
   forall p meta w',
     prepare_print_file src_path mode print_dpi max_pdf_pages threshold w =
     (Ok (p, meta), w') ->
     p <> src_path /\ meta !! "prepared" = Some (VBool true)).
Proof.
  intros Hex. split.
  - intros ->. exists (raw_meta src_path print_dpi). split.
    + apply prepare_print_file_raw. exact Hex.
    + apply raw_meta_prepared.
  - intros Hmode p meta w' H.
    eapply prepare_print_file_converted; eassumption.
Qed.

Lemma prepare_print_file_raw_or_converted_witness :
  (exists meta,
     prepare_print_file "/up/a.pdf" "raw" 200 30 180 uploads =
     (Ok ("/up/a.pdf", meta), uploads) /\
     meta !! "prepared" = Some (VBool false)) /\
  (exists p meta w',
     prepare_print_file "/up/a.pdf" "bw" 200 30 180 uploads = (Ok (p, meta), w') /\
     p <> "/up/a.pdf" /\ meta !! "prepared" = Some (VBool true)).
Proof.
  split.
  - apply (prepare_print_file_raw_or_converted "/up/a.pdf" "raw" 200 30 180 uploads);
      reflexivity.
  - destruct (prepare_print_file "/up/a.pdf" "bw" 200 30 180 uploads)
      as [[[p meta]|e] w'] eqn:H; [|vm_compute in H; discriminate].
    exists p, meta, w'. split; [reflexivity|].
    apply (prepare_print_file_raw_or_converted "/up/a.pdf" "bw" 200 30 180 uploads)
      with (w' := w'); [reflexivity|discriminate|exact H].
Defined.

(** C10.  Mode [raw] returns before the extension is looked at: for a
    source that exists, whatever its extension, the result is the source
    path with [prepared = False]; and no call with mode [raw] ends in
    "Unsupported file type for printing". *)
Theorem prepare_print_file_raw_any_extension (src_path mode : string)
    (print_dpi max_pdf_pages threshold : Z) (w : world) :
  (path_exists (w_files w) src_path = true ->
   prepare_print_file src_path "raw" print_dpi max_pdf_pages threshold w =
   (Ok (src_path, raw_meta src_path print_dpi), w) /\
   raw_meta src_path print_dpi !! "prepared" = Some (VBool false)) /\
  (fst (prepare_print_file src_path mode print_dpi max_pdf_pages threshold w) =
   Raise (PrinterPalError "Unsupported file type for printing") ->
   mode <> "raw").
Proof.
  split.
  - intros Hex. split; [apply prepare_print_file_raw; exact Hex|].
    apply raw_meta_prepared.
  - intros H ->. unfold prepare_print_file in H. monad_unfold.
    destruct (path_exists (w_files w) src_path); cbn in H; discriminate.
Qed.

Lemma prepare_print_file_raw_any_extension_witness :
  prepare_print_file "/up/c.txt" "raw" 200 30 180 uploads =
  (Ok ("/up/c.txt", raw_meta "/up/c.txt" 200), uploads) /\
  fst (prepare_print_file "/up/c.txt" "bw" 200 30 180 uploads) =
  Raise (PrinterPalError "Unsupported file type for printing").
Proof.
  split.
  - apply (prepare_print_file_raw_any_extension "/up/c.txt" "raw" 200 30 180 uploads).
    reflexivity.
  - reflexivity.
Defined.

Lemma run_cmd_spawned args t check env w :
  w_spawned (snd (run_cmd args t check env w)) =
  w_spawned w ++ match args with [] => [] | _ => [args] end.
Proof.
  unfold run_cmd. destruct args as [|prog rest]; cbn; [symmetry; apply app_nil_r|].
  monad_unfold. cbn.
  destruct (h_spawn _ _ _); cbn; try reflexivity.
  - destruct (check && _); reflexivity.
  - destruct (not_found_class cls); [reflexivity|].
    destruct (timeout_class cls); reflexivity.
Qed.

Lemma pdf_page_count_ok path w pages w1 :
  pdf_page_count path w = (Ok pages, w1) ->
  path_exists (w_files w) path = true /\
  w_spawned w1 = w_spawned w ++ [["pdfinfo"; path]].
Proof.
  unfold pdf_page_count. unfold bind at 1. unfold os_path_exists.
  destruct (path_exists (w_files w) path); cbn [negb]; [|discriminate].
  intros H. split; [reflexivity|].
  apply bind_ok in H as (res & w2 & Hrun & H).
  assert (w2 = w1) as ->.
  { destruct (pages_field _); cbn in H; inversion H; reflexivity. }
  pose proof (run_cmd_spawned ["pdfinfo"; path] (float_of_Z 8) true None w) as Hs.
  rewrite Hrun in Hs. exact Hs.
Qed.

(** C3.  A PDF source whose page count, as [pdf_page_count] reports it,
    is above [max_pdf_pages] makes every mode but [raw] fail with the
    page-limit [PrinterPalError]; the only child started on the way is
    [pdfinfo], so [pdftoppm] has rendered no page. *)
Theorem prepare_print_file_too_many_pages (src_path mode : string)
    (print_dpi max_pdf_pages threshold : Z) (w : world) (pages : Z) (w1 : world) :
  lower (snd (splitext src_path)) = ".pdf" ->
  mode <> "raw" ->
  pdf_page_count src_path w = (Ok pages, w1) ->
  max_pdf_pages < pages ->
  prepare_print_file src_path mode print_dpi max_pdf_pages threshold w =
  (Raise (PrinterPalError (too_many_pages pages max_pdf_pages)), w1) /\
  w_spawned w1 = w_spawned w ++ [["pdfinfo"; src_path]].
Proof.
  intros Hext Hmode Hcount Hmax.
  destruct (pdf_page_count_ok _ _ _ _ Hcount) as [Hex Hsp].
  split; [|exact Hsp].
  unfold prepare_print_file. unfold bind at 1. unfold os_path_exists.
  rewrite Hex. cbn [negb]. cbv iota.
  destruct (String.eqb_spec mode "raw") as [->|_]; [contradiction|].
  rewrite Hext. cbn [String.eqb Ascii.eqb Bool.eqb]. cbv iota.
  unfold bind at 1. rewrite Hcount.
  apply Z.ltb_lt in Hmax. rewrite Hmax. reflexivity.
Qed.

Lemma prepare_print_file_too_many_pages_witness :
  exists w1,
    prepare_print_file "/up/a.pdf" "bw" 200 2 180 uploads =
    (Raise (PrinterPalError (too_many_pages 3 2)), w1) /\
    w_spawned w1 = [["pdfinfo"; "/up/a.pdf"]].
Proof.
  exists (snd (pdf_page_count "/up/a.pdf" uploads)).
  apply (prepare_print_file_too_many_pages "/up/a.pdf" "bw" 200 2 180 uploads 3).
  - reflexivity.
  - discriminate.
  - reflexivity.
  - lia.
Defined.

(** ** The mode filters *)

Lemma apply_mode_bw im threshold : apply_mode im "bw" threshold = Ok (bw threshold im).
Proof. reflexivity. Qed.

Lemma apply_mode_outline im threshold :
  apply_mode im "outline" threshold = Ok (outline threshold im).
Proof. reflexivity. Qed.

(** A pixel that has been binarised is grey with value 0 or 255; its luma
    is that value, and binarising it again gives it back. *)
Lemma rebinarize threshold p :
  1 <= threshold <= 254 ->
  binarize threshold
    (L24 (binarize threshold p, binarize threshold p, binarize threshold p)) =
  binarize threshold p.
Proof.
  intros Ht. unfold binarize.
  destruct (threshold <=? p).
  - change (L24 (255, 255, 255)) with 255.
    destruct (Z.leb_spec threshold 255); [reflexivity|lia].
  - change (L24 (0, 0, 0)) with 0.
    destruct (Z.leb_spec threshold 0); [lia|reflexivity].
Qed.

Lemma bw_of_binarized threshold (g : image Z) :
  1 <= threshold <= 254 ->
  bw threshold (convert_RGB (point (binarize threshold) g)) =
  convert_RGB (point (binarize threshold) g).
Proof.
  intros Ht. unfold bw, convert_RGB, convert_L, point, map_image. cbn.
  f_equal. rewrite !map_map. apply map_ext. intros p.
  rewrite rebinarize by exact Ht. reflexivity.
Qed.

(** C4, as amended.  For a threshold in 1..254, [bw] applied to its own
    result changes nothing, and neither does [bw] applied to the result of
    [outline]: an image binarised at the threshold is a fixed point of the
    binarisation. *)
Theorem bw_idempotent (im : image rgb) (threshold : Z) :
  1 <= threshold <= 254 ->
  (exists im1,
     apply_mode im "bw" threshold = Ok im1 /\
     apply_mode im1 "bw" threshold = Ok im1) /\
  (exists im2,
     apply_mode im "outline" threshold = Ok im2 /\
     apply_mode im2 "bw" threshold = Ok im2).
Proof.
  intros Ht. split.
  - exists (bw threshold im). split; [apply apply_mode_bw|].
    rewrite apply_mode_bw. f_equal. unfold bw at 2.
    apply bw_of_binarized. exact Ht.
  - exists (outline threshold im). split; [apply apply_mode_outline|].
    rewrite apply_mode_bw. f_equal. unfold outline.
    apply bw_of_binarized. exact Ht.
Qed.

Lemma bw_idempotent_witness :
  apply_mode dot "bw" 180 = Ok dot /\ apply_mode dot "bw" 180 = Ok dot /\
  apply_mode dot "outline" 180 = Ok dot_negative /\
  apply_mode dot_negative "bw" 180 = Ok dot_negative.
Proof.
  destruct (bw_idempotent dot 180 ltac:(lia)) as [(im1 & H1 & H1') (im2 & H2 & H2')].
  assert (im1 = dot) as ->
    by (vm_compute in H1; injection H1 as <-; reflexivity).
  assert (im2 = dot_negative) as ->
    by (vm_compute in H2; injection H2 as <-; reflexivity).
  repeat split; assumption.
Defined.

(** C4 as stated fails for [outline]: the outline of the dot is its
    negative, and the outline of the negative is the dot again. *)
Lemma outline_not_idempotent :
  apply_mode dot "outline" 180 = Ok dot_negative /\
  apply_mode dot_negative "outline" 180 = Ok dot /\
  dot_negative <> dot.
Proof.
  split; [vm_compute; reflexivity|]. split; [vm_compute; reflexivity|].
  discriminate.
Qed.

(** ** The AirPrint lock *)

Lemma count_app f l p :
  count f (l ++ [p]) = (count f l + if f p then 1 else 0)%nat.
Proof.
  unfold count. rewrite filter_app, length_app. f_equal.
  cbn. unfold filter. cbn. destruct (decide (f p = true)) as [->|H]; cbn.
  - reflexivity.
  - destruct (f p); [congruence|reflexivity].
Qed.

Lemma count_cons f p l :
  count f (p :: l) = ((if f p then 1 else 0) + count f l)%nat.
Proof.
  unfold count. rewrite filter_cons.
  destruct (decide (f p = true)) as [->|H]; cbn; [reflexivity|].
  destruct (f p); [congruence|reflexivity].
Qed.

(** Replacing one handler moves the count by what the old and the new one
    contribute. *)
Lemma count_insert f (l : list pc) i p p' :
  l !! i = Some p ->
  (count f (<[i := p']> l) + (if f p then 1 else 0) =
   count f l + (if f p' then 1 else 0))%nat.
Proof.
  revert i. induction l as [|q l IH]; intros i Hi; [discriminate|].
  destruct i as [|i].
  - change (<[0%nat := p']> (q :: l)) with (p' :: l).
    inversion Hi; subst. rewrite !count_cons. lia.
  - change (<[S i := p']> (q :: l)) with (q :: <[i := p']> l).
    rewrite !count_cons. specialize (IH i Hi). lia.
Qed.

Lemma count_le f g (l : list pc) :
  (forall p, f p = true -> g p = true) -> (count f l <= count g l)%nat.
Proof.
  intros Hfg. induction l as [|p l IH]; [reflexivity|].
  rewrite !count_cons. specialize (Hfg p).
  destruct (f p), (g p); lia.
Qed.

Lemma exec_lock_inv s e : lock_inv s -> lock_inv (exec s e).
Proof.
  unfold lock_inv. intros Hinv. destruct e as [sig now| |i ok]; unfold exec.
  - cbn [sv_handlers sv_state]. rewrite count_app. cbn [holds_lock]. lia.
  - cbn [sv_handlers sv_state]. rewrite count_app. cbn [holds_lock]. lia.
  - destruct (sv_handlers s !! i) as [p|] eqn:Hi; [|exact Hinv].
    destruct (step_pc (sv_state s) p ok) as [st p'] eqn:Hstep.
    cbn [sv_handlers sv_state].
    pose proof (count_insert holds_lock _ _ _ p' Hi) as Hc.
    destruct (PP_AIRPRINT_LOCK (sv_state s)) eqn:Hl;
      destruct p; cbn [step_pc] in Hstep; try rewrite Hl in Hstep;
      repeat match type of Hstep with
             | context [if ?b then _ else _] => destruct b
             end;
      inversion Hstep; subst; cbn [holds_lock PP_AIRPRINT_LOCK] in *;
      try rewrite Hl; lia.
Qed.

Lemma run_lock_inv evs s : lock_inv s -> lock_inv (run evs s).
Proof.
  revert s. induction evs as [|e evs IH]; intros s Hs; [exact Hs|].
  cbn. apply IH. apply exec_lock_inv. exact Hs.
Qed.

Lemma initial_lock_inv : lock_inv initial.
Proof. reflexivity. Qed.

(** C9, as amended.  After any sequence of requests and handler steps, at
    most one helper call made by the status handler is in flight; and a
    status handler that reaches the lock while it is held goes straight to
    the end of the block: the shared state is unchanged, the helper is not
    called, nothing waits. *)
Theorem status_ensure_exclusive (evs : list event) :
  let s := run evs initial in
  (count status_in_flight (sv_handlers s) <= 1)%nat /\
  (forall i sig now ok,
     sv_handlers s !! i = Some (StatusAcquire sig now) ->
     PP_AIRPRINT_LOCK (sv_state s) = true ->
     exec s (Step i ok) =
     {| sv_state := sv_state s;
        sv_handlers := <[i := StatusDone]> (sv_handlers s);
        sv_ensure_calls := sv_ensure_calls s |}).
Proof.
  intros s. split.
  - pose proof (run_lock_inv evs initial initial_lock_inv) as Hinv.
    fold s in Hinv. unfold lock_inv in Hinv.
    etransitivity.
    + apply (count_le status_in_flight holds_lock).
      intros p. destruct p; cbn; congruence.
    + rewrite Hinv. destruct (PP_AIRPRINT_LOCK (sv_state s)); lia.
  - intros i sig now ok Hi Hlock. cbn. rewrite Hi. cbn. rewrite Hlock. reflexivity.
Qed.

Lemma status_ensure_exclusive_witness :
  let s := run status_and_forced initial in
  (count status_in_flight (sv_handlers s) <= 1)%nat /\
  sv_handlers s =
    [StatusEnsure "HP" (float_of_Z 5); StatusAcquire "HP" (float_of_Z 5);
     ForceEnsure] /\
  sv_handlers (exec s (Step 1 true)) =
    [StatusEnsure "HP" (float_of_Z 5); StatusDone; ForceEnsure] /\
  sv_ensure_calls (exec s (Step 1 true)) = sv_ensure_calls s.
Proof.
  intros s.
  destruct (status_ensure_exclusive status_and_forced) as [H1 H2].
  fold s in H1, H2. split; [exact H1|]. split; [reflexivity|].
  rewrite (H2 1%nat "HP" (float_of_Z 5) true); [|reflexivity|reflexivity].
  split; reflexivity.
Defined.

(** C9 as stated fails: of two status requests that are in the block
    together, both call the helper, the second after the first has
    released the lock. *)
Lemma two_status_requests_both_ensure :
  sv_handlers (run (firstn 8 two_status_requests) initial) =
    [StatusAcquire "HP" (float_of_Z 5); StatusAcquire "HP" (float_of_Z 5)] /\
  sv_handlers (run two_status_requests initial) =
    [StatusDone; StatusEnsure "HP" (float_of_Z 5)] /\
  sv_ensure_calls (run two_status_requests initial) = 2%nat.
Proof. vm_compute. repeat split. Qed.

(** Nor does the lock cover [api_airprint_ensure]: a forced ensure runs
    beside the one of the status handler. *)
Lemma forced_ensure_overlaps :
  count in_flight (sv_handlers (run status_and_forced initial)) = 2%nat.
Proof. vm_compute. reflexivity. Qed.

(** ** Configuration *)

Lemma merge_unfold dst src :
  merge dst src =
  map_fold
    (fun k v acc =>
       match acc !! k, v with
       | Some (VDict d), VDict _ => <[k := VDict (merge_into v d)]> acc
       | _, _ => <[k := v]> acc
       end)
    dst src.
Proof. reflexivity. Qed.

(** [merge] key by key; the order in which the source is gone through
    does not matter. *)
Lemma merge_lookup dst src k :
  merge dst src !! k =
  match src !! k with
  | None => dst !! k
  | Some v =>
      match dst !! k, v with
      | Some (VDict d), VDict s => Some (VDict (merge d s))
      | _, _ => Some v
      end
  end.
Proof.
  rewrite merge_unfold. revert k.
  apply (map_fold_weak_ind (fun r m => forall k,
    r !! k = match m !! k with
             | None => dst !! k
             | Some v =>
                 match dst !! k, v with
                 | Some (VDict d), VDict s => Some (VDict (merge d s))
                 | _, _ => Some v
                 end
             end)).
  - intros k. rewrite lookup_empty. reflexivity.
  - intros i x m r Hi IH k. destruct (decide (i = k)) as [->|Hne].
    + rewrite lookup_insert_eq. rewrite (IH k), Hi.
      destruct (dst !! k) as [[]|]; try apply lookup_insert_eq;
        destruct x; apply lookup_insert_eq.
    + rewrite (lookup_insert_ne m) by exact Hne. rewrite <- IH.
      destruct (r !! i) as [[]|]; try (apply lookup_insert_ne; exact Hne);
        destruct x; apply lookup_insert_ne; exact Hne.
Qed.

(** Over a flat dictionary whose keys the source has too, the source wins
    everywhere. *)
Lemma merge_flat d s :
  flat d -> (forall j, is_Some (d !! j) -> is_Some (s !! j)) -> merge d s = s.
Proof.
  intros Hflat Hdom. apply map_eq. intros j. rewrite merge_lookup.
  destruct (s !! j) as [y|] eqn:Hs.
  - destruct (d !! j) as [dv|] eqn:Hd; [|reflexivity].
    specialize (Hflat j dv Hd). cbn in Hflat.
    destruct dv; try reflexivity. discriminate.
  - destruct (d !! j) as [dv|] eqn:Hd; [|reflexivity].
    destruct (Hdom j) as [y Hy]; [eauto|]. congruence.
Qed.

Lemma merge_sections base v :
  (forall k bv, base !! k = Some bv ->
     exists bd s, bv = VDict bd /\ v !! k = Some (VDict s) /\ merge bd s = s) ->
  merge base v = v.
Proof.
  intros H. apply map_eq. intros k. rewrite merge_lookup.
  destruct (v !! k) as [x|] eqn:Hv.
  - destruct (base !! k) as [bv|] eqn:Hb; [|reflexivity].
    destruct (H k bv Hb) as (bd & s & -> & Hs & Hm).
    rewrite Hv in Hs. inversion Hs; subst. rewrite Hm. reflexivity.
  - destruct (base !! k) as [bv|] eqn:Hb; [|reflexivity].
    destruct (H k bv Hb) as (bd & s & _ & Hs & _). congruence.
Qed.

Lemma has_section m sec key P d :
  has m sec key P -> m !! sec = Some (VDict d) ->
  exists x, d !! key = Some x /\ P x.
Proof.
  intros (d' & x & Hd' & Hx & HP) Hd. rewrite Hd in Hd'. inversion Hd'; subst.
  eauto.
Qed.

Lemma validated_has m sec key P :
  validated m -> In (sec, key, P) schema -> has m sec key P.
Proof.
  intros Hv Hin. unfold validated in Hv. rewrite Forall_forall in Hv.
  apply list_elem_of_In in Hin. exact (Hv _ Hin).
Qed.

Ltac in_schema := cbn; repeat (first [left; reflexivity | right]).

Ltac lookup_cases H :=
  repeat (apply lookup_insert_Some in H; destruct H as [[<- <-]|[_ H]]);
  try (apply lookup_singleton_Some in H; destruct H as [<- <-]).

Lemma section_fixed v sec bd :
  validated v ->
  flat bd ->
  (exists k P, In (sec, k, P) schema) ->
  (forall j, is_Some (bd !! j) -> exists P, In (sec, j, P) schema) ->
  exists bd' s, VDict bd = VDict bd' /\ v !! sec = Some (VDict s) /\ merge bd' s = s.
Proof.
  intros Hv Hflat (k & P & Hin) Hkeys.
  destruct (validated_has v sec k P Hv Hin) as (s & x & Hs & _ & _).
  exists bd, s. split; [reflexivity|]. split; [exact Hs|].
  apply merge_flat; [exact Hflat|]. intros j Hj.
  destruct (Hkeys j Hj) as (P' & Hin').
  destruct (has_section v sec j P' s (validated_has v sec j P' Hv Hin') Hs)
    as (y & Hy & _).
  eauto.
Qed.

(** A validated configuration already holds everything the defaults bring. *)
Lemma merge_defaults_validated secret v :
  validated v -> merge (defaults secret) v = v.
Proof.
  intros Hv. apply merge_sections. intros k bv Hk. unfold defaults in Hk.
  lookup_cases Hk; apply section_fixed; try exact Hv.
  all: try (do 2 eexists; in_schema).
  all: try (intros j y Hy; lookup_cases Hy; reflexivity).
  all: intros j [y Hy]; lookup_cases Hy; eexists; in_schema.
Qed.

Lemma _as_int_ok v lo hi name iv :
  _as_int v lo hi name = Ok iv -> lo <= iv <= hi.
Proof.
  unfold _as_int. intros H.
  assert (forall n, (if (n <? lo) || (n >? hi)
                     then Raise (PrinterPalError
                            (name +:+ " must be between " +:+ str_of_Z lo +:+ " and "
                             +:+ str_of_Z hi))
                     else Ok n) = Ok iv -> lo <= iv <= hi) as Hr.
  { intros n Hn. destruct ((n <? lo) || (n >? hi)) eqn:E; [discriminate|].
    inversion Hn; subst. apply orb_false_iff in E. destruct E as [E1 E2].
    apply Z.ltb_ge in E1. rewrite Z.gtb_ltb in E2. apply Z.ltb_ge in E2. lia. }
  destruct v; try discriminate.
  - exact (Hr _ H).
  - destruct (int_of_float x); [exact (Hr _ H)|discriminate].
Qed.

Lemma _as_int_within n lo hi name :
  lo <= n <= hi -> _as_int (VInt n) lo hi name = Ok n.
Proof.
  intros Hn. unfold _as_int.
  replace ((n <? lo) || (n >? hi)) with false; [reflexivity|].
  symmetry. apply orb_false_iff. split; [apply Z.ltb_ge; lia|].
  rewrite Z.gtb_ltb. apply Z.ltb_ge. lia.
Qed.

Lemma field_dict m sec key x :
  field m sec key = Ok x ->
  exists d, m !! sec = Some (VDict d) /\ x = default VNone (d !! key).
Proof.
  unfold field, section, get. destruct (m !! sec) as [[]|]; try discriminate.
  intros H. inversion H. eauto.
Qed.

Lemma field_has m sec key x (P : value -> Prop) :
  field m sec key = Ok x -> x <> VNone -> P x -> has m sec key P.
Proof.
  intros H Hne HP. destruct (field_dict _ _ _ _ H) as (d & Hd & Hx).
  exists d, x. split; [exact Hd|]. split; [|exact HP].
  destruct (d !! key); cbn in Hx; congruence.
Qed.

Lemma has_field m sec key P :
  has m sec key P -> exists x, field m sec key = Ok x /\ P x.
Proof.
  intros (d & x & Hd & Hx & HP). exists x. split; [|exact HP].
  unfold field, section, get. rewrite Hd, Hx. reflexivity.
Qed.

Lemma int_field_ok sec key lo hi m w m' w' :
  int_field sec key lo hi m w = (Ok m', w') -> w' = w /\ upd m sec key lo hi m'.
Proof.
  unfold int_field. monad_unfold.
  destruct (field m sec key) as [x|] eqn:Hf; [|discriminate].
  destruct (_as_int x lo hi _) as [iv|] eqn:Hi; [|discriminate].
  destruct (field_dict _ _ _ _ Hf) as (d & Hd & _).
  unfold set_field, section. rewrite Hd. intros H. inversion H; subst.
  split; [reflexivity|]. exists d, iv. split; [exact Hd|].
  split; [eapply _as_int_ok; exact Hi|reflexivity].
Qed.

Lemma int_field_fixed sec key lo hi m w :
  has m sec key (int_within lo hi) -> int_field sec key lo hi m w = (Ok m, w).
Proof.
  intros (d & x & Hd & Hx & n & -> & Hn). unfold int_field. monad_unfold.
  unfold field, section, get, set_field, section. rewrite Hd, Hx.
  cbn [default from_option id]. rewrite _as_int_within by exact Hn.
  rewrite (insert_id d key (VInt n)) by exact Hx.
  rewrite (insert_id m sec (VDict d)) by exact Hd. reflexivity.
Qed.

Lemma bool_field_ok sec key msg m w w' :
  bool_field sec key msg m w = (Ok tt, w') -> has m sec key a_bool.
Proof.
  unfold bool_field. monad_unfold.
  destruct (field m sec key) as [x|] eqn:Hf; [|discriminate].
  destruct x; try discriminate. intros _.
  eapply field_has; [exact Hf|discriminate|]. eexists. reflexivity.
Qed.

Lemma bool_field_fixed sec key msg m w :
  has m sec key a_bool -> bool_field sec key msg m w = (Ok tt, w).
Proof.
  intros (d & x & Hd & Hx & b & ->). unfold bool_field. monad_unfold.
  unfold field, section, get. rewrite Hd, Hx. reflexivity.
Qed.

Lemma upd_has_same m sec key lo hi m' :
  upd m sec key lo hi m' -> has m' sec key (int_within lo hi).
Proof.
  intros (d & iv & Hd & Hiv & ->).
  exists (<[key := VInt iv]> d), (VInt iv).
  split; [apply lookup_insert_eq|]. split; [apply lookup_insert_eq|].
  exists iv. split; [reflexivity|exact Hiv].
Qed.

Lemma upd_has_other m sec key lo hi m' sec2 key2 P :
  upd m sec key lo hi m' -> (sec2, key2) <> (sec, key) ->
  has m sec2 key2 P -> has m' sec2 key2 P.
Proof.
  intros (d & iv & Hd & _ & ->) Hne (d2 & x & Hd2 & Hx & HP).
  destruct (decide (sec = sec2)) as [<-|Hs].
  - rewrite Hd in Hd2. inversion Hd2; subst d2.
    exists (<[key := VInt iv]> d), x. split; [apply lookup_insert_eq|].
    split; [|exact HP]. rewrite lookup_insert_ne; [exact Hx|]. congruence.
  - exists d2, x. split; [|split; assumption].
    rewrite lookup_insert_ne by exact Hs. exact Hd2.
Qed.

Lemma upd_keyed m sec key lo hi m' sec2 key2 :
  upd m sec key lo hi m' -> keyed m sec2 key2 -> keyed m' sec2 key2.
Proof.
  intros (d & iv & Hd & _ & ->) Hk d2 Hd2.
  destruct (decide (sec = sec2)) as [<-|Hs].
  - rewrite lookup_insert_eq in Hd2. inversion Hd2; subst d2.
    destruct (decide (key = key2)) as [<-|Hkey].
    + rewrite lookup_insert_eq. eauto.
    + rewrite lookup_insert_ne by exact Hkey. apply Hk. exact Hd.
  - rewrite lookup_insert_ne in Hd2 by exact Hs. apply Hk. exact Hd2.
Qed.

Lemma keyed_has m sec key key2 P :
  keyed m sec key -> has m sec key2 P -> has m sec key any_value.
Proof.
  intros Hk (d & x & Hd & _ & _). destruct (Hk d Hd) as [y Hy].
  exists d, y. split; [exact Hd|]. split; [exact Hy|exact I].
Qed.

(** Merging over the defaults loses none of their keys. *)
Lemma keyed_merge_defaults secret x sec key P :
  In (sec, key, P) schema -> keyed (merge (defaults secret) x) sec key.
Proof.
  intros Hin d Hd. rewrite merge_lookup in Hd.
  assert (exists bd y, defaults secret !! sec = Some (VDict bd) /\ bd !! key = Some y)
    as (bd & y & Hb & Hy).
  { cbn in Hin.
    repeat (destruct Hin as [Hin|Hin];
            [inversion Hin; subst; do 2 eexists; split; reflexivity|]).
    contradiction. }
  rewrite Hb in Hd.
  destruct (x !! sec) as [[]|]; inversion Hd; subst; try (rewrite Hy; eauto).
  rewrite merge_lookup. rewrite Hy.
  destruct (d0 !! key) as [z|]; [|eauto].
  destruct y; destruct z; eauto.
Qed.

Ltac back_through_upd :=
  first
    [ assumption
    | match goal with
      | H : upd _ ?sec ?key _ _ ?m' |- has ?m' ?sec ?key _ =>
          exact (upd_has_same _ _ _ _ _ _ H)
      | H : upd _ _ _ _ _ ?m' |- has ?m' _ _ _ =>
          apply (upd_has_other _ _ _ _ _ _ _ _ _ H);
          [intros [=]|back_through_upd]
      | H : upd _ _ _ _ _ ?m' |- keyed ?m' _ _ =>
          apply (upd_keyed _ _ _ _ _ _ _ _ H); back_through_upd
      | |- keyed (merge (defaults _) _) _ _ =>
          eapply keyed_merge_defaults; in_schema
      end ].

(** What [validate_config] returns is validated. *)
Lemma validate_config_validated cfg w v w1 :
  validate_config cfg w = (Ok v, w1) -> validated v.
Proof.
  unfold validate_config. intros H.
  apply bind_ok in H as (base & w0 & Hbase & H).
  assert (exists secret, base = defaults secret) as (secret & ->).
  { unfold _default_config in Hbase. monad_unfold. inversion Hbase. eauto. }
  repeat match type of H with
         | bind (int_field _ _ _ _ _) _ _ = _ =>
             let m := fresh "m" in let wi := fresh "wi" in
             let Hu := fresh "Hu" in
             apply bind_ok in H as (m & wi & Hu & H);
             apply int_field_ok in Hu as [-> Hu]
         | bind (lift (field _ _ _)) _ _ = _ =>
             let x := fresh "x" in let wi := fresh "wi" in
             let Hf := fresh "Hf" in
             apply bind_ok in H as (x & wi & Hf & H);
             unfold lift in Hf; inversion Hf; subst wi; clear Hf
         | bind (bool_field _ _ _ _) _ _ = _ =>
             let u := fresh "u" in let wi := fresh "wi" in
             let Hb := fresh "Hb" in
             apply bind_ok in H as (u & wi & Hb & H);
             destruct u; apply bool_field_ok in Hb
         | bind (match ?x with _ => _ end) _ _ = _ =>
             let u := fresh "u" in let wi := fresh "wi" in
             let Hc := fresh "Hc" in
             apply bind_ok in H as (u & wi & Hc & H)
         end.
  assert (v = m5) as ->.
  { destruct x1; cbn in H; inversion H; reflexivity. }
  assert (has m0 "app" "secret_key" a_secret) as Hsecret.
  { destruct x; try discriminate.
    destruct (String.length s <? 16)%nat eqn:E; [discriminate|].
    eapply field_has; [eassumption|discriminate|]. eexists. split; [reflexivity|exact E]. }
  assert (has m5 "printing" "default_mode" a_mode) as Hmode.
  { destruct x0; try discriminate.
    destruct (existsb (String.eqb s) MODES) eqn:E; [|discriminate].
    eapply field_has; [eassumption|discriminate|]. eexists. split; [reflexivity|exact E]. }
  assert (has m5 "security" "token" a_str) as Htoken.
  { destruct x1; try discriminate.
    eapply field_has; [eassumption|discriminate|]. eexists. reflexivity. }
  unfold validated, schema. repeat apply Forall_cons_2; try apply Forall_nil_2.
  all: try back_through_upd.
  - apply (keyed_has _ _ _ "port" (int_within 1 65535)); back_through_upd.
  - apply (keyed_has _ _ _ "preview_dpi" (int_within 72 600)); back_through_upd.
Qed.

Lemma bind_run {A B} (c : M A) (k : A -> M B) w a w1 :
  c w = (Ok a, w1) -> bind c k w = k a w1.
Proof. intros H. unfold bind. rewrite H. reflexivity. Qed.

(** A validated configuration goes through [validate_config] unchanged,
    whatever secret key the defaults draw. *)
Lemma validated_fixed v w :
  validated v -> fst (validate_config v w) = Ok v.
Proof.
  intros Hv. unfold validate_config.
  erewrite bind_run by reflexivity.
  rewrite merge_defaults_validated by exact Hv.
  assert (forall sec key P, In (sec, key, P) schema -> has v sec key P) as Hhas
    by (intros; apply validated_has; assumption).
  destruct (has_field v "app" "secret_key" a_secret) as (x & Hx & k & -> & Hk);
    [apply Hhas; in_schema|].
  destruct (has_field v "printing" "default_mode" a_mode) as (x0 & Hx0 & m & -> & Hm);
    [apply Hhas; in_schema|].
  destruct (has_field v "security" "token" a_str) as (x1 & Hx1 & t & ->);
    [apply Hhas; in_schema|].
  repeat first
    [ erewrite bind_run by (apply int_field_fixed; apply Hhas; in_schema)
    | erewrite bind_run by (apply bool_field_fixed; apply Hhas; in_schema)
    | erewrite bind_run by (unfold lift; rewrite Hx; reflexivity)
    | erewrite bind_run by (unfold lift; rewrite Hx0; reflexivity)
    | erewrite bind_run by (unfold lift; rewrite Hx1; reflexivity)
    | erewrite bind_run by (rewrite Hk; reflexivity)
    | erewrite bind_run by (rewrite Hm; reflexivity) ].
  reflexivity.
Qed.

(** ** Python's [==] on a value and itself *)

Lemma map_fold_andb (f : string -> value -> bool) (d : gmap string value) :
  map_fold (fun k v acc => acc && f k v) true d = true <->
  forall k v, d !! k = Some v -> f k v = true.
Proof.
  apply (map_fold_weak_ind (fun r m =>
    r = true <-> forall k v, m !! k = Some v -> f k v = true)).
  - split; [|reflexivity]. intros _ k v H. rewrite lookup_empty in H. discriminate.
  - intros i x m r Hi IH. rewrite andb_true_iff, IH. split.
    + intros [Hm Hx] k v Hk.
      destruct (decide (i = k)) as [->|Hne].
      * rewrite lookup_insert_eq in Hk. injection Hk as <-. exact Hx.
      * rewrite lookup_insert_ne in Hk by exact Hne. eapply Hm, Hk.
    + intros H. split.
      * intros k v Hk. apply H. rewrite lookup_insert_ne; [exact Hk|].
        intros ->. congruence.
      * apply H. apply lookup_insert_eq.
Qed.

Lemma value_size_lookup (d : gmap string value) k v :
  d !! k = Some v -> (value_size v < value_size (VDict d))%nat.
Proof.
  cbn [value_size]. intros H. apply Nat.lt_succ_r. revert k v H.
  apply (map_fold_weak_ind (fun r m =>
    forall k v, m !! k = Some v -> (value_size v <= r)%nat)).
  - intros k v H. rewrite lookup_empty in H. discriminate.
  - intros i x m r Hi IH k v Hk. cbv beta.
    destruct (decide (i = k)) as [->|Hne].
    + rewrite lookup_insert_eq in Hk. injection Hk as <-. apply Nat.le_add_r.
    + rewrite lookup_insert_ne in Hk by exact Hne.
      etransitivity; [exact (IH k v Hk)|]. apply Nat.le_add_l.
Qed.

Lemma value_size_In (l : list value) v :
  In v l -> (value_size v < value_size (VList l))%nat.
Proof.
  cbn [value_size]. intros H. apply Nat.lt_succ_r.
  induction l as [|x l IH]; [destruct H|].
  change (list_sum (map value_size (x :: l)))
    with (value_size x + list_sum (map value_size l))%nat.
  destruct H as [->|H]; [apply Nat.le_add_r|].
  etransitivity; [exact (IH H)|]. apply Nat.le_add_l.
Qed.

Lemma SFeqb_self (f : float) :
  SFeqb f f = match f with S754_nan => false | _ => true end.
Proof.
  unfold SFeqb, SFcompare. destruct f as [s|s| |s m e]; try (destruct s; reflexivity).
  - reflexivity.
  - destruct s; rewrite Z.compare_refl, Pos.compare_cont_refl; reflexivity.
Qed.

(** A value is equal to itself, in Python's sense, exactly when it holds
    no NaN. *)
Lemma py_eq_self (a : value) : py_eq a a = nan_free a.
Proof.
  remember (value_size a) as n eqn:Hn. revert a Hn.
  induction n as [n IH] using lt_wf_ind. intros a Hn.
  destruct a as [|b|z|f|s|l|d]; cbn [py_eq nan_free].
  - reflexivity.
  - apply Z.eqb_refl.
  - apply Z.eqb_refl.
  - rewrite SFeqb_self. destruct f; reflexivity.
  - apply String.eqb_refl.
  - assert (forall v, In v l -> py_eq v v = nan_free v) as Hl.
    { intros v Hv. eapply IH; [|reflexivity]. subst n. apply value_size_In, Hv. }
    clear IH Hn. induction l as [|x l IHl]; [reflexivity|].
    cbn [forallb]. rewrite (Hl x) by (left; reflexivity).
    f_equal. apply IHl. intros v Hv. apply Hl. right. exact Hv.
  - assert (forall k v, d !! k = Some v -> py_eq v v = nan_free v) as Hd.
    { intros k v Hv. eapply IH; [|reflexivity]. subst n.
      eapply value_size_lookup, Hv. }
    rewrite Nat.eqb_refl. cbn [andb].
    apply eq_true_iff_eq.
    rewrite (map_fold_andb
               (fun k v => match d !! k with Some v' => py_eq v v' | None => false end)).
    rewrite (map_fold_andb (fun _ v => nan_free v)).
    split; intros H k v Hk.
    + specialize (H k v Hk). rewrite Hk in H. rewrite <- (Hd k v Hk). exact H.
    + rewrite Hk. rewrite (Hd k v Hk). exact (H k v Hk).
Qed.

Section RoundTrip.

(** The JSON codec of [atomic_write_json] and [read_json]: all that is
    assumed of it is that loading what was dumped gives a value of the same
    shape back, a NaN where there was a NaN. *)
Context {text : Type}.
Variable dumps : gmap string value -> text.
Variable loads : text -> option (gmap string value).
Hypothesis loads_dumps : forall v, loads (dumps v) = Some v.

(** C8.  Let [v] be what [validate_config] returns for an input it
    accepts.  Dumping [v], loading it and validating it again succeeds, in
    whatever state the second validation runs (the secret key the defaults
    draw then is overwritten by the one [v] has), and returns a
    configuration [v2] with the keys and the values of [v]; when [v] holds
    no NaN, [v2 == v] holds. *)
Theorem validate_config_roundtrip (cfg : gmap string value) (w : world)
    (v : gmap string value) (w1 w2 : world) :
  validate_config cfg w = (Ok v, w1) ->
  exists v' v2,
    loads (dumps v) = Some v' /\
    fst (validate_config v' w2) = Ok v2 /\
    v2 = v /\
    (nan_free (VDict v) = true -> py_eq (VDict v2) (VDict v) = true).
Proof.
  intros H. exists v, v. split; [apply loads_dumps|]. split.
  - apply validated_fixed. eapply validate_config_validated. exact H.
  - split; [reflexivity|]. intros Hnan. rewrite py_eq_self. exact Hnan.
Qed.

End RoundTrip.

Lemma of_items_of v : of_items (items_of v) = Some v.
Proof. unfold of_items, items_of. rewrite list_to_map_to_list. reflexivity. Qed.

(** A run that passes a test on its result has a result. *)
Lemma run_check {A} (c : result A * world) (P : A -> bool) :
  match fst c with Ok a => P a | Raise _ => false end = true ->
  exists a, c = (Ok a, snd c) /\ P a = true.
Proof.
  destruct c as [[a|e] w]; cbn; [|discriminate].
  intros H. exists a. split; [reflexivity|exact H].
Qed.

Lemma validate_config_roundtrip_witness :
  exists v v2,
    fst (validate_config custom_config uploads) = Ok v /\
    field v "app" "port" = Ok (VInt 8080) /\
    fst (validate_config v uploads) = Ok v2 /\
    py_eq (VDict v2) (VDict v) = true.
Proof.
  destruct (run_check (validate_config custom_config uploads)
              (fun v => match field v "app" "port" with
                        | Ok (VInt n) => n =? 8080
                        | _ => false
                        end && nan_free (VDict v)))
    as (v & H & Hc); [vm_compute; reflexivity|].
  apply andb_true_iff in Hc as [Hport Hnan].
  destruct (validate_config_roundtrip items_of of_items of_items_of
              custom_config uploads v _ uploads H)
    as (v' & v2 & Hv' & Hfix & Heq & Hpy).
  rewrite of_items_of in Hv'. injection Hv' as <-.
  exists v, v2. split; [rewrite H; reflexivity|]. split.
  - destruct (field v "app" "port") as [[]|]; try discriminate Hport.
    apply Z.eqb_eq in Hport. rewrite Hport. reflexivity.
  - split; [exact Hfix|]. apply Hpy. exact Hnan.
Defined.

(** A NaN in a field that is not checked ([app.host]) is accepted, comes
    back from the text as a NaN, another object, and is accepted again; the
    two configurations have the same items and are not equal. *)
Lemma validate_config_roundtrip_nan :
  let x : gmap string value := {["app" := VDict {["host" := VFloat S754_nan]}]} in
  exists v v2,
    fst (validate_config x uploads) = Ok v /\
    field v "app" "host" = Ok (VFloat S754_nan) /\
    fst (validate_config v uploads) = Ok v2 /\
    v2 = v /\
    py_eq (VDict v2) (VDict v) = false.
Proof.
  cbv zeta.
  destruct (run_check
              (validate_config {["app" := VDict {["host" := VFloat S754_nan]}]} uploads)
              (fun v => match field v "app" "host" with
                        | Ok (VFloat S754_nan) => true
                        | _ => false
                        end && negb (nan_free (VDict v))))
    as (v & H & Hc); [vm_compute; reflexivity|].
  apply andb_true_iff in Hc as [Hhost Hnan].
  exists v, v. split; [rewrite H; reflexivity|]. split.
  - destruct (field v "app" "host") as [[| | |[]| | |]|]; try discriminate Hhost.
    reflexivity.
  - split.
    + apply validated_fixed. eapply validate_config_validated. exact H.
    + split; [reflexivity|]. rewrite py_eq_self.
      apply negb_true_iff. exact Hnan.
Qed.

(** ** Binary64 arithmetic *)

Lemma digits2_pos_bounds p :
  2 ^ (Z.pos (digits2_pos p) - 1) <= Z.pos p < 2 ^ Z.pos (digits2_pos p).
Proof.
  induction p as [p IH|p IH|]; cbn [digits2_pos].
  - rewrite Pos2Z.inj_succ.
    replace (Z.succ (Z.pos (digits2_pos p)) - 1)
      with (Z.succ (Z.pos (digits2_pos p) - 1)) by lia.
    rewrite !Z.pow_succ_r by lia. lia.
  - rewrite Pos2Z.inj_succ.
    replace (Z.succ (Z.pos (digits2_pos p)) - 1)
      with (Z.succ (Z.pos (digits2_pos p) - 1)) by lia.
    rewrite !Z.pow_succ_r by lia. lia.
  - cbn. lia.
Qed.

Lemma Zdigits2_nonneg m : 0 <= Zdigits2 m.
Proof. destruct m; cbn; lia. Qed.

Lemma Zdigits2_upper m : 0 <= m -> m < 2 ^ Zdigits2 m.
Proof.
  intros Hm. destruct m as [|p|p]; cbn [Zdigits2]; [cbn; lia| |lia].
  apply digits2_pos_bounds.
Qed.

(** The number of digits is the least exponent whose power exceeds the
    number. *)
Lemma Zdigits2_le m k : 0 <= m -> 0 <= k -> m < 2 ^ k -> Zdigits2 m <= k.
Proof.
  intros Hm Hk Hlt. destruct m as [|p|p]; cbn [Zdigits2]; [lia| |lia].
  pose proof (digits2_pos_bounds p) as [Hlo _].
  destruct (Z.le_gt_cases (Z.pos (digits2_pos p)) k) as [H|H]; [exact H|].
  assert (2 ^ k <= 2 ^ (Z.pos (digits2_pos p) - 1)) by (apply Z.pow_le_mono_r; lia).
  lia.
Qed.

Lemma Zdigits2_eq m k : 0 < k -> 2 ^ (k - 1) <= m < 2 ^ k -> Zdigits2 m = k.
Proof.
  intros Hk [Hlo Hhi].
  assert (0 < m) as Hm by (pose proof (Z.pow_pos_nonneg 2 (k - 1)); lia).
  apply Z.le_antisymm; [apply Zdigits2_le; lia|].
  destruct (Z.le_gt_cases k (Zdigits2 m)) as [H|H]; [exact H|].
  pose proof (Zdigits2_upper m ltac:(lia)) as Hu.
  pose proof (Zdigits2_nonneg m).
  assert (2 ^ Zdigits2 m <= 2 ^ (k - 1)) by (apply Z.pow_le_mono_r; lia).
  lia.
Qed.

(** [iter_pos] is iteration. *)
Lemma iter_pos_nat {A} (f : A -> A) p x :
  SpecFloat.iter_pos f p x = Nat.iter (Pos.to_nat p) f x.
Proof.
  revert x. induction p as [p IH|p IH|]; intros x; cbn [SpecFloat.iter_pos].
  - rewrite !IH. rewrite Pos2Nat.inj_xI. rewrite <- Nat.iter_add.
    replace (Pos.to_nat p + Pos.to_nat p)%nat with (2 * Pos.to_nat p)%nat by lia.
    symmetry. apply Nat.iter_succ_r.
  - rewrite !IH. rewrite Pos2Nat.inj_xO. rewrite <- Nat.iter_add.
    f_equal. lia.
  - reflexivity.
Qed.

Lemma shr_1_spec mrs :
  0 <= shr_m mrs ->
  shr_m (shr_1 mrs) = shr_m mrs / 2 /\
  sticky (shr_1 mrs) = Z.odd (shr_m mrs) || sticky mrs.
Proof.
  destruct mrs as [m r s]. unfold sticky. cbn [shr_m shr_r shr_s].
  intros Hm. destruct m as [|[p|p|]|p]; cbn [shr_1 shr_m shr_r shr_s]; try lia.
  - split; reflexivity.
  - split; [|reflexivity]. rewrite Pos2Z.pos_xI.
    apply (Z.div_unique _ 2 _ 1); lia.
  - split; [|reflexivity]. rewrite Pos2Z.pos_xO.
    apply (Z.div_unique _ 2 _ 0); lia.
  - split; reflexivity.
Qed.

(** Shifting right [n] times divides by [2 ^ n]; a bit that was shifted
    out is remembered. *)
Lemma shr_iter n mrs :
  0 <= shr_m mrs ->
  shr_m (Nat.iter n shr_1 mrs) = shr_m mrs / 2 ^ Z.of_nat n /\
  (sticky (Nat.iter n shr_1 mrs) = true ->
   sticky mrs = true \/ shr_m mrs mod 2 ^ Z.of_nat n <> 0).
Proof.
  intros Hm. induction n as [|n [IHm IHs]].
  - cbn. split; [rewrite Z.div_1_r; reflexivity|]. auto.
  - rewrite Nat.iter_succ.
    assert (0 <= shr_m (Nat.iter n shr_1 mrs)) as Hn
      by (rewrite IHm; apply Z.div_pos; [lia|apply Z.pow_pos_nonneg; lia]).
    destruct (shr_1_spec _ Hn) as [H1 H2].
    rewrite Nat2Z.inj_succ, Z.pow_succ_r by lia.
    assert (0 < 2 ^ Z.of_nat n) as Hp by (apply Z.pow_pos_nonneg; lia).
    split.
    + rewrite H1, IHm. rewrite Z.div_div by lia. f_equal. lia.
    + rewrite H2. intros Hs. apply orb_true_iff in Hs. destruct Hs as [Hodd|Hs].
      * right. intros Hmod. rewrite IHm in Hodd.
        apply Z.mod_divide in Hmod; [|lia]. destruct Hmod as [c Hc].
        rewrite Hc in Hodd.
        replace (c * (2 * 2 ^ Z.of_nat n)) with ((c * 2) * 2 ^ Z.of_nat n) in Hodd by lia.
        rewrite Z.div_mul in Hodd by lia.
        rewrite Z.odd_mul in Hodd. cbn in Hodd. rewrite andb_false_r in Hodd.
        discriminate.
      * destruct (IHs Hs) as [H|H]; [left; exact H|]. right. intros Hmod.
        apply H. apply Z.mod_divide in Hmod; [|lia]. destruct Hmod as [c Hc].
        apply Z.mod_divide; [lia|]. exists (c * 2). lia.
Qed.

Lemma shr_spec mrs e n :
  0 <= shr_m mrs ->
  let k := Z.max 0 n in
  shr_m (fst (shr mrs e n)) = shr_m mrs / 2 ^ k /\
  snd (shr mrs e n) = e + k /\
  (sticky (fst (shr mrs e n)) = true ->
   sticky mrs = true \/ shr_m mrs mod 2 ^ k <> 0).
Proof.
  intros Hm k. subst k. destruct n as [|p|p]; cbn [shr fst snd].
  - rewrite Z.max_l by lia. rewrite Z.div_1_r. split; [reflexivity|].
    split; [lia|auto].
  - rewrite Z.max_r by lia. rewrite iter_pos_nat.
    destruct (shr_iter (Pos.to_nat p) mrs Hm) as [H1 H2].
    rewrite positive_nat_Z in H1, H2. split; [exact H1|]. split; [reflexivity|exact H2].
  - rewrite Z.max_l by lia. rewrite Z.div_1_r. split; [reflexivity|].
    split; [lia|auto].
Qed.

Lemma round_nearest_even_bounds m l :
  m <= round_nearest_even m l <= m + 1.
Proof.
  destruct l as [|[]]; cbn; try lia. destruct (Z.even m); lia.
Qed.

Lemma loc_exact_of_not_sticky mrs :
  sticky mrs = false -> loc_of_shr_record mrs = loc_Exact.
Proof.
  destruct mrs as [m [] []]; cbn; try discriminate. reflexivity.
Qed.

Lemma shr_m_of_loc m l : shr_m (shr_record_of_loc m l) = m.
Proof. destruct l as [|[]]; reflexivity. Qed.

Lemma fexp_eq e : fexp prec emax e = Z.max (e - 53) (-1074).
Proof. reflexivity. Qed.

Lemma div_pow2_le a j k : 0 <= a -> 0 <= j <= k -> a / 2 ^ k <= a / 2 ^ j.
Proof.
  intros Ha Hjk. apply Z.div_le_compat_l; [exact Ha|].
  split; [apply Z.pow_pos_nonneg; lia|apply Z.pow_le_mono_r; lia].
Qed.

Lemma div_pow2_self a k : 0 <= a -> 0 <= k -> a / 2 ^ k <= a.
Proof.
  intros Ha Hk. pose proof (div_pow2_le a 0 k Ha ltac:(lia)) as H.
  rewrite Z.pow_0_r, Z.div_1_r in H. exact H.
Qed.

(** What [binary_round_aux] computes from a non-negative mantissa: the
    mantissa is cut to the exponent [e1] of its binade and rounded to [m2],
    one more cut by [k2] repairs a carry, and what is left has at most
    [prec] digits. *)
Lemma binary_round_aux_spec sx mx ex lx :
  0 <= mx ->
  exists e1 m2 k2,
    e1 = Z.max ex (fexp prec emax (Zdigits2 mx + ex)) /\
    mx / 2 ^ (e1 - ex) <= m2 <= mx / 2 ^ (e1 - ex) + 1 /\
    (lx = loc_Exact -> mx mod 2 ^ (e1 - ex) = 0 -> m2 = mx / 2 ^ (e1 - ex)) /\
    k2 = Z.max 0 (fexp prec emax (Zdigits2 m2 + e1) - e1) /\
    0 <= m2 / 2 ^ k2 < 2 ^ prec /\
    binary_round_aux prec emax sx mx ex lx =
    match m2 / 2 ^ k2 with
    | Z0 => S754_zero sx
    | Zpos m =>
        if e1 + k2 <=? emax - prec then S754_finite sx m (e1 + k2)
        else S754_infinity sx
    | Zneg _ => S754_nan
    end.
Proof.
  intros Hmx. unfold binary_round_aux, shr_fexp.
  set (n1 := fexp prec emax (Zdigits2 mx + ex) - ex).
  pose proof (shr_spec (shr_record_of_loc mx lx) ex n1) as H1.
  rewrite shr_m_of_loc in H1. specialize (H1 Hmx). cbv zeta in H1.
  destruct (shr (shr_record_of_loc mx lx) ex n1) as [mrs1 e1] eqn:E1.
  cbn [fst snd] in H1. destruct H1 as (Hm1 & He1 & Hs1).
  set (m2 := round_nearest_even (shr_m mrs1) (loc_of_shr_record mrs1)).
  set (n2 := fexp prec emax (Zdigits2 m2 + e1) - e1).
  assert (0 <= shr_m mrs1) as Hm1pos
    by (rewrite Hm1; apply Z.div_pos; [lia|apply Z.pow_pos_nonneg; lia]).
  pose proof (round_nearest_even_bounds (shr_m mrs1) (loc_of_shr_record mrs1)) as Hm2.
  fold m2 in Hm2.
  pose proof (shr_spec (shr_record_of_loc m2 loc_Exact) e1 n2) as H2.
  rewrite shr_m_of_loc in H2. specialize (H2 ltac:(lia)). cbv zeta in H2.
  destruct (shr (shr_record_of_loc m2 loc_Exact) e1 n2) as [mrs2 e2] eqn:E2.
  cbn [fst snd] in H2. destruct H2 as (Hm2' & He2 & _).
  assert (e1 - ex = Z.max 0 n1) as Hk1 by lia.
  exists e1, m2, (Z.max 0 n2).
  split; [subst n1; lia|]. rewrite Hk1, <- Hm1.
  split; [exact Hm2|].
  split.
  { intros -> Hmod. subst m2. rewrite loc_exact_of_not_sticky; [reflexivity|].
    destruct (sticky mrs1) eqn:Hst; [|reflexivity].
    destruct (Hs1 eq_refl) as [H|H]; [discriminate H|contradiction]. }
  split; [reflexivity|].
  assert (shr_m mrs1 < 2 ^ prec) as Hm1lt.
  { rewrite Hm1. pose proof (Zdigits2_upper mx Hmx) as Hd.
    pose proof (Zdigits2_nonneg mx) as Hd0.
    change (2 ^ prec) with 9007199254740992.
    destruct (Z.lt_ge_cases mx 9007199254740992) as [Hs|Hl].
    - pose proof (div_pow2_self mx (Z.max 0 n1) Hmx ltac:(lia)). lia.
    - assert (53 < Zdigits2 mx) as Hd53.
      { destruct (Z.lt_ge_cases 53 (Zdigits2 mx)) as [H|H]; [exact H|].
        assert (2 ^ Zdigits2 mx <= 2 ^ 53) by (apply Z.pow_le_mono_r; lia).
        change (2 ^ 53) with 9007199254740992 in *. lia. }
      assert (Zdigits2 mx - 53 <= Z.max 0 n1) as Hn
        by (subst n1; rewrite fexp_eq; lia).
      pose proof (div_pow2_le mx (Zdigits2 mx - 53) (Z.max 0 n1) Hmx ltac:(lia)) as Hle.
      assert (mx / 2 ^ (Zdigits2 mx - 53) < 9007199254740992); [|lia].
      apply Z.div_lt_upper_bound; [apply Z.pow_pos_nonneg; lia|].
      change 9007199254740992 with (2 ^ 53). rewrite <- Z.pow_add_r by lia.
      replace (Zdigits2 mx - 53 + 53) with (Zdigits2 mx) by lia. exact Hd. }
  assert (0 <= m2 / 2 ^ Z.max 0 n2 < 2 ^ prec) as Hfinal.
  { split; [apply Z.div_pos; [lia|apply Z.pow_pos_nonneg; lia]|].
    change (2 ^ prec) with 9007199254740992 in *.
    destruct (Z.lt_ge_cases m2 9007199254740992) as [Hs|Hl].
    - pose proof (div_pow2_self m2 (Z.max 0 n2) ltac:(lia) ltac:(lia)). lia.
    - assert (m2 = 2 ^ 53) as Hm2eq
        by (change (2 ^ 53) with 9007199254740992; lia).
      assert (Zdigits2 m2 = 54) as Hd
        by (apply Zdigits2_eq; [lia|rewrite Hm2eq; cbn; lia]).
      assert (1 <= Z.max 0 n2) as Hn by (subst n2; rewrite fexp_eq, Hd; lia).
      pose proof (div_pow2_le m2 1 (Z.max 0 n2) ltac:(lia) ltac:(lia)) as Hle.
      rewrite Hm2eq in Hle at 2. change (2 ^ 53 / 2 ^ 1) with 4503599627370496 in Hle.
      lia. }
  split; [exact Hfinal|].
  rewrite Hm2', He2. reflexivity.
Qed.

Lemma shl_align_spec mx ex ex' :
  let '(mz, ez) := shl_align mx ex ex' in
  ez = Z.min ex ex' /\ Z.pos mz = Z.pos mx * 2 ^ (ex - ez).
Proof.
  unfold shl_align. destruct (ex' - ex) as [|d|d] eqn:Hd.
  - split; [lia|]. replace (ex - ex) with 0 by lia. lia.
  - split; [lia|]. replace (ex - ex) with 0 by lia. lia.
  - split; [lia|]. change (Pos.iter xO mx d) with (shift_pos d mx).
    rewrite shift_pos_correct, Z.pow_pos_fold.
    replace (ex - ex') with (Z.pos d) by lia. lia.
Qed.

(** [float(n)] is exact below [2 ^ 53]: a mantissa of 53 digits and the
    exponent that goes with it. *)
Lemma float_of_Z_spec n :
  1 <= n < 2 ^ 53 ->
  exists m e,
    float_of_Z n = S754_finite false m e /\
    -52 <= e <= 0 /\ Z.pos m = n * 2 ^ (- e) /\ 2 ^ 52 <= Z.pos m < 2 ^ 53.
Proof.
  intros Hn. destruct n as [|p|p]; try lia.
  unfold float_of_Z, binary_normalize, binary_round.
  set (d := Z.pos (digits2_pos p)).
  pose proof (digits2_pos_bounds p) as Hd. fold d in Hd.
  assert (1 <= d <= 53) as Hd53.
  { split; [subst d; lia|]. apply (Zdigits2_le (Z.pos p) 53); lia. }
  pose proof (shl_align_spec p 0 (fexp prec emax (d + 0))) as Ha.
  destruct (shl_align p 0 (fexp prec emax (d + 0))) as [mz ez].
  rewrite fexp_eq in Ha. destruct Ha as [Hez Hmz].
  assert (ez = d - 53) as -> by lia.
  replace (0 - (d - 53)) with (53 - d) in Hmz by lia.
  assert (2 ^ 52 <= Z.pos mz < 2 ^ 53) as Hrange.
  { assert (2 ^ 52 = 2 ^ (d - 1) * 2 ^ (53 - d)) as ->
      by (rewrite <- Z.pow_add_r by lia; f_equal; lia).
    assert (2 ^ 53 = 2 ^ d * 2 ^ (53 - d)) as ->
      by (rewrite <- Z.pow_add_r by lia; f_equal; lia).
    assert (0 < 2 ^ (53 - d)) by (apply Z.pow_pos_nonneg; lia).
    rewrite Hmz. nia. }
  destruct (binary_round_aux_spec false (Z.pos mz) (d - 53) loc_Exact ltac:(lia))
    as (e1 & m2 & k2 & He1 & Hm2 & Hex & Hk2 & _ & ->).
  assert (Zdigits2 (Z.pos mz) = 53) as Hdz by (apply Zdigits2_eq; [lia|exact Hrange]).
  rewrite Hdz, fexp_eq in He1.
  assert (e1 = d - 53) as -> by lia.
  replace (d - 53 - (d - 53)) with 0 in * by lia.
  rewrite Z.pow_0_r, Z.div_1_r in *.
  assert (m2 = Z.pos mz) as -> by (apply Hex; [reflexivity|apply Z.mod_1_r]).
  rewrite Hdz, fexp_eq in Hk2. assert (k2 = 0) as -> by lia.
  rewrite Z.pow_0_r, Z.div_1_r.
  replace (d - 53 + 0 <=? emax - prec) with true
    by (symmetry; apply Z.leb_le; unfold emax, prec; lia).
  exists mz, (d - 53 + 0). split; [reflexivity|].
  split; [lia|]. split; [|exact Hrange].
  rewrite Hmz. f_equal. f_equal. lia.
Qed.

Lemma fdiv_good a b :
  1 <= a < 2 ^ 53 -> 1 <= b < 2 ^ 53 -> good (fdiv (float_of_Z a) (float_of_Z b)).
Proof.
  intros Ha Hb.
  destruct (float_of_Z_spec a Ha) as (ma & ea & -> & _).
  destruct (float_of_Z_spec b Hb) as (mb & eb & -> & _).
  unfold fdiv, SFdiv.
  destruct (SFdiv_core_binary prec emax (Z.pos ma) ea (Z.pos mb) eb)
    as [[mz ez] lz] eqn:Hcore.
  assert (0 <= mz) as Hmz.
  { unfold SFdiv_core_binary in Hcore.
    match type of Hcore with
    | context [Z.div_eucl ?n ?d] =>
        assert (0 <= n) as Hnum
          by (destruct (_ - _ - _); [lia|apply Z.shiftl_nonneg; lia|lia]);
        pose proof (Z.div_pos n d Hnum ltac:(lia)) as Hq;
        unfold Z.div in Hq; destruct (Z.div_eucl n d) as [q r]
    end.
    inversion Hcore; subst. exact Hq. }
  destruct (binary_round_aux_spec (xorb false false) mz ez lz Hmz)
    as (e1 & m2 & k2 & _ & _ & _ & _ & Hb2 & ->).
  destruct (m2 / 2 ^ k2) as [|m|m]; cbn; [exact I| |lia].
  destruct (e1 + k2 <=? emax - prec); cbn; [|reflexivity].
  split; [reflexivity|lia].
Qed.

Lemma shiftl_cut a k e :
  0 <= a -> 0 <= k -> e <= 0 -> Z.shiftl (a / 2 ^ k) (e + k) <= a / 2 ^ (- e).
Proof.
  intros Ha Hk He.
  assert (0 < 2 ^ (- e)) as Hv by (apply Z.pow_pos_nonneg; lia).
  destruct (Z.le_gt_cases (e + k) 0) as [Hle|Hgt].
  - rewrite Z.shiftl_div_pow2 by lia.
    rewrite Z.div_div; [|apply Z.pow_nonzero; lia|apply Z.pow_pos_nonneg; lia].
    rewrite <- Z.pow_add_r by lia. replace (k + - (e + k)) with (- e) by lia. lia.
  - rewrite Z.shiftl_mul_pow2 by lia.
    assert (0 < 2 ^ (e + k)) as Hu by (apply Z.pow_pos_nonneg; lia).
    replace k with ((- e) + (e + k)) at 1 by lia.
    rewrite Z.pow_add_r by lia.
    rewrite <- Z.div_div by lia.
    pose proof (Z.mul_div_le (a / 2 ^ (- e)) (2 ^ (e + k)) Hu). lia.
Qed.

(** The heart of "never upscaling": a float that stands for [n], times a
    float that is at most one, truncates to at most [n]. *)
Lemma fmul_le_one n mq qe :
  1 <= n < 2 ^ 53 -> qe <= 0 -> Z.pos mq <= 2 ^ (- qe) ->
  exists k,
    trunc (fmul (float_of_Z n) (S754_finite false mq qe)) = Some k /\ 0 <= k <= n.
Proof.
  intros Hn Heq Hmq.
  destruct (float_of_Z_spec n Hn) as (mx & ex & -> & Hex & Hmx & Hrange).
  unfold fmul, SFmul.
  destruct (binary_round_aux_spec (xorb false false) (Z.pos (mx * mq)) (ex + qe)
              loc_Exact ltac:(lia))
    as (e1 & m2 & k2 & He1 & Hm2 & Hexact & Hk2 & Hfin & ->).
  set (M := Z.pos (mx * mq)) in *. set (E := ex + qe) in *.
  assert (0 < 2 ^ (- qe)) as Hpq by (apply Z.pow_pos_nonneg; lia).
  assert (0 < 2 ^ (- ex)) as Hpx by (apply Z.pow_pos_nonneg; lia).
  assert (M <= Z.pos mx * 2 ^ (- qe)) as HM by (subst M; rewrite Pos2Z.inj_mul; nia).
  assert (e1 <= ex) as He1x.
  { assert (Zdigits2 M <= 53 - qe).
    { apply Zdigits2_le; [subst M; lia|lia|].
      replace (53 - qe) with (53 + - qe) by lia.
      rewrite Z.pow_add_r by lia. nia. }
    rewrite fexp_eq in He1. subst E. lia. }
  set (D := 2 ^ (e1 - E)) in *.
  assert (0 < D) as HD by (apply Z.pow_pos_nonneg; subst E; lia).
  set (W := n * 2 ^ (- e1)).
  assert (W * D = Z.pos mx * 2 ^ (- qe)) as HWD.
  { subst W D E. rewrite Hmx. rewrite <- !Z.mul_assoc, <- !Z.pow_add_r by lia.
    f_equal. f_equal. lia. }
  assert (m2 <= W) as Hm2W.
  { destruct (Z.eq_dec (M mod D) 0) as [Hz|Hnz].
    - rewrite (Hexact eq_refl Hz). apply Z.div_le_upper_bound; [exact HD|]. lia.
    - assert (M <> W * D) as Hne.
      { intros Heq'. apply Hnz. rewrite Heq'. apply Z.mod_mul. lia. }
      assert (M / D < W) by (apply Z.div_lt_upper_bound; [exact HD|lia]). lia. }
  assert (0 <= m2) as Hm2pos.
  { assert (0 <= M / D) by (apply Z.div_pos; [subst M; lia|exact HD]). lia. }
  assert (0 <= k2) as Hk2pos by lia.
  assert (0 < 2 ^ (- e1)) as Hpe by (apply Z.pow_pos_nonneg; lia).
  destruct (m2 / 2 ^ k2) as [|m|m] eqn:Hres; [exists 0; cbn; split; [reflexivity|lia]| |lia].
  destruct (Z.leb_spec (e1 + k2) (emax - prec)) as [Hfinite|Hover].
  - exists (Z.shiftl (Z.pos m) (e1 + k2)). split; [reflexivity|].
    split; [apply Z.shiftl_nonneg; lia|].
    rewrite <- Hres.
    etransitivity; [apply shiftl_cut; lia|].
    etransitivity; [apply Z.div_le_mono; [exact Hpe|exact Hm2W]|].
    subst W. rewrite Z.div_mul by lia. lia.
  - exfalso. unfold emax, prec in Hover.
    assert (2 ^ k2 <= m2) as Hlow.
    { assert (0 < 2 ^ k2) by (apply Z.pow_pos_nonneg; lia).
      pose proof (Z.mul_div_le m2 (2 ^ k2) ltac:(lia)). rewrite Hres in *. nia. }
    assert (m2 < 2 ^ (53 - e1)) as Hup.
    { replace (53 - e1) with (53 + - e1) by lia.
      rewrite Z.pow_add_r by lia. subst W. nia. }
    assert (k2 < 53 - e1); [|lia].
    apply (Z.pow_lt_mono_r_iff 2); lia.
Qed.

Lemma float_of_Z_1 : float_of_Z 1 = S754_finite false 4503599627370496 (-52).
Proof. vm_compute. reflexivity. Qed.
Lemma below_one q :
  good q -> flt q (float_of_Z 1) = true ->
  (exists s, q = S754_zero s) \/
  (exists mq qe, q = S754_finite false mq qe /\ qe <= 0 /\ Z.pos mq <= 2 ^ (- qe)).
Proof.
  intros Hg Hlt. rewrite float_of_Z_1 in Hlt. unfold flt, SFltb in Hlt.
  destruct q as [s|s| |s mq qe].
  - left. eauto.
  - cbn [good] in Hg. subst s. discriminate.
  - discriminate.
  - cbn [good] in Hg. destruct Hg as [-> Hm]. right. exists mq, qe.
    split; [reflexivity|].
    cbn [SFcompare] in Hlt.
    assert (Z.pos mq < 9007199254740992) as Hm' by exact Hm. clear Hm.
    destruct (Z.compare_spec qe (-52)) as [Hqe|Hlo|Hhi]; [| |discriminate].
    + split; [lia|]. rewrite Hqe.
      destruct (Pos.compare_cont Eq mq 4503599627370496) eqn:Hc; try discriminate.
      pose proof (proj1 (Pos.compare_lt_iff mq 4503599627370496)) as Hiff.
      unfold Pos.compare in Hiff. apply Hiff in Hc.
      replace (2 ^ (- -52)) with 4503599627370496 by (vm_compute; reflexivity).
      (apply Z.lt_le_incl; exact (Pos2Z.pos_lt_pos _ _ Hc)).
    + split; [lia|].
      assert (2 ^ 53 <= 2 ^ (- qe)) by (apply Z.pow_le_mono_r; lia).
      change (2 ^ 53) with 9007199254740992 in *. lia.
Qed.

Lemma trunc_int_of_float x k : trunc x = Some k -> int_of_float x = Ok k.
Proof.
  destruct x; cbn [trunc int_of_float]; try discriminate;
    intros H; inversion H; reflexivity.
Qed.

(** Neither dimension of the preview exceeds that of the source. *)
Lemma scaled_preview width w0 n :
  1 <= width < 2 ^ 53 -> 1 <= w0 < 2 ^ 53 -> 1 <= n < 2 ^ 53 ->
  exists k, scaled n (preview_scale width w0) = Ok k /\ 1 <= k <= n.
Proof.
  intros Hwidth Hw0 Hn.
  assert (exists k, trunc (fmul (float_of_Z n) (preview_scale width w0)) = Some k
                    /\ 0 <= k <= n) as (k & Hk & Hkn).
  { unfold preview_scale, py_min.
    destruct (flt _ (float_of_Z 1)) eqn:Hlt.
    - destruct (below_one _ (fdiv_good width w0 Hwidth Hw0) Hlt)
        as [[s ->]|(mq & qe & -> & Hqe & Hmq)].
      + destruct (float_of_Z_spec n Hn) as (mx & ex & -> & _).
        exists 0. split; [reflexivity|lia].
      + apply fmul_le_one; assumption.
    - rewrite float_of_Z_1. apply fmul_le_one; [exact Hn|lia|].
      replace (2 ^ (- -52)) with 4503599627370496 by (vm_compute; reflexivity). lia. }
  exists (Z.max 1 k). unfold scaled. rewrite (trunc_int_of_float _ _ Hk).
  split; [reflexivity|lia].
Qed.

Lemma pow2_52 : 2 ^ 52 = 4503599627370496.
Proof. vm_compute. reflexivity. Qed.

(** Multiplying by [1.0] changes nothing. *)
Lemma fmul_one n :
  1 <= n < 2 ^ 53 -> fmul (float_of_Z n) (float_of_Z 1) = float_of_Z n.
Proof.
  intros Hn. rewrite float_of_Z_1.
  destruct (float_of_Z_spec n Hn) as (mx & ex & -> & Hex & Hmx & Hrange).
  unfold fmul, SFmul.
  destruct (binary_round_aux_spec (xorb false false)
              (Z.pos (mx * 4503599627370496)) (ex + -52) loc_Exact ltac:(lia))
    as (e1 & m2 & k2 & He1 & Hm2 & Hexact & Hk2 & Hfin & ->).
  assert (Z.pos (mx * 4503599627370496) = Z.pos mx * 2 ^ 52) as HM
    by (rewrite Pos2Z.inj_mul, pow2_52; reflexivity).
  rewrite HM in *. clear HM.
  assert (0 < 2 ^ 52) as Hp by (apply Z.pow_pos_nonneg; lia).
  assert (Zdigits2 (Z.pos mx * 2 ^ 52) = 105) as Hd.
  { apply Zdigits2_eq; [lia|].
    replace (105 - 1) with (52 + 52) by lia.
    replace 105 with (53 + 52) by lia.
    rewrite !Z.pow_add_r by lia. nia. }
  rewrite Hd, fexp_eq in He1. assert (e1 = ex) as -> by lia.
  replace (ex - (ex + -52)) with 52 in * by lia.
  assert (m2 = Z.pos mx) as ->.
  { rewrite (Hexact eq_refl) by (apply Z.mod_mul; lia).
    apply Z.div_mul. lia. }
  assert (Zdigits2 (Z.pos mx) = 53) as Hdx
    by (apply Zdigits2_eq; [lia|exact Hrange]).
  rewrite Hdx, fexp_eq in Hk2. assert (k2 = 0) as -> by lia.
  rewrite Z.pow_0_r, Z.div_1_r, Z.add_0_r.
  replace (ex <=? emax - prec) with true
    by (symmetry; apply Z.leb_le; unfold emax, prec; lia).
  reflexivity.
Qed.

Lemma trunc_float_of_Z n : 1 <= n < 2 ^ 53 -> trunc (float_of_Z n) = Some n.
Proof.
  intros Hn.
  destruct (float_of_Z_spec n Hn) as (mx & ex & -> & Hex & Hmx & Hrange).
  cbn [trunc]. f_equal. rewrite Z.shiftl_div_pow2 by lia.
  rewrite Hmx. apply Z.div_mul.
  assert (0 < 2 ^ (- ex)) by (apply Z.pow_pos_nonneg; lia). lia.
Qed.

(** A quotient of [a] by [b <= a] is not below [1.0]. *)
Lemma fdiv_ge_one a b :
  1 <= b -> b <= a -> a < 2 ^ 53 ->
  flt (fdiv (float_of_Z a) (float_of_Z b)) (float_of_Z 1) = false.
Proof.
  intros Hb Hba Ha. rewrite float_of_Z_1.
  destruct (float_of_Z_spec a ltac:(lia)) as (ma & ea & -> & Hea & Hma & Hra).
  destruct (float_of_Z_spec b ltac:(lia)) as (mb & eb & -> & Heb & Hmb & Hrb).
  assert (0 < 2 ^ 52) as Hp52 by (apply Z.pow_pos_nonneg; lia).
  assert (2 ^ 53 = 2 * 2 ^ 52) as Hp53
    by (replace 53 with (1 + 52) by lia; rewrite Z.pow_add_r by lia; reflexivity).
  assert (2 ^ 54 = 4 * 2 ^ 52) as Hp54
    by (replace 54 with (2 + 52) by lia; rewrite Z.pow_add_r by lia; reflexivity).
  assert (eb <= ea /\ (ea = eb -> Z.pos mb <= Z.pos ma)) as [Hee Hmm].
  { assert (0 < 2 ^ (- ea)) by (apply Z.pow_pos_nonneg; lia).
    destruct (Z.lt_ge_cases ea eb) as [Hlt|Hge].
    - exfalso.
      assert (2 ^ (- ea) = 2 ^ (- eb) * 2 ^ (eb - ea)) as Hsplit
        by (rewrite <- Z.pow_add_r by lia; f_equal; lia).
      assert (2 <= 2 ^ (eb - ea)) as H2
        by (change 2 with (2 ^ 1) at 1; apply Z.pow_le_mono_r; lia).
      assert (0 < 2 ^ (- eb)) by (apply Z.pow_pos_nonneg; lia).
      assert (Z.pos mb * 2 ^ (eb - ea) <= Z.pos ma) by (rewrite Hma, Hmb, Hsplit; nia).
      nia.
    - split; [lia|]. intros ->. rewrite Hma, Hmb. nia. }
  unfold fdiv, SFdiv, SFdiv_core_binary.
  rewrite (Zdigits2_eq (Z.pos ma) 53) by (lia || exact Hra).
  rewrite (Zdigits2_eq (Z.pos mb) 53) by (lia || exact Hrb).
  rewrite fexp_eq.
  replace (Z.min (Z.max (53 + ea - (53 + eb) - 53) (-1074)) (ea - eb))
    with (ea - eb - 53) by lia.
  replace (ea - eb - (ea - eb - 53)) with 53 by lia.
  rewrite Z.shiftl_mul_pow2 by lia.
  set (N := Z.pos ma * 2 ^ 53).
  pose proof (Z.div_eucl_eq N (Z.pos mb) ltac:(lia)) as Hdiv.
  pose proof (Z.mod_pos_bound N (Z.pos mb) ltac:(lia)) as Hmod.
  unfold Z.modulo in Hmod.
  destruct (Z.div_eucl N (Z.pos mb)) as [q r].
  assert (2 ^ 52 <= q < 2 ^ 54) as Hq by (subst N; nia).
  assert (ea = eb -> 2 ^ 53 <= q) as Hq' by (intros He; specialize (Hmm He); subst N; nia).
  destruct (binary_round_aux_spec (xorb false false) q (ea - eb - 53)
              (new_location (Z.pos mb) r) ltac:(lia))
    as (e1 & m2 & k2 & He1 & Hm2 & _ & Hk2 & Hfin & ->).
  rewrite fexp_eq in He1, Hk2.
  assert (2 ^ 52 <= m2 <= 2 ^ 53 /\ -52 <= e1) as [Hm2r He1r].
  { destruct (Z.lt_ge_cases q (2 ^ 53)) as [Hs|Hl].
    - assert (Zdigits2 q = 53) as Hd by (apply Zdigits2_eq; lia).
      rewrite Hd in He1. assert (ea <> eb) by (intros He; specialize (Hq' He); lia).
      assert (e1 = ea - eb - 53) as -> by lia.
      replace (ea - eb - 53 - (ea - eb - 53)) with 0 in Hm2 by lia.
      rewrite Z.pow_0_r, Z.div_1_r in Hm2. lia.
    - assert (Zdigits2 q = 54) as Hd by (apply Zdigits2_eq; lia).
      rewrite Hd in He1.
      assert (e1 = ea - eb - 52) as -> by lia.
      replace (ea - eb - 52 - (ea - eb - 53)) with 1 in Hm2 by lia.
      rewrite Z.pow_1_r in Hm2.
      pose proof (Z.div_mod q 2 ltac:(lia)) as Hq2.
      pose proof (Z.mod_pos_bound q 2 ltac:(lia)). lia. }
  assert (0 <= k2 /\ 2 ^ 52 <= m2 / 2 ^ k2) as [Hk2r Hmf].
  { destruct (Z.lt_ge_cases m2 (2 ^ 53)) as [Hs|Hl].
    - assert (Zdigits2 m2 = 53) as Hd by (apply Zdigits2_eq; lia).
      rewrite Hd in Hk2. assert (k2 = 0) as -> by lia.
      rewrite Z.pow_0_r, Z.div_1_r. lia.
    - assert (m2 = 2 ^ 53) as -> by lia.
      assert (Zdigits2 (2 ^ 53) = 54) as Hd by (apply Zdigits2_eq; lia).
      rewrite Hd in Hk2. assert (k2 = 1) as -> by lia.
      rewrite Z.pow_1_r, Hp53, Z.mul_comm, Z.div_mul by lia. lia. }
  destruct (m2 / 2 ^ k2) as [|mf|mf] eqn:Hres; [lia| |lia].
  destruct (e1 + k2 <=? emax - prec); [|reflexivity].
  unfold flt, SFltb. cbn [SFcompare xorb].
  destruct (Z.compare_spec (e1 + k2) (-52)) as [He|He|He]; [|lia|reflexivity].
  destruct (Pos.compare_cont Eq mf 4503599627370496) eqn:Hc; try reflexivity.
  exfalso. pose proof (proj1 (Pos.compare_lt_iff mf 4503599627370496)) as Hiff.
  unfold Pos.compare in Hiff. apply Hiff in Hc.
  apply Pos2Z.pos_lt_pos in Hc. rewrite <- pow2_52 in Hc.
  exact (Z.lt_irrefl _ (Z.lt_le_trans _ _ _ Hc Hmf)).
Qed.

(** With a width that is not below that of the image, a side keeps its
    length. *)
Lemma scaled_keeps width w0 n :
  1 <= w0 -> w0 <= width -> width < 2 ^ 53 -> 1 <= n < 2 ^ 53 ->
  scaled n (preview_scale width w0) = Ok n.
Proof.
  intros Hw0 Hle Hwidth Hn. unfold preview_scale, py_min.
  rewrite fdiv_ge_one by assumption.
  unfold scaled. rewrite fmul_one by exact Hn.
  rewrite (trunc_int_of_float _ _ (trunc_float_of_Z n Hn)).
  f_equal. lia.
Qed.

(** ** The mode filters, further *)

Lemma apply_mode_cases im mode threshold :
  apply_mode im mode threshold =
  let m := lower mode in
  if String.eqb m "raw" then Ok im
  else if String.eqb m "grayscale" then Ok (convert_RGB (convert_L im))
  else if String.eqb m "bw" then Ok (bw threshold im)
  else if String.eqb m "dither" then Ok (convert_RGB_of_1 (convert_1 (convert_L im)))
  else if String.eqb m "outline" then Ok (outline threshold im)
  else Raise (PrinterPalError "Unsupported mode").
Proof. reflexivity. Qed.

(** [apply_mode] accepts the five modes, in any letter case, and nothing
    else. *)
Lemma apply_mode_supported_modes im mode threshold :
  if existsb (String.eqb (lower mode)) MODES
  then exists im', apply_mode im mode threshold = Ok im'
  else apply_mode im mode threshold = Raise (PrinterPalError "Unsupported mode").
Proof.
  rewrite apply_mode_cases. cbn [existsb MODES]. cbv zeta.
  repeat (destruct (String.eqb (lower mode) _); cbn [orb]; [eauto|]).
  reflexivity.
Qed.

Lemma L24_gray v : L24 (v, v, v) = v.
Proof.
  unfold L24. rewrite Z.shiftr_div_pow2 by lia.
  change (2 ^ 16) with 65536.
  symmetry. apply (Z.div_unique _ _ _ 32768); lia.
Qed.

(** X1.  Converting to grey twice gives what converting once gives. *)
Theorem grayscale_idempotent (im : image rgb) (threshold threshold' : Z) :
  exists im1,
    apply_mode im "grayscale" threshold = Ok im1 /\
    apply_mode im1 "grayscale" threshold' = Ok im1.
Proof.
  exists (convert_RGB (convert_L im)). split; [reflexivity|].
  rewrite apply_mode_cases. cbn. f_equal.
  unfold convert_RGB, convert_L, map_image. cbn. f_equal.
  rewrite !map_map. apply map_ext. intros p. rewrite L24_gray. reflexivity.
Qed.

Lemma range_length n : length (range n) = Z.to_nat n.
Proof. unfold range. rewrite length_map, length_seq. reflexivity. Qed.

Lemma flat_map_const_length {A B} (f : A -> list B) (l : list A) n :
  (forall a, length (f a) = n) -> length (flat_map f l) = (length l * n)%nat.
Proof.
  intros Hf. induction l as [|a l IH]; [reflexivity|].
  cbn [flat_map]. rewrite length_app, Hf, IH. cbn [length]. lia.
Qed.

Lemma FIND_EDGES_size im : im_size (FIND_EDGES im) = im_size im.
Proof.
  unfold FIND_EDGES. destruct (im_size im) as [w h] eqn:Hsz.
  destruct ((w <? 3) || (h <? 3)); [exact Hsz|reflexivity].
Qed.

Lemma FIND_EDGES_well_formed im : well_formed im -> well_formed (FIND_EDGES im).
Proof.
  intros (Hw & Hh & Hlen). unfold FIND_EDGES.
  destruct (im_size im) as [w h] eqn:Hsz. cbn [fst snd] in *.
  destruct ((w <? 3) || (h <? 3)).
  - unfold well_formed. rewrite Hsz. auto.
  - unfold well_formed. cbn [im_size im_data fst snd].
    repeat split; [assumption..|].
    rewrite (flat_map_const_length _ _ (Z.to_nat w)).
    + rewrite range_length. rewrite Z2Nat.inj_mul by assumption. lia.
    + intros y. rewrite length_map. apply range_length.
Qed.

Lemma dither_row_length row errs l l0 l1 :
  length (fst (dither_row row errs l l0 l1)) = length row.
Proof.
  revert errs l l0 l1. induction row as [|v row IH]; intros; [reflexivity|].
  cbn [dither_row]. cbv zeta.
  match goal with |- context [dither_row row ?e ?a ?b ?c] =>
    specialize (IH e a b c); destruct (dither_row row e a b c) as [outs errs'] end.
  cbn [fst length] in *. congruence.
Qed.

Lemma dither_rows_length w h data errs :
  length data = (h * w)%nat -> length (dither_rows w h data errs) = (h * w)%nat.
Proof.
  revert data errs. induction h as [|h IH]; intros data errs Hlen; [reflexivity|].
  cbn [dither_rows].
  pose proof (dither_row_length (firstn w data) errs 0 0 0) as Hrow.
  destruct (dither_row (firstn w data) errs 0 0 0) as [outs errs'].
  cbn [fst] in Hrow. rewrite length_app, Hrow, length_firstn, IH.
  - lia.
  - rewrite length_skipn. lia.
Qed.

Lemma convert_1_well_formed im :
  well_formed im -> im_size (convert_1 im) = im_size im /\ well_formed (convert_1 im).
Proof.
  intros (Hw & Hh & Hlen). unfold convert_1.
  destruct (im_size im) as [w h] eqn:Hsz. cbn [fst snd] in *.
  split; [reflexivity|]. unfold well_formed. cbn [im_size im_data fst snd].
  repeat split; [assumption..|].
  rewrite dither_rows_length; rewrite Z2Nat.inj_mul in * by assumption; lia.
Qed.

Lemma convert_1_size im : im_size (convert_1 im) = im_size im.
Proof. unfold convert_1. destruct (im_size im); reflexivity. Qed.

Lemma map_image_well_formed {A B} (f : A -> B) im :
  well_formed im -> well_formed (map_image f im).
Proof.
  intros (Hw & Hh & Hlen). unfold well_formed, map_image.
  cbn [im_size im_data]. rewrite length_map. auto.
Qed.

Lemma apply_mode_size im mode threshold im' :
  apply_mode im mode threshold = Ok im' -> im_size im' = im_size im.
Proof.
  rewrite apply_mode_cases. cbv zeta.
  repeat (destruct (String.eqb (lower mode) _));
    intros H; try discriminate; injection H as <-; try reflexivity.
  - unfold convert_RGB_of_1, map_image. cbn [im_size]. apply convert_1_size.
  - unfold outline, convert_RGB, point, invert, autocontrast, point, map_image.
    cbn [im_size]. apply FIND_EDGES_size.
Qed.

(** X2.  Every mode returns an image of the size of its input, with as many
    pixels as the size announces when the input has. *)
Theorem apply_mode_preserves_size (im : image rgb) (mode : string)
    (threshold : Z) (im' : image rgb) :
  apply_mode im mode threshold = Ok im' ->
  im_size im' = im_size im /\ (well_formed im -> well_formed im').
Proof.
  intros H. split; [exact (apply_mode_size _ _ _ _ H)|].
  revert H. rewrite apply_mode_cases. cbv zeta.
  repeat (destruct (String.eqb (lower mode) _));
    intros H; try discriminate; injection H as <-; intros Hwf.
  - exact Hwf.
  - unfold convert_RGB, convert_L. auto using map_image_well_formed.
  - unfold bw, convert_RGB, convert_L, point. auto using map_image_well_formed.
  - unfold convert_RGB_of_1. apply map_image_well_formed.
    apply convert_1_well_formed. unfold convert_L.
    auto using map_image_well_formed.
  - unfold outline, convert_RGB, point, invert, autocontrast, point.
    repeat apply map_image_well_formed. apply FIND_EDGES_well_formed.
    unfold convert_L. auto using map_image_well_formed.
Qed.

Lemma apply_mode_preserves_size_witness :
  im_size dot_negative = im_size dot /\ well_formed dot_negative.
Proof.
  refine ((fun H => conj (proj1 H) (proj2 H _))
            (apply_mode_preserves_size dot "outline" 180 dot_negative _)).
  - unfold well_formed. cbn. repeat split; lia.
  - vm_compute. reflexivity.
Defined.

Lemma dither_row_bilevel row errs l l0 l1 :
  Forall (fun v => v = 0 \/ v = 255) (fst (dither_row row errs l l0 l1)).
Proof.
  revert errs l l0 l1. induction row as [|v row IH]; intros; [constructor|].
  cbn [dither_row]. cbv zeta.
  match goal with |- context [dither_row row ?e ?a ?b ?c] =>
    specialize (IH e a b c); destruct (dither_row row e a b c) as [outs errs'] end.
  cbn [fst] in *. constructor; [|assumption].
  destruct (128 <? _); auto.
Qed.

Lemma dither_rows_bilevel w h data errs :
  Forall (fun v => v = 0 \/ v = 255) (dither_rows w h data errs).
Proof.
  revert data errs. induction h as [|h IH]; intros; [constructor|].
  cbn [dither_rows].
  pose proof (dither_row_bilevel (firstn w data) errs 0 0 0) as Hrow.
  destruct (dither_row (firstn w data) errs 0 0 0) as [outs errs'].
  apply Forall_app. split; [exact Hrow|apply IH].
Qed.

Lemma convert_RGB_binarize threshold (g : image Z) :
  Forall black_or_white (im_data (convert_RGB (point (binarize threshold) g))).
Proof.
  unfold convert_RGB, point, map_image. cbn [im_data]. rewrite map_map.
  apply List.Forall_forall. intros p Hin. apply in_map_iff in Hin as (v & <- & _).
  unfold binarize, black_or_white. destruct (threshold <=? v); auto.
Qed.

(** X3.  The modes bw, dither and outline return images in which every
    pixel is pure black or pure white. *)
Theorem apply_mode_bilevel (im : image rgb) (mode : string) (threshold : Z)
    (im' : image rgb) :
  In (lower mode) BILEVEL_MODES ->
  apply_mode im mode threshold = Ok im' ->
  Forall black_or_white (im_data im').
Proof.
  intros Hin. rewrite apply_mode_cases. cbv zeta.
  destruct Hin as [<-|[<-|[<-|[]]]]; cbn; intros [= <-].
  - apply convert_RGB_binarize.
  - unfold convert_RGB_of_1, map_image, convert_1. cbn [im_data].
    destruct (im_size (convert_L im)) as [w h]. cbn [im_data].
    apply List.Forall_forall. intros p Hp. apply in_map_iff in Hp as (v & <- & Hv).
    pose proof (dither_rows_bilevel (Z.to_nat w) (Z.to_nat h)
                  (im_data (convert_L im)) (repeat 0 (S (Z.to_nat w)))) as Hb.
    rewrite List.Forall_forall in Hb. destruct (Hb v Hv) as [-> | ->];
      [left|right]; reflexivity.
  - apply convert_RGB_binarize.
Qed.

Lemma apply_mode_bilevel_witness :
  Forall black_or_white (im_data dot_negative).
Proof.
  apply (apply_mode_bilevel dot "Outline" 180 dot_negative).
  - cbn. auto.
  - vm_compute. reflexivity.
Defined.

(** ** What the functions leave alone *)

Create HintDb stable.

Lemma stable_ret {X A} (proj : world -> X) (a : A) : stable proj (ret a).
Proof. intros w. reflexivity. Qed.

Lemma stable_raise {X A} (proj : world -> X) (e : exn) : stable proj (@raise A e).
Proof. intros w. reflexivity. Qed.

Lemma stable_lift {X A} (proj : world -> X) (r : result A) : stable proj (lift r).
Proof. intros w. reflexivity. Qed.

Lemma stable_bind {X A B} (proj : world -> X) (c : M A) (k : A -> M B) :
  stable proj c -> (forall a, stable proj (k a)) -> stable proj (bind c k).
Proof.
  intros Hc Hk w. unfold bind. specialize (Hc w).
  destruct (c w) as [[a|e] w1]; cbn in *; [|assumption].
  rewrite Hk. exact Hc.
Qed.

Lemma stable_try_except {X A} (proj : world -> X) (c : M A) (h : exn -> M A) :
  stable proj c -> (forall e, stable proj (h e)) -> stable proj (try_except c h).
Proof.
  intros Hc Hh w. unfold try_except. specialize (Hc w).
  destruct (c w) as [[a|e] w1]; cbn in *; [assumption|].
  rewrite Hh. exact Hc.
Qed.

Lemma stable_try_finally {X A} (proj : world -> X) (c : M A) (f : M unit) :
  stable proj c -> stable proj f -> stable proj (try_finally c f).
Proof.
  intros Hc Hf w. unfold try_finally. specialize (Hc w).
  destruct (c w) as [r w1]. specialize (Hf w1).
  destruct (f w1) as [[[]|e] w2]; cbn in *; congruence.
Qed.

Lemma stable_the_host {X} (proj : world -> X) : stable proj the_host.
Proof. intros w. reflexivity. Qed.

Lemma stable_os_path_exists {X} (proj : world -> X) p :
  stable proj (os_path_exists p).
Proof. intros w. reflexivity. Qed.

Lemma stable_write_bytes {X} (proj : world -> X) p d : stable proj (write_bytes p d).
Proof. intros w. reflexivity. Qed.

Lemma host_ask {A} (f : host -> nat -> A) : stable w_host (ask f).
Proof. intros w. reflexivity. Qed.

Lemma host_add_files ps : stable w_host (add_files ps).
Proof. intros w. reflexivity. Qed.

Lemma host_rmtree d : stable w_host (rmtree d).
Proof. intros w. reflexivity. Qed.

Lemma host_subprocess_run args t : stable w_host (subprocess_run args t).
Proof. intros w. reflexivity. Qed.

Lemma spawned_ask {A} (f : host -> nat -> A) : stable w_spawned (ask f).
Proof. intros w. reflexivity. Qed.

Lemma spawned_add_files ps : stable w_spawned (add_files ps).
Proof. intros w. reflexivity. Qed.

Lemma spawned_rmtree d : stable w_spawned (rmtree d).
Proof. intros w. reflexivity. Qed.

#[local] Hint Resolve stable_ret stable_raise stable_lift stable_the_host
  stable_os_path_exists stable_write_bytes host_ask host_add_files host_rmtree
  host_subprocess_run spawned_ask spawned_add_files spawned_rmtree : stable.

Ltac stable_step :=
  match goal with
  | |- stable _ (bind _ _) => apply stable_bind; [|intros ?]
  | |- stable _ (try_except _ _) => apply stable_try_except; [|intros ?]
  | |- stable _ (try_finally _ _) => apply stable_try_finally
  | |- stable _ (match ?x with _ => _ end) => destruct x
  | |- stable _ (if ?b then _ else _) => destruct b
  | |- stable _ _ => solve [auto with stable]
  end.

Lemma stable_first_unused {X} (proj : world -> X) n pre suf what :
  (forall A (f : host -> nat -> A), stable proj (ask f)) ->
  (forall ps, stable proj (add_files ps)) ->
  stable proj (first_unused n pre suf what).
Proof.
  intros Hask Hadd. induction n as [|n IH]; cbn [first_unused];
    [auto with stable|].
  repeat first [apply Hask | apply Hadd | stable_step | exact IH].
Qed.

Lemma host_first_unused n pre suf what :
  stable w_host (first_unused n pre suf what).
Proof. apply stable_first_unused; auto with stable. Qed.

Lemma spawned_first_unused n pre suf what :
  stable w_spawned (first_unused n pre suf what).
Proof. apply stable_first_unused; auto with stable. Qed.

#[local] Hint Resolve host_first_unused spawned_first_unused : stable.

Lemma host_run_cmd args t check env : stable w_host (run_cmd args t check env).
Proof. unfold run_cmd, time_monotonic. repeat stable_step. Qed.

#[local] Hint Resolve host_run_cmd : stable.

Lemma stable_mkstemp {X} (proj : world -> X) pre suf :
  (forall n what, stable proj (first_unused n pre suf what)) ->
  stable proj (mkstemp pre suf).
Proof. intros H. unfold mkstemp. repeat stable_step. Qed.

Lemma stable_mkdtemp {X} (proj : world -> X) pre :
  (forall n what, stable proj (first_unused n pre "" what)) ->
  stable proj (mkdtemp pre).
Proof. intros H. unfold mkdtemp. repeat stable_step. Qed.

Lemma host_mkstemp pre suf : stable w_host (mkstemp pre suf).
Proof. apply stable_mkstemp. auto with stable. Qed.

Lemma spawned_mkstemp pre suf : stable w_spawned (mkstemp pre suf).
Proof. apply stable_mkstemp. auto with stable. Qed.

Lemma host_mkdtemp pre : stable w_host (mkdtemp pre).
Proof. apply stable_mkdtemp. auto with stable. Qed.

Lemma spawned_mkdtemp pre : stable w_spawned (mkdtemp pre).
Proof. apply stable_mkdtemp. auto with stable. Qed.

Lemma host_Image_open_RGB p : stable w_host (Image_open_RGB p).
Proof. unfold Image_open_RGB. repeat stable_step. Qed.

Lemma spawned_Image_open_RGB p : stable w_spawned (Image_open_RGB p).
Proof. unfold Image_open_RGB. repeat stable_step. Qed.

#[local] Hint Resolve host_mkstemp spawned_mkstemp host_mkdtemp spawned_mkdtemp
  host_Image_open_RGB spawned_Image_open_RGB : stable.

Lemma host__open_image p : stable w_host (_open_image p).
Proof. unfold _open_image. repeat stable_step. Qed.

Lemma spawned__open_image p : stable w_spawned (_open_image p).
Proof. unfold _open_image. repeat stable_step. Qed.

Lemma host__render_pdf_page_to_png path page dpi :
  stable w_host (_render_pdf_page_to_png path page dpi).
Proof.
  unfold _render_pdf_page_to_png, with_TemporaryDirectory. repeat stable_step.
Qed.

Lemma host_pillow_save_pdf imgs : stable w_host (pillow_save_pdf imgs).
Proof. unfold pillow_save_pdf. repeat stable_step. Qed.

Lemma spawned_pillow_save_pdf imgs : stable w_spawned (pillow_save_pdf imgs).
Proof. unfold pillow_save_pdf. repeat stable_step. Qed.

#[local] Hint Resolve host__open_image spawned__open_image
  host__render_pdf_page_to_png host_pillow_save_pdf spawned_pillow_save_pdf
  : stable.

Lemma not_allowed_ext path :
  _allowed_filename path = false ->
  String.eqb (lower (snd (splitext path))) ".pdf" = false /\
  bool_decide (lower (snd (splitext path)) ∈ SUPPORTED_IMAGE_EXTS) = false.
Proof.
  unfold _allowed_filename, ALLOWED_EXTS. cbv zeta.
  intros H. apply bool_decide_eq_false in H. split.
  - apply String.eqb_neq. intros Heq. apply H. rewrite Heq. set_solver.
  - apply bool_decide_eq_false. set_solver.
Qed.

Lemma image_ext_not_pdf ext :
  ext ∈ SUPPORTED_IMAGE_EXTS -> String.eqb ext ".pdf" = false.
Proof.
  intros H. apply String.eqb_neq. intros ->. revert H.
  vm_compute. discriminate.
Qed.

Lemma stable_run {X A} (proj : world -> X) (c : M A) w r w' :
  stable proj c -> c w = (r, w') -> proj w' = proj w.
Proof. intros Hc Hrun. specialize (Hc w). rewrite Hrun in Hc. exact Hc. Qed.

(** A run that is seen to succeed, for the examples. *)
Lemma run_ok {A} (c : result A * world) :
  match fst c with Ok _ => true | Raise _ => false end = true ->
  exists a, c = (Ok a, snd c).
Proof. destruct c as [[a|e] w]; cbn; [eauto|discriminate]. Qed.

(** ** The preview *)

(** X4.  A preview is refused before anything is read or started when the
    width is out of range, and next when the file has none of the
    extensions an upload may have. *)
Theorem render_preview_png_rejects (path mode : string)
    (page width preview_dpi threshold : Z) (w : world) :
  width < 64 \/ 2000 < width \/ _allowed_filename path = false ->
  render_preview_png path mode page width preview_dpi threshold w =
  (Raise (PrinterPalError
            (if (width <? 64) || (width >? 2000)
             then "width must be between 64 and 2000"
             else "Preview supports PDF and common image formats")),
   w).
Proof.
  intros H. unfold render_preview_png.
  destruct ((width <? 64) || (width >? 2000)) eqn:Hwidth; [reflexivity|].
  destruct H as [H|[H|H]]; [lia..|].
  apply not_allowed_ext in H as [-> ->]. reflexivity.
Qed.

Lemma render_preview_png_rejects_witness :
  render_preview_png "/up/c.txt" "bw" 1 720 150 180 uploads =
  (Raise (PrinterPalError "Preview supports PDF and common image formats"),
   uploads).
Proof.
  apply (render_preview_png_rejects "/up/c.txt" "bw" 1 720 150 180 uploads).
  right. right. vm_compute. reflexivity.
Defined.

Lemma keeps_render_preview_png path mode page width dpi thr :
  keeps (render_preview_png path mode page width dpi thr).
Proof. unfold render_preview_png. repeat keeps_step. Qed.

Lemma keeps_prepare_print_file src mode dpi maxp thr :
  keeps (prepare_print_file src mode dpi maxp thr).
Proof. unfold prepare_print_file. repeat keeps_step. Qed.

(** X5.  Neither the preview nor the print preparation removes a path that
    existed when it was called, whether it succeeds or fails. *)
Theorem imageproc_keeps_files (path mode : string)
    (page width dpi max_pdf_pages threshold : Z) (w : world) :
  w_files w ⊆ w_files (snd (prepare_print_file path mode dpi max_pdf_pages threshold w)) /\
  w_files w ⊆ w_files (snd (render_preview_png path mode page width dpi threshold w)).
Proof.
  split; [apply keeps_prepare_print_file|apply keeps_render_preview_png].
Qed.

(** X6.  For a file with an image extension neither function starts a child
    process. *)
Theorem image_sources_start_no_child (path mode : string)
    (page width dpi max_pdf_pages threshold : Z) (w : world) :
  lower (snd (splitext path)) ∈ SUPPORTED_IMAGE_EXTS ->
  w_spawned (snd (prepare_print_file path mode dpi max_pdf_pages threshold w)) =
    w_spawned w /\
  w_spawned (snd (render_preview_png path mode page width dpi threshold w)) =
    w_spawned w.
Proof.
  intros Hext. pose proof (image_ext_not_pdf _ Hext) as Hpdf.
  assert (bool_decide (lower (snd (splitext path)) ∈ SUPPORTED_IMAGE_EXTS) = true)
    as Hdec by (apply bool_decide_eq_true; exact Hext).
  split.
  - revert w. change (stable w_spawned
      (prepare_print_file path mode dpi max_pdf_pages threshold)).
    unfold prepare_print_file. rewrite Hpdf, Hdec. repeat stable_step.
  - revert w. change (stable w_spawned
      (render_preview_png path mode page width dpi threshold)).
    unfold render_preview_png. rewrite Hpdf, Hdec. repeat stable_step.
Qed.

Lemma image_sources_start_no_child_witness :
  w_spawned (snd (prepare_print_file "/up/b.png" "bw" 200 30 180 uploads)) = [] /\
  w_spawned (snd (render_preview_png "/up/b.png" "bw" 1 720 200 180 uploads)) = [].
Proof.
  apply (image_sources_start_no_child "/up/b.png" "bw" 1 720 200 30 180 uploads).
  vm_compute. reflexivity.
Defined.

(** ** The print preparation, further *)

Lemma mkstemp_fresh pre suf w0 w out w' :
  w_files w0 ⊆ w_files w ->
  mkstemp pre suf w = (Ok out, w') ->
  path_exists (w_files w0) out = false /\ out ∈ w_files w'.
Proof.
  intros Hsub Hmk. pose proof (mkstemp_spec pre suf w) as H.
  rewrite Hmk in H. destruct H as [Hfresh ->]. split; [|set_solver].
  destruct (path_exists (w_files w0) out) eqn:Hex; [|reflexivity].
  rewrite (path_exists_mono _ _ _ Hsub Hex) in Hfresh. discriminate.
Qed.

(** A conversion that succeeds ends with [mkstemp], in a world where
    everything that existed at the start still exists. *)
Lemma prepare_print_file_mkstemp src_path mode print_dpi max_pdf_pages
    threshold w p meta w' :
  mode <> "raw" ->
  prepare_print_file src_path mode print_dpi max_pdf_pages threshold w =
    (Ok (p, meta), w') ->
  exists w3,
    w_files w ⊆ w_files w3 /\
    mkstemp "printerpal_print_" ".pdf" w3 = (Ok p, w') /\
    meta !! "output" = Some (VStr p) /\
    meta !! "prepared" = Some (VBool true).
Proof.
  intros Hmode H. unfold prepare_print_file in H.
  apply bind_ok in H as (found & w0 & H0 & H).
  unfold os_path_exists in H0. injection H0 as <- <-.
  destruct (negb _); [discriminate|].
  destruct (String.eqb_spec mode "raw") as [->|_]; [contradiction|].
  destruct (String.eqb _ ".pdf").
  - apply bind_ok in H as (pages & w1 & H1 & H).
    destruct (max_pdf_pages <? pages); [discriminate|].
    apply bind_ok in H as (imgs & w2 & H2 & H).
    apply bind_ok in H as (pdf & w3 & H3 & H).
    apply bind_ok in H as (out & w4 & H4 & H).
    cbn in H. inversion H; subst. exists w3.
    split; [|split; [exact H4|split]].
    + etransitivity; [eapply keeps_run; [|exact H1]; auto with keeps|].
      etransitivity; [eapply keeps_run; [|exact H2]; auto with keeps|].
      eapply keeps_run; [|exact H3]. auto with keeps.
    + apply lookup_insert_eq.
    + rewrite lookup_insert_ne by discriminate. apply lookup_insert_eq.
  - destruct (bool_decide _); [|discriminate].
    apply bind_ok in H as (im & w1 & H1 & H).
    apply bind_ok in H as (im2 & w2 & H2 & H).
    apply bind_ok in H as (buf & w3 & H3 & H).
    apply bind_ok in H as (out & w4 & H4 & H).
    cbn in H. inversion H; subst. exists w3.
    split; [|split; [exact H4|split]].
    + etransitivity; [eapply keeps_run; [|exact H1]; auto with keeps|].
      etransitivity; [eapply keeps_run; [|exact H2]; auto with keeps|].
      eapply keeps_run; [|exact H3]. auto with keeps.
    + apply lookup_insert_eq.
    + rewrite lookup_insert_ne by discriminate. apply lookup_insert_eq.
Qed.

(** X7.  The file a conversion returns is new: its path did not exist when
    [prepare_print_file] was called, it exists afterwards, and the metadata
    name it as the output. *)
Theorem prepare_print_file_output_fresh (src_path mode : string)
    (print_dpi max_pdf_pages threshold : Z) (w : world)
    (p : string) (meta : gmap string value) (w' : world) :
  mode <> "raw" ->
  prepare_print_file src_path mode print_dpi max_pdf_pages threshold w =
    (Ok (p, meta), w') ->
  path_exists (w_files w) p = false /\ p ∈ w_files w' /\
  meta !! "output" = Some (VStr p).
Proof.
  intros Hmode H.
  destruct (prepare_print_file_mkstemp _ _ _ _ _ _ _ _ _ Hmode H)
    as (w3 & Hsub & Hmk & Hout & _).
  destruct (mkstemp_fresh _ _ _ _ _ _ Hsub Hmk) as [Hfresh Hin].
  auto.
Qed.

Lemma prepare_print_file_output_fresh_witness :
  exists p meta w',
    prepare_print_file "/up/b.png" "bw" 200 30 180 uploads = (Ok (p, meta), w') /\
    path_exists (w_files uploads) p = false /\ p ∈ w_files w' /\
    meta !! "output" = Some (VStr p).
Proof.
  destruct (run_ok (prepare_print_file "/up/b.png" "bw" 200 30 180 uploads))
    as [[p meta] H]; [vm_compute; reflexivity|].
  exists p, meta, (snd (prepare_print_file "/up/b.png" "bw" 200 30 180 uploads)).
  split; [exact H|].
  apply (prepare_print_file_output_fresh "/up/b.png" "bw" 200 30 180 uploads
           p meta _); [discriminate|exact H].
Defined.

Lemma with_TemporaryDirectory_cases {A} pre (body : string -> M A) w :
  with_TemporaryDirectory pre body w =
  match mkdtemp pre w with
  | (Ok td, w1) => try_finally (body td) (rmtree td) w1
  | (Raise e, w1) => (Raise e, w1)
  end.
Proof. reflexivity. Qed.



Lemma try_finally_ok {A} (c : M A) (f : M unit) w a w' :
  try_finally c f w = (Ok a, w') ->
  exists w1, c w = (Ok a, w1) /\ f w1 = (Ok tt, w').
Proof.
  unfold try_finally. destruct (c w) as [r w1].
  destruct (f w1) as [[[]|e] w2] eqn:Hf; [|discriminate].
  intros [= -> <-]. eauto.
Qed.

Lemma Image_open_RGB_ok p w im w' :
  Image_open_RGB p w = (Ok im, w') ->
  h_open_image (w_host w) (w_tick w) p = inr im.
Proof.
  unfold Image_open_RGB. monad_unfold.
  destruct (h_open_image (w_host w) (w_tick w) p) as [msg|im0];
    [discriminate|]. intros [= <- _]. reflexivity.
Qed.

(** A page that is rendered: one [pdftoppm] has been started, and the image
    is what the decoder made of its output. *)
Lemma _render_pdf_page_to_png_ok path page dpi w im w' :
  _render_pdf_page_to_png path page dpi w = (Ok im, w') ->
  exists td t,
    w_spawned w' =
      w_spawned w ++ [pdftoppm_argv path dpi page (os_path_join td "page")] /\
    h_open_image (w_host w) t (os_path_join td "page" +:+ ".png") = inr im.
Proof.
  unfold _render_pdf_page_to_png. destruct (page <? 1); [discriminate|].
  rewrite with_TemporaryDirectory_cases.
  destruct (mkdtemp "printerpal_pdf_" w) as [[td|e] w1] eqn:Hmk; [|discriminate].
  intros H. apply try_finally_ok in H as (w2 & H & Hrm).
  apply bind_ok in H as (res & w3 & Hrun & H).
  apply bind_ok in H as (found & w4 & Hex & H).
  unfold os_path_exists in Hex. injection Hex as <- <-.
  destruct (negb _); [discriminate|].
  exists td, (w_tick w3). split.
  - rewrite (stable_run w_spawned _ _ _ _ (spawned_rmtree td) Hrm).
    rewrite (stable_run w_spawned _ _ _ _ (spawned_Image_open_RGB _) H).
    pose proof (run_cmd_spawned
                  (pdftoppm_argv path dpi page (os_path_join td "page"))
                  (float_of_Z 25) true None w1) as Hsp.
    unfold pdftoppm_argv in Hsp at 1. rewrite Hrun in Hsp. cbn [snd] in Hsp.
    rewrite Hsp.
    rewrite (stable_run w_spawned _ _ _ _ (spawned_mkdtemp _) Hmk).
    reflexivity.
  - apply Image_open_RGB_ok in H.
    rewrite (stable_run w_host _ _ _ _ (host_run_cmd _ _ _ _) Hrun) in H.
    rewrite (stable_run w_host _ _ _ _ (host_mkdtemp _) Hmk) in H.
    exact H.
Qed.

Lemma run_fst {A} (c : result A * world) a : fst c = Ok a -> c = (Ok a, snd c).
Proof. destruct c as [r w]. cbn. intros ->. reflexivity. Qed.

Lemma scaled_preview_width width w0 n :
  64 <= width <= 2000 -> 1 <= w0 < 2 ^ 53 -> 1 <= n < 2 ^ 53 ->
  exists k, scaled n (preview_scale width w0) = Ok k /\ 1 <= k <= n.
Proof.
  intros Hwidth. apply scaled_preview.
  assert (2000 < 2 ^ 53) by (vm_compute; reflexivity). lia.
Qed.

(** A preview that is made: the width was in range, the source was
    decoded and filtered, and its two sides were scaled. *)
Lemma render_preview_png_ok path mode page width dpi thr w png w' :
  render_preview_png path mode page width dpi thr w = (Ok png, w') ->
  64 <= width <= 2000 /\
  exists src w1 im2 nw nh,
    preview_source path page dpi w = (Ok src, w1) /\
    apply_mode src mode thr = Ok im2 /\
    0 < fst (im_size src) /\ 0 < snd (im_size src) /\
    scaled (fst (im_size src)) (preview_scale width (fst (im_size src))) = Ok nw /\
    scaled (snd (im_size src)) (preview_scale width (fst (im_size src))) = Ok nh /\
    png = h_png (w_host w) (resize (w_host w) im2 (nw, nh)).
Proof.
  intros H. unfold render_preview_png in H.
  destruct ((width <? 64) || (width >? 2000)) eqn:Hwidth; [discriminate|].
  split; [lia|].
  apply bind_ok in H as (im & w1 & Him & H).
  change (preview_source path page dpi w = (Ok im, w1)) in Him.
  assert (w_host w1 = w_host w) as Hhost.
  { unfold preview_source in Him. destruct (String.eqb _ ".pdf").
    - exact (stable_run w_host _ _ _ _
               (host__render_pdf_page_to_png _ _ _) Him).
    - destruct (bool_decide _); [|discriminate].
      exact (stable_run w_host _ _ _ _ (host__open_image _) Him). }
  apply bind_ok in H as (im2 & w2 & Hmode & H).
  unfold lift in Hmode. injection Hmode as Hmode <-.
  apply apply_mode_size in Hmode as Hsize.
  destruct (im_size im2) as [w0 h0] eqn:Hsz2.
  destruct ((w0 <=? 0) || (h0 <=? 0)) eqn:Hpos; [discriminate|].
  apply bind_ok in H as (nw & w3 & Hnw & H).
  unfold lift in Hnw. injection Hnw as Hnw <-.
  apply bind_ok in H as (nh & w4 & Hnh & H).
  unfold lift in Hnh. injection Hnh as Hnh <-.
  unfold bind, the_host, ret in H. injection H as <- <-.
  exists im, w1, im2, nw, nh. rewrite Hhost, <- Hsize. cbn [fst snd].
  repeat split; try assumption; lia.
Qed.

(** X9.  A preview is never larger than its source.  Let [src] be the image
    this call of [render_preview_png] starts from (the page of the PDF or
    the decoded file), with sides below [2 ^ 53].  The PNG returned encodes
    the filtered [src] resized to the two scaled sides, and these are at
    least 1 and at most the width and the height of [src]. *)
Theorem render_preview_png_never_upscales (path mode : string)
    (page width preview_dpi threshold : Z) (w : world)
    (src : image rgb) (w1 : world) (png : bytes) (w' : world) :
  preview_source path page preview_dpi w = (Ok src, w1) ->
  fst (im_size src) < 2 ^ 53 -> snd (im_size src) < 2 ^ 53 ->
  render_preview_png path mode page width preview_dpi threshold w = (Ok png, w') ->
  exists im2 nw nh,
    apply_mode src mode threshold = Ok im2 /\
    scaled (fst (im_size src)) (preview_scale width (fst (im_size src))) = Ok nw /\
    scaled (snd (im_size src)) (preview_scale width (fst (im_size src))) = Ok nh /\
    png = h_png (w_host w) (resize (w_host w) im2 (nw, nh)) /\
    1 <= nw <= fst (im_size src) /\
    1 <= nh <= snd (im_size src).
Proof.
  intros Hsrc Hw Hh H.
  apply render_preview_png_ok in H
    as (Hwidth & src' & w1' & im2 & nw & nh & Hsrc' & Hmode & Hw0 & Hh0 & Hnw & Hnh & ->).
  rewrite Hsrc in Hsrc'. injection Hsrc' as <- <-.
  destruct (scaled_preview_width width (fst (im_size src)) (fst (im_size src)))
    as (nw' & Hnw' & Hbw); [lia..|].
  destruct (scaled_preview_width width (fst (im_size src)) (snd (im_size src)))
    as (nh' & Hnh' & Hbh); [lia..|].
  rewrite Hnw in Hnw'. injection Hnw' as <-.
  rewrite Hnh in Hnh'. injection Hnh' as <-.
  exists im2, nw, nh. auto 10.
Qed.

Lemma render_preview_png_never_upscales_witness :
  exists png w' im2 nw nh,
    render_preview_png "/up/b.png" "grayscale" 1 64 150 180 uploads = (Ok png, w') /\
    apply_mode (blank 4 3) "grayscale" 180 = Ok im2 /\
    png = h_png (w_host uploads) (resize (w_host uploads) im2 (nw, nh)) /\
    1 <= nw <= 4 /\ 1 <= nh <= 3.
Proof.
  destruct (run_ok (render_preview_png "/up/b.png" "grayscale" 1 64 150 180 uploads))
    as [png H]; [vm_compute; reflexivity|].
  assert (preview_source "/up/b.png" 1 150 uploads =
          (Ok (blank 4 3), snd (preview_source "/up/b.png" 1 150 uploads)))
    as Hsrc by (apply run_fst; vm_compute; reflexivity).
  assert (fst (im_size (blank 4 3)) < 2 ^ 53) as Hw by (vm_compute; reflexivity).
  assert (snd (im_size (blank 4 3)) < 2 ^ 53) as Hh by (vm_compute; reflexivity).
  destruct (render_preview_png_never_upscales
              "/up/b.png" "grayscale" 1 64 150 180 uploads (blank 4 3) _ png _
              Hsrc Hw Hh H)
    as (im2 & nw & nh & Hmode & _ & _ & Hpng & Hnw & Hnh).
  exists png, (snd (render_preview_png "/up/b.png" "grayscale" 1 64 150 180 uploads)),
    im2, nw, nh. auto 10.
Defined.

(** X10.  A preview of a source that is not wider than the width asked for
    has the size of the source.  With [src] as above and its width at most
    [width], the PNG returned encodes the filtered [src] resized to its own
    size. *)
Theorem render_preview_png_keeps_size (path mode : string)
    (page width preview_dpi threshold : Z) (w : world)
    (src : image rgb) (w1 : world) (png : bytes) (w' : world) :
  preview_source path page preview_dpi w = (Ok src, w1) ->
  fst (im_size src) < 2 ^ 53 -> snd (im_size src) < 2 ^ 53 ->
  fst (im_size src) <= width ->
  render_preview_png path mode page width preview_dpi threshold w = (Ok png, w') ->
  exists im2,
    apply_mode src mode threshold = Ok im2 /\
    png = h_png (w_host w) (resize (w_host w) im2 (im_size src)) /\
    im_size (resize (w_host w) im2 (im_size src)) = im_size src.
Proof.
  intros Hsrc Hw Hh Hle H.
  apply render_preview_png_ok in H
    as (Hwidth & src' & w1' & im2 & nw & nh & Hsrc' & Hmode & Hw0 & Hh0 & Hnw & Hnh & ->).
  rewrite Hsrc in Hsrc'. injection Hsrc' as <- <-.
  assert (width < 2 ^ 53)
    by (assert (2000 < 2 ^ 53) by (vm_compute; reflexivity); lia).
  rewrite scaled_keeps in Hnw, Hnh by lia.
  injection Hnw as <-. injection Hnh as <-.
  exists im2. split; [exact Hmode|].
  destruct (im_size src) as [w0 h0]. split; reflexivity.
Qed.

Lemma render_preview_png_keeps_size_witness :
  exists png w' im2,
    render_preview_png "/up/b.png" "grayscale" 1 64 150 180 uploads = (Ok png, w') /\
    apply_mode (blank 4 3) "grayscale" 180 = Ok im2 /\
    png = h_png (w_host uploads) (resize (w_host uploads) im2 (4, 3)).
Proof.
  destruct (run_ok (render_preview_png "/up/b.png" "grayscale" 1 64 150 180 uploads))
    as [png H]; [vm_compute; reflexivity|].
  assert (preview_source "/up/b.png" 1 150 uploads =
          (Ok (blank 4 3), snd (preview_source "/up/b.png" 1 150 uploads)))
    as Hsrc by (apply run_fst; vm_compute; reflexivity).
  assert (fst (im_size (blank 4 3)) < 2 ^ 53) as Hw by (vm_compute; reflexivity).
  assert (snd (im_size (blank 4 3)) < 2 ^ 53) as Hh by (vm_compute; reflexivity).
  assert (fst (im_size (blank 4 3)) <= 64) as Hle by (vm_compute; discriminate).
  destruct (render_preview_png_keeps_size
              "/up/b.png" "grayscale" 1 64 150 180 uploads (blank 4 3) _ png _
              Hsrc Hw Hh Hle H)
    as (im2 & Hmode & Hpng & _).
  exists png, (snd (render_preview_png "/up/b.png" "grayscale" 1 64 150 180 uploads)),
    im2. auto.
Defined.

(** ** The width of a preview *)

Lemma scaled_1000_64 : scaled 1000 (preview_scale 64 1000) = Ok 64.
Proof. vm_compute. reflexivity. Qed.

(** C1.  A width below 64 or above 2000 is not capped: the preview is
    refused with a [PrinterPalError] before anything is read.  With a width
    in range, let [src] be the image the call starts from, with sides below
    [2 ^ 53]: the PNG returned encodes the filtered [src] resized to
    [(nw, nh)], both sides scaled by the one factor
    [min(1.0, float(width) / float(w0))] and truncated, at least 1 and at
    most the sides of [src]; a source that is not wider than [width] keeps
    its size, and a source 1000 wide asked for at width 64 comes out 64
    wide. *)
Theorem render_preview_png_width (path mode : string)
    (page width preview_dpi threshold : Z) (w : world) :
  (width < 64 \/ 2000 < width ->
   render_preview_png path mode page width preview_dpi threshold w =
   (Raise (PrinterPalError "width must be between 64 and 2000"), w)) /\
  (forall src w1 png w',
     preview_source path page preview_dpi w = (Ok src, w1) ->
     fst (im_size src) < 2 ^ 53 -> snd (im_size src) < 2 ^ 53 ->
     render_preview_png path mode page width preview_dpi threshold w = (Ok png, w') ->
     let w0 := fst (im_size src) in
     let h0 := snd (im_size src) in
     64 <= width <= 2000 /\
     exists im2 nw nh,
       apply_mode src mode threshold = Ok im2 /\
       im_size im2 = im_size src /\
       scaled w0 (preview_scale width w0) = Ok nw /\
       scaled h0 (preview_scale width w0) = Ok nh /\
       png = h_png (w_host w) (resize (w_host w) im2 (nw, nh)) /\
       1 <= nw <= w0 /\ 1 <= nh <= h0 /\
       (w0 <= width -> nw = w0 /\ nh = h0) /\
       (w0 = 1000 -> width = 64 -> nw = 64)).
Proof.
  split.
  - intros H. unfold render_preview_png.
    replace ((width <? 64) || (width >? 2000)) with true by lia. reflexivity.
  - intros src w1 png w' Hsrc Hw Hh H. cbv zeta.
    apply render_preview_png_ok in H
      as (Hwidth & src' & w1' & im2 & nw & nh & Hsrc' & Hmode & Hw0 & Hh0 & Hnw
          & Hnh & ->).
    rewrite Hsrc in Hsrc'. injection Hsrc' as <- <-.
    split; [exact Hwidth|].
    destruct (scaled_preview_width width (fst (im_size src)) (fst (im_size src)))
      as (nw' & Hnw' & Hbw); [lia..|].
    destruct (scaled_preview_width width (fst (im_size src)) (snd (im_size src)))
      as (nh' & Hnh' & Hbh); [lia..|].
    rewrite Hnw in Hnw'. injection Hnw' as <-.
    rewrite Hnh in Hnh'. injection Hnh' as <-.
    exists im2, nw, nh.
    split; [exact Hmode|]. split; [exact (apply_mode_size _ _ _ _ Hmode)|].
    split; [exact Hnw|]. split; [exact Hnh|]. split; [reflexivity|].
    split; [exact Hbw|]. split; [exact Hbh|]. split.
    + intros Hle.
      assert (width < 2 ^ 53)
        by (assert (2000 < 2 ^ 53) by (vm_compute; reflexivity); lia).
      rewrite scaled_keeps in Hnw, Hnh by lia.
      injection Hnw as <-. injection Hnh as <-. split; reflexivity.
    + intros H1000 H64. rewrite H1000, H64, scaled_1000_64 in Hnw.
      injection Hnw as <-. reflexivity.
Qed.

(** A source of 1000 by 50 pixels. *)
Lemma render_preview_png_width_witness :
  let w := example_world (exits 0 "") (blank 1000 50) ["/up/b.png"] in
  render_preview_png "/up/b.png" "grayscale" 1 5000 150 180 w =
  (Raise (PrinterPalError "width must be between 64 and 2000"), w) /\
  fst (render_preview_png "/up/b.png" "grayscale" 1 64 150 180 w) = Ok "PNG 64x3" /\
  fst (render_preview_png "/up/b.png" "grayscale" 1 2000 150 180 w) = Ok "PNG 1000x50".
Proof.
  intros w.
  pose proof (render_preview_png_width "/up/b.png" "grayscale" 1 5000 150 180 w)
    as [Hout _].
  split; [apply Hout; right; lia|].
  split; vm_compute; reflexivity.
Defined.

(** The width 5000 on a source 1000 wide gives no PNG at all. *)
Lemma render_preview_png_width_5000 :
  let w := example_world (exits 0 "") (blank 1000 50) ["/up/b.png"] in
  render_preview_png "/up/b.png" "grayscale" 1 5000 150 180 w =
  (Raise (PrinterPalError "width must be between 64 and 2000"), w).
Proof. reflexivity. Qed.

Lemma spawned__images_to_pdf_bytes imgs : stable w_spawned (_images_to_pdf_bytes imgs).
Proof. unfold _images_to_pdf_bytes. repeat stable_step. Qed.

(** The pages that are rendered: one [pdftoppm] for each, in order. *)
Lemma render_pages_ok src mode dpi thr pages w imgs w' :
  render_pages src mode dpi thr pages w = (Ok imgs, w') ->
  exists prefixes,
    length prefixes = length pages /\
    w_spawned w' = w_spawned w ++ zip_with (pdftoppm_argv src dpi) pages prefixes.
Proof.
  revert w imgs. induction pages as [|p rest IH]; intros w imgs H.
  - cbn in H. injection H as _ <-. exists []. rewrite app_nil_r. auto.
  - cbn [render_pages] in H.
    apply bind_ok in H as (im & w1 & Hpage & H).
    apply bind_ok in H as (im2 & w2 & Hmode & H).
    unfold lift in Hmode. injection Hmode as _ <-.
    apply bind_ok in H as (rest' & w3 & Hrest & H).
    injection H as _ <-.
    apply _render_pdf_page_to_png_ok in Hpage as (td & t & Hsp & _).
    apply IH in Hrest as (prefixes & Hlen & Hsp').
    exists (os_path_join td "page" :: prefixes). split; [cbn; lia|].
    rewrite Hsp', Hsp, <- app_assoc. reflexivity.
Qed.

(** X11.  The commands of a successful conversion of a PDF are [pdfinfo] on
    the source and then one [pdftoppm] for each page from 1 to the number of
    pages, in this order; the number of pages is within the limit and is
    recorded in the metadata. *)
Theorem prepare_print_file_pdf_commands (src_path mode : string)
    (print_dpi max_pdf_pages threshold : Z) (w : world)
    (p : string) (meta : gmap string value) (w' : world) :
  lower (snd (splitext src_path)) = ".pdf" ->
  mode <> "raw" ->
  prepare_print_file src_path mode print_dpi max_pdf_pages threshold w =
    (Ok (p, meta), w') ->
  exists pages prefixes,
    meta !! "pages" = Some (VInt pages) /\
    pages <= max_pdf_pages /\
    length prefixes = Z.to_nat pages /\
    w_spawned w' =
      w_spawned w ++
      ["pdfinfo"; src_path] ::
      zip_with (pdftoppm_argv src_path print_dpi)
        (map (Z.add 1) (range pages)) prefixes.
Proof.
  intros Hext Hmode H. unfold prepare_print_file in H.
  apply bind_ok in H as (found & w0 & H0 & H).
  unfold os_path_exists in H0. injection H0 as <- <-.
  destruct (negb _); [discriminate|].
  destruct (String.eqb_spec mode "raw") as [->|_]; [contradiction|].
  rewrite Hext in H. cbn [String.eqb Ascii.eqb Bool.eqb] in H.
  apply bind_ok in H as (pages & w1 & H1 & H).
  destruct (max_pdf_pages <? pages) eqn:Hmax; [discriminate|].
  apply bind_ok in H as (imgs & w2 & H2 & H).
  apply bind_ok in H as (pdf & w3 & H3 & H).
  apply bind_ok in H as (out & w4 & H4 & H).
  cbn in H. inversion H; subst.
  apply pdf_page_count_ok in H1 as [_ Hsp1].
  apply render_pages_ok in H2 as (prefixes & Hlen & Hsp2).
  exists pages, prefixes. split; [|split; [lia|split]].
  - rewrite !lookup_insert_ne by discriminate. apply lookup_insert_eq.
  - rewrite Hlen, length_map. apply range_length.
  - rewrite (stable_run w_spawned _ _ _ _ (spawned_mkstemp _ _) H4).
    rewrite (stable_run w_spawned _ _ _ _ (spawned__images_to_pdf_bytes _) H3).
    rewrite Hsp2, Hsp1, <- app_assoc. reflexivity.
Qed.

Lemma prepare_print_file_pdf_commands_witness :
  exists p meta w' pages prefixes,
    prepare_print_file "/up/a.pdf" "bw" 200 30 180 uploads = (Ok (p, meta), w') /\
    meta !! "pages" = Some (VInt pages) /\
    pages <= 30 /\
    length prefixes = Z.to_nat pages /\
    w_spawned w' =
      w_spawned uploads ++
      ["pdfinfo"; "/up/a.pdf"] ::
      zip_with (pdftoppm_argv "/up/a.pdf" 200)
        (map (Z.add 1) (range pages)) prefixes.
Proof.
  destruct (run_ok (prepare_print_file "/up/a.pdf" "bw" 200 30 180 uploads))
    as [[p meta] H]; [vm_compute; reflexivity|].
  destruct (prepare_print_file_pdf_commands
              "/up/a.pdf" "bw" 200 30 180 uploads p meta _
              ltac:(vm_compute; reflexivity) ltac:(discriminate) H)
    as (pages & prefixes & Hres).
  exists p, meta, (snd (prepare_print_file "/up/a.pdf" "bw" 200 30 180 uploads)),
    pages, prefixes. split; [exact H|exact Hres].
Defined.

(** ** Printing and cancelling, further *)

Lemma fold_left_options (opts acc : list string) :
  fold_left
    (fun acc opt => if String.eqb opt "" then acc else acc ++ ["-o"; opt])
    opts acc =
  acc ++ flat_map (fun opt => ["-o"; opt])
           (List.filter (fun opt => negb (String.eqb opt "")) opts).
Proof.
  revert acc. induction opts as [|opt opts IH]; intros acc; cbn.
  - rewrite app_nil_r. reflexivity.
  - rewrite IH. destruct (String.eqb opt ""); cbn; [reflexivity|].
    rewrite <- app_assoc. reflexivity.
Qed.

(** Once the file is found and the copies are in range, [print_file] is
    [run_cmd] on the command line [lp_argv] under its handler. *)
Lemma print_file_run_cmd file_path printer copies title options timeout_s w :
  path_exists (w_files w) file_path = true ->
  1 <= copies <= 99 ->
  print_file file_path printer copies title options timeout_s w =
  try_except
    (run_cmd (lp_argv file_path printer copies title options) timeout_s true None)
    (fun e =>
       match e with
       | CommandError _ r =>
           raise (PrinterPalError
                    ("Printing failed: " +:+
                     str_or (strip (stderr r))
                       (str_or (strip (stdout r)) "unknown error")))
       | _ => raise e
       end) w.
Proof.
  intros Hex Hc. unfold print_file. unfold bind at 1. unfold os_path_exists.
  rewrite Hex. cbn [negb].
  replace ((copies <? 1) || (copies >? 99)) with false by lia.
  rewrite fold_left_options. unfold lp_argv.
  replace (match printer with
           | Some p => if String.eqb p "" then
                         ["lp"; "-n"; str_of_Z copies; "-t"; title]
                       else ["lp"; "-n"; str_of_Z copies; "-t"; title] ++ ["-d"; p]
           | None => ["lp"; "-n"; str_of_Z copies; "-t"; title]
           end)
    with (["lp"; "-n"; str_of_Z copies; "-t"; title] ++
          match printer with
          | Some p => if String.eqb p "" then [] else ["-d"; p]
          | None => []
          end)
    by (destruct printer as [p|]; [destruct (String.eqb p "")|]; reflexivity).
  rewrite <- !app_assoc. reflexivity.
Qed.

Lemma lp_argv_cons file_path printer copies title options :
  exists rest, lp_argv file_path printer copies title options = "lp" :: rest.
Proof. unfold lp_argv. cbn. eauto. Qed.

(** X12.  When the file exists and the copies are in range, [print_file]
    starts exactly one child: [lp] with the copies, the title, the printer
    if one is named, the two monochrome options, one [-o] for every option
    that is not empty, and the file last. *)
Theorem print_file_argv (file_path : string) (printer : option string)
    (copies : Z) (title : string) (options : option (list string))
    (timeout_s : float) (w : world) :
  path_exists (w_files w) file_path = true ->
  1 <= copies <= 99 ->
  w_spawned (snd (print_file file_path printer copies title options timeout_s w)) =
  w_spawned w ++ [lp_argv file_path printer copies title options].
Proof.
  intros Hex Hc. rewrite print_file_run_cmd by assumption.
  unfold try_except.
  pose proof (run_cmd_spawned (lp_argv file_path printer copies title options)
                timeout_s true None w) as Hsp.
  destruct (lp_argv_cons file_path printer copies title options) as [rest Hargs].
  assert (match lp_argv file_path printer copies title options with
          | [] => []
          | _ => [lp_argv file_path printer copies title options]
          end = [lp_argv file_path printer copies title options]) as Hm
    by (rewrite Hargs; reflexivity).
  rewrite Hm in Hsp. clear Hm Hargs.
  destruct (run_cmd _ timeout_s true None w) as [[res|e] w1]; cbn [snd] in *.
  - exact Hsp.
  - destruct e; exact Hsp.
Qed.

Lemma print_file_argv_witness :
  let w := example_world (exits 0 "") (blank 1 1) ["/up/a.pdf"] in
  w_spawned (snd (print_file "/up/a.pdf" (Some "HP") 2 "job" (Some ["media=A4"; ""])
                    (float_of_Z 30) w)) =
  [["lp"; "-n"; "2"; "-t"; "job"; "-d"; "HP";
    "-o"; "print-color-mode=monochrome"; "-o"; "ColorModel=Gray";
    "-o"; "media=A4"; "/up/a.pdf"]].
Proof.
  intros w.
  apply (print_file_argv "/up/a.pdf" (Some "HP") 2 "job" (Some ["media=A4"; ""])
           (float_of_Z 30) w).
  - vm_compute. reflexivity.
  - lia.
Defined.

Lemma print_file_copies_out_of_range_helper file_path printer copies title
    options timeout_s w :
  copies < 1 \/ 99 < copies ->
  fst (print_file file_path printer copies title options timeout_s w) =
  Raise (PrinterPalError
           (if path_exists (w_files w) file_path
            then "copies must be between 1 and 99"
            else "File does not exist: " +:+ file_path)).
Proof.
  intros Hc. unfold print_file, bind, os_path_exists.
  destruct (path_exists (w_files w) file_path); cbn; [|reflexivity].
  replace ((copies <? 1) || (copies >? 99)) with true by lia. reflexivity.
Qed.

Lemma print_file_result file_path printer copies title options timeout_s w :
  path_exists (w_files w) file_path = true ->
  1 <= copies <= 99 ->
  fst (print_file file_path printer copies title options timeout_s w) =
  match fst (run_cmd (lp_argv file_path printer copies title options)
               timeout_s true None w) with
  | Ok res => Ok res
  | Raise (CommandError _ res) =>
      Raise (PrinterPalError
               ("Printing failed: " +:+
                str_or (strip (stderr res))
                  (str_or (strip (stdout res)) "unknown error")))
  | Raise e => Raise e
  end.
Proof.
  intros Hex Hc. rewrite print_file_run_cmd by assumption.
  unfold try_except.
  destruct (run_cmd _ timeout_s true None w) as [[res|e] w1]; cbn;
    [reflexivity|]. destruct e; reflexivity.
Qed.

(** What [run_cmd] makes of an exception of [subprocess.run] that it does
    not catch, and what it raises otherwise. *)
Lemma run_cmd_uncaught prog rest t check env w e :
  uncaught (child_of (prog :: rest) w) = Some e ->
  fst (run_cmd (prog :: rest) t check env w) = Raise e.
Proof.
  rewrite run_cmd_cases. cbv zeta. unfold uncaught.
  destruct (child_of _ w) as [|created|rc out err created|cls msg created];
    try discriminate.
  destruct (not_found_class cls); [discriminate|].
  destruct (timeout_class cls); [discriminate|].
  intros [= <-]. reflexivity.
Qed.

Lemma run_cmd_raises prog rest t check env w e :
  fst (run_cmd (prog :: rest) t check env w) = Raise e ->
  (exists msg, e = PrinterPalError msg) \/
  (exists msg res rc,
     e = CommandError msg res /\ check = true /\ rc <> 0 /\
     exit_code (child_of (prog :: rest) w) = Some rc) \/
  uncaught (child_of (prog :: rest) w) = Some e.
Proof.
  rewrite run_cmd_cases. cbv zeta. unfold uncaught.
  destruct (child_of _ w) as [|created|rc out err created|cls msg created].
  - intros [= <-]. eauto.
  - intros [= <-]. eauto.
  - destruct check; cbn [andb]; [|discriminate].
    destruct (Z.eqb_spec rc 0) as [->|Hrc]; cbn [negb]; [discriminate|].
    intros [= <-]. right. left. eauto 10.
  - destruct (not_found_class cls); [intros [= <-]; eauto|].
    destruct (timeout_class cls); [intros [= <-]; eauto|].
    intros [= <-]. right. right. reflexivity.
Qed.

Lemma plain_or_uncaught_run_cmd prog rest t env w :
  plain_or_uncaught (child_of (prog :: rest) w)
    (fst (run_cmd (prog :: rest) t false env w)).
Proof.
  destruct (fst (run_cmd (prog :: rest) t false env w)) as [res|e] eqn:H;
    [exact I|].
  apply run_cmd_raises in H as [[msg ->]|[(msg & res & rc & _ & [=] & _)|H]];
    [exact I|].
  destruct e; try exact H. exact I.
Qed.

(** X13.  [print_file] raises nothing but a plain [PrinterPalError] or the
    exception that [subprocess.run] raised for [lp] and [run_cmd] does not
    catch, which goes on to the caller as it is.  When [lp] exits with a code
    that is not zero, the message is what [lp] wrote to its error stream, or
    else to its output, or else "unknown error". *)
Theorem print_file_errors (file_path : string) (printer : option string)
    (copies : Z) (title : string) (options : option (list string))
    (timeout_s : float) (w : world) :
  let c := child_of (lp_argv file_path printer copies title options) w in
  let r := fst (print_file file_path printer copies title options timeout_s w) in
  plain_or_uncaught c r /\
  (forall e,
     path_exists (w_files w) file_path = true ->
     1 <= copies <= 99 ->
     uncaught c = Some e ->
     r = Raise e) /\
  (forall rc out err created,
     path_exists (w_files w) file_path = true ->
     1 <= copies <= 99 ->
     c = ChildExit rc out err created ->
     rc <> 0 ->
     r = Raise (PrinterPalError
                  ("Printing failed: " +:+
                   str_or (strip err) (str_or (strip out) "unknown error")))).
Proof.
  cbv zeta. split; [|split].
  - destruct (Z.lt_ge_cases copies 1) as [Hlo|Hlo];
      [|destruct (Z.lt_ge_cases 99 copies) as [Hhi|Hhi]].
    + rewrite print_file_copies_out_of_range_helper by (left; exact Hlo).
      exact I.
    + rewrite print_file_copies_out_of_range_helper by (right; exact Hhi).
      exact I.
    + destruct (path_exists (w_files w) file_path) eqn:Hex.
      * rewrite print_file_result by (assumption || lia).
        destruct (lp_argv_cons file_path printer copies title options)
          as [rest ->].
        destruct (fst (run_cmd _ timeout_s true None w)) as [res|e] eqn:Hrun;
          [exact I|].
        apply run_cmd_raises in Hrun
          as [[msg ->]|[(msg & res & rc & -> & _)|Hrun]]; [exact I..|].
        destruct e; try exact Hrun; exact I.
      * unfold print_file, bind, os_path_exists. rewrite Hex. exact I.
  - intros e Hex Hc He.
    rewrite print_file_result by assumption.
    destruct (lp_argv_cons file_path printer copies title options)
      as [rest Hargs]. rewrite Hargs in *.
    rewrite (run_cmd_uncaught _ _ _ _ _ _ _ He).
    unfold uncaught in He.
    destruct (child_of _ w) as [| | |cls msg created]; try discriminate.
    destruct (_ || _); [discriminate|]. injection He as <-.
    unfold builtin_exn. destruct (String.eqb cls "ValueError"); reflexivity.
  - intros rc out err created Hex Hc Hchild Hrc.
    rewrite print_file_result by assumption. rewrite run_cmd_cases.
    destruct (lp_argv_cons file_path printer copies title options)
      as [rest Hargs]. rewrite Hargs in *. rewrite Hchild. cbn.
    destruct (Z.eqb_spec rc 0) as [->|_]; [contradiction|]. reflexivity.
Qed.

(** A host where [lp] cannot be started for a title that holds a NUL. *)
Lemma print_file_errors_witness :
  let w := example_world (exits 1 "no default destination") (blank 1 1)
             ["/up/a.pdf"] in
  let w0 := example_world (fun _ _ => ChildRaises "ValueError" "embedded null byte" [])
              (blank 1 1) ["/up/a.pdf"] in
  fst (print_file "/up/a.pdf" None 1 "job" None (float_of_Z 30) w) =
  Raise (PrinterPalError "Printing failed: no default destination") /\
  fst (print_file "/up/a.pdf" None 1 (String zero "") None (float_of_Z 30) w0) =
  Raise (ValueError "embedded null byte").
Proof.
  intros w w0. split.
  - pose proof (print_file_errors "/up/a.pdf" None 1 "job" None (float_of_Z 30) w)
      as (_ & _ & Hmsg).
    apply (Hmsg 1 "no default destination" "" []).
    + vm_compute. reflexivity.
    + lia.
    + reflexivity.
    + discriminate.
  - pose proof (print_file_errors "/up/a.pdf" None 1 (String zero "") None
                  (float_of_Z 30) w0) as (_ & Hraise & _).
    apply Hraise.
    + vm_compute. reflexivity.
    + lia.
    + reflexivity.
Defined.

Lemma job_id_char_not_LF c : job_id_char c = true -> (code c =? 10) = false.
Proof.
  intros H. destruct (code c =? 10) eqn:Hc; [|reflexivity].
  apply Z.eqb_eq in Hc. unfold job_id_char, between in H. rewrite Hc in H.
  vm_compute in H. discriminate.
Qed.

(** The repetition of the class up to the end of the subject, where [$]
    matches. *)
Lemma class_star_eol s :
  class_star job_id_char s (fun s' => at_eol s' && true) =
  forallb job_id_char (list_ascii_of_string (drop_final_newline s)).
Proof.
  induction s as [|c s IH]; [reflexivity|].
  cbn [class_star]. rewrite IH.
  destruct (job_id_char c) eqn:Hc.
  - pose proof (job_id_char_not_LF c Hc) as Hlf.
    destruct s as [|d s]; cbn [drop_final_newline at_eol list_ascii_of_string forallb].
    + rewrite Hlf. cbn. rewrite Hc. reflexivity.
    + rewrite Hc. cbn [andb]. rewrite orb_false_r. reflexivity.
  - destruct s as [|d s]; cbn [drop_final_newline at_eol list_ascii_of_string forallb].
    + destruct (code c =? 10); cbn; [reflexivity|]. rewrite Hc. reflexivity.
    + rewrite Hc. reflexivity.
Qed.

Lemma re_match_JOB_ID_RE s : re_match JOB_ID_RE s = valid_job_id s.
Proof.
  unfold re_match, JOB_ID_RE, valid_job_id. cbn [matches andb]. cbv zeta.
  unfold class_plus. destruct s as [|c s]; [reflexivity|].
  destruct (job_id_char c) eqn:Hc.
  - rewrite class_star_eol. pose proof (job_id_char_not_LF c Hc) as Hlf.
    destruct s as [|d s]; cbn [drop_final_newline].
    + rewrite Hlf. cbn. rewrite Hc. reflexivity.
    + cbn [String.eqb negb andb list_ascii_of_string forallb]. rewrite Hc.
      reflexivity.
  - destruct s as [|d s]; cbn [drop_final_newline].
    + destruct (code c =? 10); cbn; [reflexivity|]. rewrite Hc. reflexivity.
    + cbn [String.eqb negb andb list_ascii_of_string forallb]. rewrite Hc.
      reflexivity.
Qed.

(** X14.  [cancel_job] starts [cancel] with the job id exactly when the id is
    a non-empty run of the characters [A-Za-z0-9_.-], possibly followed by
    one newline; every other id is refused with "Invalid job id", the world
    untouched. *)
Theorem cancel_job_validation (job_id : string) (w : world) :
  if valid_job_id job_id
  then w_spawned (snd (cancel_job job_id w)) = w_spawned w ++ [["cancel"; job_id]]
  else cancel_job job_id w = (Raise (PrinterPalError "Invalid job id"), w).
Proof.
  unfold cancel_job. rewrite re_match_JOB_ID_RE.
  destruct (valid_job_id job_id) eqn:Hv.
  - destruct job_id as [|c s]; [discriminate|]. cbn [String.eqb orb negb].
    unfold bind.
    pose proof (run_cmd_spawned ["cancel"; String c s] _safe_timeout true None w)
      as Hsp.
    destruct (run_cmd _ _safe_timeout true None w) as [[res|e] w1]; exact Hsp.
  - rewrite orb_true_r. reflexivity.
Qed.

(** ** The status functions *)

(** X15.  [cups_available] is true when [lpstat -r] ran to its end,
    whatever its exit code, and false when the command is missing or timed
    out; an exception of [subprocess.run] that [run_cmd] does not catch
    goes on to the caller. *)
Theorem cups_available_exited (w : world) :
  let c := child_of ["lpstat"; "-r"] w in
  fst (cups_available w) =
  match uncaught c with
  | Some e => Raise e
  | None => Ok (exited c)
  end.
Proof.
  cbv zeta. unfold cups_available, try_except, bind.
  pose proof (run_cmd_cases ["lpstat"; "-r"] _safe_timeout false None w) as H.
  cbv zeta in H. unfold uncaught.
  destruct (run_cmd _ _safe_timeout false None w) as [[res|e] w1];
    cbn [fst] in H;
    destruct (child_of _ w) as [|created|rc out err created|cls msg created];
    cbn in H; try discriminate; try (injection H as ->; reflexivity);
    try reflexivity.
  - destruct (not_found_class cls); [discriminate|].
    destruct (timeout_class cls); discriminate.
  - unfold builtin_exn in *.
    destruct (not_found_class cls); [injection H as ->; reflexivity|].
    destruct (timeout_class cls); [injection H as ->; reflexivity|].
    cbn [orb]. destruct (String.eqb cls "ValueError"); injection H as ->;
      reflexivity.
Qed.

Lemma prefix_spec p s : String.prefix p s = true <-> exists b, s = p +:+ b.
Proof.
  revert s. induction p as [|c p IH]; intros s.
  - split; [eauto|]. destruct s; reflexivity.
  - destruct s as [|d s]; cbn [String.prefix].
    + split; [discriminate|intros [b [=]]].
    + destruct (Ascii.ascii_dec c d) as [->|Hne].
      * rewrite IH. split; intros [b Hb]; exists b.
        -- rewrite Hb. reflexivity.
        -- change (String d p +:+ b) with (String d (p +:+ b)) in Hb.
           injection Hb as Hb. exact Hb.
      * split; [discriminate|]. intros [b Hb].
        change (String c p +:+ b) with (String c (p +:+ b)) in Hb.
        injection Hb as Hb _. congruence.
Qed.

Lemma contains_spec sub s :
  contains sub s = true <-> exists a b, s = a +:+ sub +:+ b.
Proof.
  induction s as [|c s IH]; cbn [contains].
  - rewrite orb_false_r, prefix_spec. split.
    + intros [b Hb]. exists "", b. exact Hb.
    + intros (a & b & Hab). destruct a; [eauto|discriminate].
  - rewrite orb_true_iff, IH, prefix_spec. split.
    + intros [[b Hb]|(a & b & Hab)].
      * exists "", b. exact Hb.
      * exists (String c a), b. rewrite Hab. reflexivity.
    + intros (a & b & Hab). destruct a as [|d a].
      * left. eauto.
      * right. change (String d a +:+ sub +:+ b)
          with (String d (a +:+ sub +:+ b)) in Hab.
        injection Hab as _ Hab. eauto.
Qed.

(** X16.  Unless [subprocess.run] raises an exception that [run_cmd] does
    not catch, which then goes on to the caller, [scheduler_status] returns.
    It reports the scheduler as running exactly when [lpstat -r] ran to its
    end and its output, in lower case, has "running" somewhere in it (as
    "scheduler is not running" has); it reports an error exactly when the
    command did not run to its end. *)
Theorem scheduler_status_running (w : world) :
  let c := child_of ["lpstat"; "-r"] w in
  match uncaught c with
  | Some e => fst (scheduler_status w) = Raise e
  | None =>
      exists d,
        fst (scheduler_status w) = Ok d /\
        (d !! "cups_scheduler_running" = Some (VBool true) <->
         exited c = true /\
         exists a b, lower (child_stdout c) = a +:+ "running" +:+ b) /\
        (is_Some (d !! "error") <-> exited c = false)
  end.
Proof.
  cbv zeta. unfold scheduler_status, try_except, bind.
  pose proof (run_cmd_cases ["lpstat"; "-r"] _safe_timeout false None w) as H.
  cbv zeta in H. unfold uncaught.
  assert (forall msg,
            exists d : gmap string value,
              Ok (<["error" := VStr msg]>
                    (<["raw" := VStr ""]> {["cups_scheduler_running" := VBool false]}))
              = Ok d /\
              (d !! "cups_scheduler_running" = Some (VBool true) <->
               false = true /\ exists a b, lower "" = a +:+ "running" +:+ b) /\
              (is_Some (d !! "error") <-> false = false)) as Herr.
  { intros msg. eexists. split; [reflexivity|]. split.
    - rewrite !lookup_insert_ne by discriminate. rewrite lookup_singleton_eq.
      split; [discriminate|intros [[=] _]].
    - rewrite lookup_insert_eq. split; eauto. }
  destruct (run_cmd _ _safe_timeout false None w) as [[res|e] w1];
    cbn [fst] in H;
    destruct (child_of _ w) as [|created|rc out err created|cls msg created];
    cbn in H; try discriminate; cbn [exited child_stdout].
  - injection H as ->. cbn [stdout]. eexists. split; [reflexivity|]. split.
    + rewrite lookup_insert_ne by discriminate. rewrite lookup_singleton_eq.
      rewrite <- contains_spec. split.
      * intros [= ->]. auto.
      * intros [_ ->]. reflexivity.
    + rewrite lookup_insert_ne by discriminate.
      rewrite lookup_singleton_ne by discriminate.
      split; [intros [x [=]]|discriminate].
  - destruct (not_found_class cls); [discriminate|].
    destruct (timeout_class cls); discriminate.
  - injection H as ->. apply Herr.
  - injection H as ->. apply Herr.
  - unfold builtin_exn in *.
    destruct (not_found_class cls); [injection H as ->; apply Herr|].
    destruct (timeout_class cls); [injection H as ->; apply Herr|].
    cbn [orb]. destruct (String.eqb cls "ValueError"); injection H as ->;
      reflexivity.
Qed.

Lemma no_space_rev_app cur c :
  no_space (string_of_list_ascii (rev cur)) = true -> isspace c = false ->
  no_space (string_of_list_ascii (rev (c :: cur))) = true.
Proof.
  unfold no_space. rewrite !list_ascii_of_string_of_list_ascii.
  cbn [rev]. rewrite forallb_app. cbn [forallb]. intros -> ->. reflexivity.
Qed.

Lemma string_of_rev_nonempty c cur : string_of_list_ascii (rev (c :: cur)) <> "".
Proof.
  intros H. apply (f_equal list_ascii_of_string) in H.
  rewrite list_ascii_of_string_of_list_ascii in H. cbn in H.
  destruct (rev cur); discriminate.
Qed.

Lemma split_ws_from_words cur s :
  no_space (string_of_list_ascii (rev cur)) = true ->
  Forall (fun f => f <> "" /\ no_space f = true) (split_ws_from cur s).
Proof.
  revert cur. induction s as [|c s IH]; intros cur Hcur; cbn [split_ws_from].
  - destruct cur as [|d cur]; constructor; [|constructor].
    split; [apply string_of_rev_nonempty|exact Hcur].
  - destruct (isspace c) eqn:Hc.
    + destruct cur as [|d cur]; [apply IH; reflexivity|].
      constructor; [|apply IH; reflexivity].
      split; [apply string_of_rev_nonempty|exact Hcur].
    + apply IH. apply no_space_rev_app; assumption.
Qed.

Lemma split_ws_words s : Forall (fun f => f <> "" /\ no_space f = true) (split_ws s).
Proof. apply split_ws_from_words. reflexivity. Qed.

Lemma job_of_line_fields line j :
  job_of_line line = Some j ->
  a_word (j !! "job_id") /\ a_word (j !! "user") /\ a_word (j !! "size") /\
  j !! "raw" = Some (VStr (strip line)) /\ strip line <> "".
Proof.
  unfold job_of_line. cbv zeta.
  destruct (String.eqb_spec (strip line) "") as [|Hne]; [discriminate|].
  pose proof (split_ws_words (strip line)) as Hw.
  destruct (split_ws (strip line)) as [|a [|b [|c rest]]]; try discriminate.
  intros [= <-].
  apply Forall_cons in Hw as [[Ha Ha'] Hw].
  apply Forall_cons in Hw as [[Hb Hb'] Hw].
  apply Forall_cons in Hw as [[Hc Hc'] _].
  repeat split; try assumption.
  - exists a. rewrite !lookup_insert_ne by discriminate.
    rewrite lookup_singleton_eq. auto.
  - exists b. rewrite !lookup_insert_ne by discriminate.
    rewrite lookup_insert_eq. auto.
  - exists c. rewrite lookup_insert_ne by discriminate.
    rewrite lookup_insert_eq. auto.
Qed.

Lemma omap_length_le {A B} (f : A -> option B) (l : list A) :
  (length (omap f l) <= length l)%nat.
Proof.
  induction l as [|a l IH]; cbn; [lia|]. destruct (f a); cbn; lia.
Qed.

(** X17.  Every job [queue_jobs] reports has a job id, a user and a size
    that are not empty and hold no white space, and a raw line that is not
    empty; there are no more jobs than lines of output. *)
Theorem queue_jobs_fields (w : world) (jobs : list (gmap string value))
    (w' : world) :
  queue_jobs w = (Ok jobs, w') ->
  Forall (fun j =>
            a_word (j !! "job_id") /\ a_word (j !! "user") /\
            a_word (j !! "size") /\
            exists raw, j !! "raw" = Some (VStr raw) /\ raw <> "") jobs /\
  (length jobs <=
   length (splitlines (child_stdout (child_of ["lpstat"; "-o"] w))))%nat.
Proof.
  unfold queue_jobs. intros H. apply bind_ok in H as (res & w1 & Hrun & H).
  injection H as <- _.
  pose proof (run_cmd_cases ["lpstat"; "-o"] _safe_timeout false None w) as Hc.
  rewrite Hrun in Hc. cbn [fst] in Hc.
  cbv zeta in Hc.
  destruct (child_of _ w) as [|created|rc out err created|cls msg created];
    cbn in Hc; try discriminate.
  2:{ destruct (not_found_class cls); [discriminate|].
      destruct (timeout_class cls); discriminate. }
  injection Hc as ->. cbn [stdout child_stdout].
  split.
  - apply List.Forall_forall. intros j Hj.
    apply list_elem_of_In, list_elem_of_omap in Hj as (line & _ & Hline).
    apply job_of_line_fields in Hline as (H1 & H2 & H3 & H4 & H5). eauto 10.
  - apply omap_length_le.
Qed.

Lemma queue_jobs_fields_witness :
  let w := example_world
             (exits 0 ("HP-12  alice  1024  Mon" +:+ String LF "short line"))
             (blank 1 1) [] in
  exists jobs,
    fst (queue_jobs w) = Ok jobs /\ length jobs = 1%nat /\
    Forall (fun j =>
              a_word (j !! "job_id") /\ a_word (j !! "user") /\
              a_word (j !! "size") /\
              exists raw, j !! "raw" = Some (VStr raw) /\ raw <> "") jobs.
Proof.
  intros w. destruct (run_ok (queue_jobs w)) as [jobs H]; [vm_compute; reflexivity|].
  exists jobs. split; [rewrite H; reflexivity|]. split.
  - assert (length (default [] (match fst (queue_jobs w) with
                                 | Ok l => Some l | Raise _ => None end)) = 1%nat)
      as Hlen by (vm_compute; reflexivity).
    rewrite H in Hlen. exact Hlen.
  - exact (proj1 (queue_jobs_fields w jobs _ H)).
Defined.

Lemma queue_jobs_result w :
  fst (queue_jobs w) =
  match fst (run_cmd ["lpstat"; "-o"] _safe_timeout false None w) with
  | Ok res => Ok (omap job_of_line (splitlines (stdout res)))
  | Raise e => Raise e
  end.
Proof.
  unfold queue_jobs, bind.
  destruct (run_cmd _ _safe_timeout false None w) as [[res|e] w1]; reflexivity.
Qed.

Lemma printer_detail_result name w :
  name <> "" ->
  fst (printer_detail name w) =
  match fst (run_cmd ["lpstat"; "-l"; "-p"; name] _safe_timeout false None w) with
  | Ok res => Ok (<["detail" := VStr (strip (stdout res))]> {["name" := VStr name]})
  | Raise e => Raise e
  end.
Proof.
  intros Hne. unfold printer_detail, bind.
  destruct (String.eqb_spec name "") as [->|_]; [contradiction|].
  destruct (run_cmd _ _safe_timeout false None w) as [[res|e] w1]; reflexivity.
Qed.

Lemma run_cmd_unchecked_exited prog rest t env w :
  exited (child_of (prog :: rest) w) = true ->
  exists res, fst (run_cmd (prog :: rest) t false env w) = Ok res.
Proof.
  rewrite run_cmd_cases. cbv zeta.
  destruct (child_of _ w); try discriminate. intros _. cbn. eauto.
Qed.

(** X18.  The queries [queue_jobs], [job_stats] and [printer_detail] make no
    error of an exit code of [lpstat].  Each of the three raises nothing but
    a plain [PrinterPalError] (the command is missing or timed out) or the
    exception that [subprocess.run] raised for one of its commands and
    [run_cmd] does not catch; the first and the last return whenever the
    command ran to its end; and for an empty name [printer_detail] starts
    nothing. *)
Theorem status_queries_plain (name : string) (w : world) :
  plain_or_uncaught (child_of ["lpstat"; "-o"] w) (fst (queue_jobs w)) /\
  (forall e,
     fst (job_stats w) = Raise e ->
     (exists msg, e = PrinterPalError msg) \/
     uncaught (child_of ["lpstat"; "-W"; "completed"; "-o"] w) = Some e \/
     uncaught
       (child_of ["lpstat"; "-o"]
          (snd (run_cmd ["lpstat"; "-W"; "completed"; "-o"] _safe_timeout false
                  None w))) = Some e) /\
  plain_or_uncaught (child_of ["lpstat"; "-l"; "-p"; name] w)
    (fst (printer_detail name w)) /\
  (exited (child_of ["lpstat"; "-o"] w) = true ->
   exists jobs, fst (queue_jobs w) = Ok jobs) /\
  (exited (child_of ["lpstat"; "-l"; "-p"; name] w) = true ->
   exists d, fst (printer_detail name w) = Ok d) /\
  printer_detail "" w = (Ok ∅, w).
Proof.
  split; [|split; [|split; [|split; [|split]]]].
  - rewrite queue_jobs_result.
    pose proof (plain_or_uncaught_run_cmd "lpstat" ["-o"] _safe_timeout None w) as H.
    destruct (fst (run_cmd _ _safe_timeout false None w)); [exact I|exact H].
  - intros e. unfold job_stats, bind.
    destruct (run_cmd ["lpstat"; "-W"; "completed"; "-o"] _safe_timeout false None w)
      as [[res|e1] w1] eqn:Hrun; cbn [fst snd].
    + pose proof (queue_jobs_result w1) as Hq.
      destruct (queue_jobs w1) as [[jobs|e2] w2]; cbn [fst] in *; [discriminate|].
      intros [= ->].
      destruct (fst (run_cmd ["lpstat"; "-o"] _safe_timeout false None w1))
        as [res2|e2] eqn:Hrun2; [discriminate|]. injection Hq as ->.
      apply run_cmd_raises in Hrun2
        as [Hp|[(msg & res' & rc & _ & [=] & _)|Hu]]; auto.
    + intros [= ->].
      assert (fst (run_cmd ["lpstat"; "-W"; "completed"; "-o"] _safe_timeout false
                     None w) = Raise e) as Hrun' by (rewrite Hrun; reflexivity).
      apply run_cmd_raises in Hrun'
        as [Hp|[(msg & res' & rc & _ & [=] & _)|Hu]]; auto.
  - destruct (String.eqb_spec name "") as [->|Hne]; [exact I|].
    rewrite printer_detail_result by exact Hne.
    pose proof (plain_or_uncaught_run_cmd "lpstat" ["-l"; "-p"; name] _safe_timeout
                  None w) as H.
    destruct (fst (run_cmd _ _safe_timeout false None w)); [exact I|exact H].
  - intros Hex. rewrite queue_jobs_result.
    destruct (run_cmd_unchecked_exited "lpstat" ["-o"] _safe_timeout None w Hex)
      as [res ->]. eauto.
  - intros Hex. destruct (String.eqb_spec name "") as [->|Hne];
      [eexists; reflexivity|].
    rewrite printer_detail_result by exact Hne.
    destruct (run_cmd_unchecked_exited "lpstat" ["-l"; "-p"; name] _safe_timeout
                None w Hex) as [res ->]. eauto.
  - reflexivity.
Qed.

Lemma word_no_space s : no_space (word s) = true.
Proof.
  unfold no_space. induction s as [|c s IH]; [reflexivity|].
  cbn [word]. destruct (isspace c) eqn:Hc; [reflexivity|].
  cbn [list_ascii_of_string forallb]. rewrite Hc. exact IH.
Qed.

Lemma search_destination_word s g :
  search_destination s = Some g -> g <> "" /\ no_space g = true.
Proof.
  induction s as [|c s IH]; cbn [search_destination].
  - destruct (String.prefix "destination:" ""); [|discriminate].
    destruct (word _) eqn:Hw; [discriminate|]. intros [= <-].
    split; [discriminate|]. rewrite <- Hw. apply word_no_space.
  - destruct (String.prefix "destination:" (String c s)).
    + destruct (word (skip_spaces (substr_from 12 (String c s)))) eqn:Hw;
        [exact IH|].
      intros [= <-]. split; [discriminate|]. rewrite <- Hw. apply word_no_space.
    + exact IH.
Qed.

Lemma word_app_space name rest :
  no_space name = true -> word (name +:+ String LF rest) = name.
Proof.
  unfold no_space. induction name as [|c name IH]; intros H.
  - reflexivity.
  - cbn [list_ascii_of_string forallb] in H. apply andb_true_iff in H as [Hc H].
    change (String c name +:+ String LF rest)
      with (String c (name +:+ String LF rest)).
    cbn [word]. apply negb_true_iff in Hc. rewrite Hc, IH by exact H.
    reflexivity.
Qed.

Lemma skip_spaces_word name rest :
  name <> "" -> no_space name = true ->
  skip_spaces (name +:+ rest) = name +:+ rest.
Proof.
  destruct name as [|c name]; [contradiction|]. intros _ H.
  unfold no_space in H. cbn [list_ascii_of_string forallb] in H.
  apply andb_true_iff in H as [Hc _]. apply negb_true_iff in Hc.
  change (String c name +:+ rest) with (String c (name +:+ rest)).
  cbn [skip_spaces]. rewrite Hc. reflexivity.
Qed.

Lemma substring_all s : String.substring 0 (String.length s) s = s.
Proof.
  induction s as [|c s IH]; [reflexivity|].
  cbn [String.length String.substring]. rewrite IH. reflexivity.
Qed.

Lemma substr_from_app p s :
  substr_from (Z.of_nat (String.length p)) (p +:+ s) = s.
Proof.
  unfold substr_from. rewrite Nat2Z.id.
  induction p as [|c p IH].
  - change ("" +:+ s) with s. cbn [String.length]. rewrite Nat.sub_0_r.
    apply substring_all.
  - exact IH.
Qed.

Lemma search_destination_skip c s :
  String.prefix "destination:" (String c s) = false ->
  search_destination (String c s) = search_destination s.
Proof. intros H. cbn [search_destination]. rewrite H. reflexivity. Qed.

Lemma search_destination_here rest c g :
  word (skip_spaces rest) = String c g ->
  search_destination ("destination:" +:+ rest) = Some (String c g).
Proof.
  intros H.
  pose proof (substr_from_app "destination:" rest) as Hsub.
  change (Z.of_nat (String.length "destination:")) with 12 in Hsub.
  change ("destination:" +:+ rest) with (String "d" ("estination:" +:+ rest)) in *.
  cbn [search_destination].
  replace (String.prefix "destination:" (String "d" ("estination:" +:+ rest)))
    with true by (symmetry; apply prefix_spec; exists rest; reflexivity).
  rewrite Hsub, H. reflexivity.
Qed.

Lemma search_destination_lpstat name :
  name <> "" -> no_space name = true ->
  search_destination
    ("system default destination: " +:+ name +:+ String LF "") = Some name.
Proof.
  intros Hne Hns.
  change ("system default destination: " +:+ name +:+ String LF "")
    with ("system default " +:+ "destination:" +:+ " " +:+ name +:+ String LF "").
  change ("system default " +:+ "destination:" +:+ " " +:+ name +:+ String LF "")
    with (String "s" (String "y" (String "s" (String "t" (String "e" (String "m"
         (String " " (String "d" (String "e" (String "f" (String "a" (String "u"
         (String "l" (String "t" (String " "
           ("destination:" +:+ " " +:+ name +:+ String LF "")))))))))))))))).
  do 15 (rewrite search_destination_skip by reflexivity).
  destruct name as [|c name]; [contradiction|].
  apply search_destination_here.
  change (skip_spaces (" " +:+ String c name +:+ String LF ""))
    with (skip_spaces (String c name +:+ String LF "")).
  rewrite skip_spaces_word, word_app_space by assumption. reflexivity.
Qed.

(** X19.  Unless [subprocess.run] raises an exception that [run_cmd] does
    not catch, which then goes on to the caller, [get_default_printer]
    returns.  Its result holds no white space, and is empty when
    [lpstat -d] is missing or timed out; from the line "system default
    destination: NAME" it reads NAME. *)
Theorem get_default_printer_reads (w : world) :
  let c := child_of ["lpstat"; "-d"] w in
  match uncaught c with
  | Some e => fst (get_default_printer w) = Raise e
  | None =>
      exists name,
        fst (get_default_printer w) = Ok name /\
        no_space name = true /\
        (exited c = false -> name = "") /\
        (forall printer,
           printer <> "" -> no_space printer = true ->
           child_stdout c =
             "system default destination: " +:+ printer +:+ String LF "" ->
           name = printer)
  end.
Proof.
  cbv zeta. unfold get_default_printer, try_except, bind.
  pose proof (run_cmd_cases ["lpstat"; "-d"] _safe_timeout false None w) as H.
  cbv zeta in H. unfold uncaught.
  assert (exists name : string,
            Ok "" = Ok name /\ no_space name = true /\
            (false = false -> name = "") /\
            (forall printer,
               printer <> "" -> no_space printer = true ->
               "" = "system default destination: " +:+ printer +:+ String LF "" ->
               name = printer)) as Herr.
  { eexists. split; [reflexivity|]. split; [reflexivity|split; [reflexivity|]].
    intros printer Hne _ Habs. destruct printer; discriminate. }
  destruct (run_cmd _ _safe_timeout false None w) as [[res|e] w1];
    cbn [fst] in H;
    destruct (child_of _ w) as [|created|rc out err created|cls msg created];
    cbn in H; try discriminate; cbn [exited child_stdout].
  - injection H as ->. cbn [stdout]. eexists. split; [reflexivity|].
    split; [|split; [discriminate|]].
    + destruct (search_destination out) as [g|] eqn:Hs; [|reflexivity].
      apply search_destination_word in Hs as [_ Hs]. exact Hs.
    + intros printer Hne Hns ->.
      rewrite search_destination_lpstat by assumption. reflexivity.
  - destruct (not_found_class cls); [discriminate|].
    destruct (timeout_class cls); discriminate.
  - injection H as ->. exact Herr.
  - injection H as ->. exact Herr.
  - unfold builtin_exn in *.
    destruct (not_found_class cls); [injection H as ->; exact Herr|].
    destruct (timeout_class cls); [injection H as ->; exact Herr|].
    cbn [orb]. destruct (String.eqb cls "ValueError"); injection H as ->;
      reflexivity.
Qed.

Lemma get_default_printer_reads_witness :
  let w := example_world
             (exits 0 ("system default destination: HP_LaserJet" +:+ String LF ""))
             (blank 1 1) [] in
  let w0 := example_world
              (fun _ _ => ChildRaises "PermissionError" "[Errno 13] Permission denied" [])
              (blank 1 1) [] in
  fst (get_default_printer w) = Ok "HP_LaserJet" /\
  fst (get_default_printer w0) =
  Raise (OtherError "PermissionError" "[Errno 13] Permission denied").
Proof.
  intros w w0. split.
  - pose proof (get_default_printer_reads w) as H. cbv zeta in H.
    change (uncaught (child_of ["lpstat"; "-d"] w)) with (@None exn) in H.
    cbv iota in H. destruct H as (name & -> & _ & _ & Hname).
    f_equal. apply Hname.
    + discriminate.
    + vm_compute. reflexivity.
    + reflexivity.
  - exact (get_default_printer_reads w0).
Defined.

(** ** The root helper *)

(** X20.  Without the root helper [ensure_airprint_via_root_helper] raises
    at once, starting nothing; with it, it starts [sudo -n HELPER
    ensure-airprint] and nothing else, and returns, with "ok" set, exactly
    when that command exits with code 0.  In every other case it raises: the
    exception that [subprocess.run] raised and [run_cmd] does not catch, if
    there is one, and a [PrinterPalError] otherwise. *)
Theorem ensure_airprint_outcomes (ROOT_HELPER : string) (timeout_s : float)
    (w : world) :
  let r := ensure_airprint_via_root_helper ROOT_HELPER timeout_s w in
  let args := ["sudo"; "-n"; ROOT_HELPER; "ensure-airprint"] in
  if path_exists (w_files w) ROOT_HELPER then
    w_spawned (snd r) = w_spawned w ++ [args] /\
    match exit_code (child_of args w), uncaught (child_of args w) with
    | Some 0, _ =>
        fst r = Ok (<["output" := VStr (strip (child_stdout (child_of args w)))]>
                      {["ok" := VBool true]})
    | _, Some e => fst r = Raise e
    | _, None => exists e, fst r = Raise e /\ is_PrinterPalError e = true
    end
  else
    r = (Raise (PrinterPalError ("Root helper not found at " +:+ ROOT_HELPER)), w).
Proof.
  cbv zeta. unfold ensure_airprint_via_root_helper, bind, os_path_exists.
  cbv beta iota.
  destruct (path_exists (w_files w) ROOT_HELPER); [|reflexivity].
  cbn [negb].
  pose proof (run_cmd_cases ["sudo"; "-n"; ROOT_HELPER; "ensure-airprint"]
                timeout_s true None w) as H.
  pose proof (run_cmd_spawned ["sudo"; "-n"; ROOT_HELPER; "ensure-airprint"]
                timeout_s true None w) as Hsp.
  cbv zeta in H. unfold uncaught.
  destruct (run_cmd _ timeout_s true None w) as [[res|e] w1];
    cbn [fst snd] in *; (split; [exact Hsp|]);
    destruct (child_of _ w) as [|created|rc out err created|cls msg created];
    cbn [exit_code child_stdout] in *; try discriminate.
  - cbn in H. destruct (Z.eqb_spec rc 0) as [->|Hrc]; [|discriminate].
    injection H as ->. reflexivity.
  - destruct (not_found_class cls); [discriminate|].
    destruct (timeout_class cls); discriminate.
  - injection H as ->. eauto.
  - injection H as ->. eauto.
  - cbn in H. destruct (Z.eqb_spec rc 0) as [->|Hrc]; [discriminate|].
    injection H as ->. destruct rc; [contradiction|eauto..].
  - unfold builtin_exn in *.
    destruct (not_found_class cls); [injection H as ->; cbn; eauto|].
    destruct (timeout_class cls); [injection H as ->; cbn; eauto|].
    cbn [orb]. destruct (String.eqb cls "ValueError"); injection H as ->;
      reflexivity.
Qed.

(** ** Sizes for people *)

Lemma human_bytes_below_1024 :
  forallb (fun n => match human_bytes n with
                    | Ok s => String.eqb s (str_of_Z n +:+ " B")
                    | Raise _ => false
                    end) (range 1024) = true.
Proof. vm_compute. reflexivity. Qed.

Lemma in_range n k : 0 <= n < k -> In n (range k).
Proof.
  intros Hn. unfold range. apply in_map_iff. exists (Z.to_nat n).
  split; [lia|]. apply in_seq. lia.
Qed.

(** X21.  Below 1024 [human_bytes] gives the number itself, in bytes, and
    for a negative number "0 B". *)
Theorem human_bytes_small (n : Z) :
  n < 1024 ->
  human_bytes n = Ok (str_of_Z (Z.max 0 n) +:+ " B").
Proof.
  intros Hn. destruct (Z.lt_ge_cases n 0) as [Hneg|Hpos].
  - unfold human_bytes. replace (n <? 0) with true by lia.
    replace (Z.max 0 n) with 0 by lia. reflexivity.
  - replace (Z.max 0 n) with n by lia.
    pose proof human_bytes_below_1024 as H. rewrite forallb_forall in H.
    specialize (H n (in_range n 1024 ltac:(lia))).
    destruct (human_bytes n) as [s|e]; [|discriminate].
    apply String.eqb_eq in H. rewrite H. reflexivity.
Qed.

Lemma human_bytes_small_witness :
  human_bytes 1023 = Ok "1023 B" /\ human_bytes (-5) = Ok "0 B".
Proof.
  split.
  - apply (human_bytes_small 1023). lia.
  - apply (human_bytes_small (-5)). lia.
Defined.

(** ** The configuration, further *)

Lemma stable_validate_config {X} (proj : world -> X) cfg :
  (forall A (f : host -> nat -> A), stable proj (ask f)) ->
  stable proj (validate_config cfg).
Proof.
  intros Hask. unfold validate_config, _default_config, int_field, bool_field.
  repeat first [apply Hask | stable_step].
Qed.

(** The steps of a successful [validate_config]: the defaults are merged
    with the input, then seven numbers are put in place one after the
    other. *)
Lemma validate_config_steps cfg w v w1 :
  validate_config cfg w = (Ok v, w1) ->
  exists m0 m1 m2 m3 m4 m5,
    upd (merge (defaults (h_token_hex (w_host w) (w_tick w))) cfg)
      "app" "port" 1 65535 m0 /\
    upd m0 "app" "max_upload_mb" 1 500 m1 /\
    upd m1 "printing" "preview_dpi" 72 600 m2 /\
    upd m2 "printing" "print_dpi" 72 1200 m3 /\
    upd m3 "printing" "max_pdf_pages_process" 1 500 m4 /\
    upd m4 "printing" "default_copies" 1 99 m5 /\
    upd m5 "printing" "bw_threshold" 1 254 v.
Proof.
  unfold validate_config. intros H.
  apply bind_ok in H as (base & w0 & Hbase & H).
  assert (base = defaults (h_token_hex (w_host w) (w_tick w))) as ->.
  { unfold _default_config in Hbase. monad_unfold. inversion Hbase. reflexivity. }
  repeat match type of H with
         | bind (int_field _ _ _ _ _) _ _ = _ =>
             let m := fresh "m" in let wi := fresh "wi" in
             let Hu := fresh "Hu" in
             apply bind_ok in H as (m & wi & Hu & H);
             apply int_field_ok in Hu as [-> Hu]
         | bind (lift (field _ _ _)) _ _ = _ =>
             let x := fresh "x" in let wi := fresh "wi" in
             let Hf := fresh "Hf" in
             apply bind_ok in H as (x & wi & Hf & H);
             unfold lift in Hf; inversion Hf; subst wi; clear Hf
         | bind (bool_field _ _ _ _) _ _ = _ =>
             let u := fresh "u" in let wi := fresh "wi" in
             let Hb := fresh "Hb" in
             apply bind_ok in H as (u & wi & Hb & H);
             destruct u; apply bool_field_ok in Hb
         | bind (match ?x with _ => _ end) _ _ = _ =>
             let u := fresh "u" in let wi := fresh "wi" in
             let Hc := fresh "Hc" in
             apply bind_ok in H as (u & wi & Hc & H)
         end.
  assert (v = m5) as ->.
  { destruct x1; cbn in H; inversion H; reflexivity. }
  exists m, m0, m1, m2, m3, m4. auto 10.
Qed.

Lemma upd_lookup_ne m sec key lo hi m' k :
  upd m sec key lo hi m' -> k <> sec -> m' !! k = m !! k.
Proof.
  intros (d & iv & _ & _ & ->) Hk. apply lookup_insert_ne. congruence.
Qed.

Lemma defaults_lookup_other secret k :
  ~ In k SECTIONS -> defaults secret !! k = None.
Proof.
  intros Hk. unfold defaults.
  rewrite !lookup_insert_ne, lookup_singleton_ne; [reflexivity|..];
    intros <-; apply Hk; cbn; auto 10.
Qed.

(** X22.  What [validate_config] returns has, in every section, every key of
    the defaults with a value of the checked type and range; the function
    touches no file and starts no child. *)
Theorem validate_config_schema (cfg : gmap string value) (w : world)
    (v : gmap string value) (w1 : world) :
  validate_config cfg w = (Ok v, w1) ->
  validated v /\ w_files w1 = w_files w /\ w_spawned w1 = w_spawned w.
Proof.
  intros H. split; [exact (validate_config_validated _ _ _ _ H)|]. split.
  - apply (stable_run w_files _ _ _ _
             (stable_validate_config w_files cfg (fun A f w => eq_refl)) H).
  - apply (stable_run w_spawned _ _ _ _
             (stable_validate_config w_spawned cfg (fun A f w => eq_refl)) H).
Qed.

Lemma validate_config_schema_witness :
  exists v w1,
    validate_config ∅ uploads = (Ok v, w1) /\
    validated v /\ w_files w1 = w_files uploads /\ w_spawned w1 = w_spawned uploads.
Proof.
  destruct (run_ok (validate_config ∅ uploads)) as [v H];
    [vm_compute; reflexivity|].
  exists v, (snd (validate_config ∅ uploads)). split; [exact H|].
  exact (validate_config_schema ∅ uploads v _ H).
Defined.

(** X23.  A key of the input that is not the name of a section is carried
    over to the result as it is. *)
Theorem validate_config_keeps_unknown (cfg : gmap string value) (w : world)
    (v : gmap string value) (w1 : world) (k : string) :
  validate_config cfg w = (Ok v, w1) ->
  ~ In k SECTIONS ->
  v !! k = cfg !! k.
Proof.
  intros H Hk.
  apply validate_config_steps in H
    as (m0 & m1 & m2 & m3 & m4 & m5 & H0 & H1 & H2 & H3 & H4 & H5 & H6).
  assert (k <> "app" /\ k <> "printing") as [Happ Hpr]
    by (split; intros ->; apply Hk; cbn; auto).
  rewrite (upd_lookup_ne _ _ _ _ _ _ _ H6 Hpr), (upd_lookup_ne _ _ _ _ _ _ _ H5 Hpr),
    (upd_lookup_ne _ _ _ _ _ _ _ H4 Hpr), (upd_lookup_ne _ _ _ _ _ _ _ H3 Hpr),
    (upd_lookup_ne _ _ _ _ _ _ _ H2 Hpr), (upd_lookup_ne _ _ _ _ _ _ _ H1 Happ),
    (upd_lookup_ne _ _ _ _ _ _ _ H0 Happ).
  rewrite merge_lookup, defaults_lookup_other by exact Hk.
  destruct (cfg !! k); reflexivity.
Qed.

Lemma validate_config_keeps_unknown_witness :
  exists v,
    fst (validate_config {["note" := VStr "kept"]} uploads) = Ok v /\
    v !! "note" = Some (VStr "kept").
Proof.
  destruct (run_ok (validate_config {["note" := VStr "kept"]} uploads)) as [v H];
    [vm_compute; reflexivity|].
  exists v. split; [rewrite H; reflexivity|].
  rewrite (validate_config_keeps_unknown _ uploads v _ "note" H).
  - reflexivity.
  - cbn. intros [[=]|[[=]|[[=]|[[=]|[[=]|[]]]]]].
Defined.

(** X24.  A section that is given as something other than a dictionary is
    not reported as [PrinterPalError]: for "app" the exception is the
    [AttributeError] of the missing method [get], whose message names the
    type of what was given. *)
Theorem validate_config_section_not_dict (cfg : gmap string value)
    (x : value) (w : world) :
  cfg !! "app" = Some x ->
  is_dict x = false ->
  fst (validate_config cfg w) =
  Raise (OtherError "AttributeError"
           ("'" +:+ type_name x +:+ "' object has no attribute 'get'")).
Proof.
  intros Hx Hd. unfold validate_config.
  erewrite bind_run by reflexivity.
  unfold int_field at 1. unfold bind at 1. unfold bind at 1.
  unfold lift at 1. unfold field, section.
  rewrite merge_lookup, Hx.
  replace (match defaults (h_token_hex (w_host w) (w_tick w)) !! "app" with
           | Some (VDict d) =>
               match x with VDict s => Some (VDict (merge d s)) | _ => Some x end
           | _ => Some x
           end) with (Some x)
    by (destruct (defaults _ !! "app") as [[]|]; destruct x; try reflexivity;
        discriminate).
  destruct x; try discriminate; reflexivity.
Qed.

Lemma validate_config_section_not_dict_witness :
  fst (validate_config {["app" := VInt 1]} uploads) =
  Raise (OtherError "AttributeError" "'int' object has no attribute 'get'") /\
  fst (validate_config {["app" := VList []]} uploads) =
  Raise (OtherError "AttributeError" "'list' object has no attribute 'get'").
Proof.
  split.
  - apply (validate_config_section_not_dict {["app" := VInt 1]} (VInt 1) uploads);
      reflexivity.
  - apply (validate_config_section_not_dict {["app" := VList []]} (VList []) uploads);
      reflexivity.
Defined.

(** When the defaults merged with the input are valid already, they are
    the result. *)
Lemma validate_config_merged cfg w :
  let merged := merge (defaults (h_token_hex (w_host w) (w_tick w))) cfg in
  validated merged -> fst (validate_config cfg w) = Ok merged.
Proof.
  intros merged Hv. unfold validate_config.
  erewrite bind_run by reflexivity. fold merged.
  assert (forall sec key P, In (sec, key, P) schema -> has merged sec key P)
    as Hhas by (intros; apply validated_has; assumption).
  destruct (has_field merged "app" "secret_key" a_secret)
    as (x & Hx & k & -> & Hk); [apply Hhas; in_schema|].
  destruct (has_field merged "printing" "default_mode" a_mode)
    as (x0 & Hx0 & m & -> & Hm); [apply Hhas; in_schema|].
  destruct (has_field merged "security" "token" a_str) as (x1 & Hx1 & t & ->);
    [apply Hhas; in_schema|].
  repeat first
    [ erewrite bind_run by (apply int_field_fixed; apply Hhas; in_schema)
    | erewrite bind_run by (apply bool_field_fixed; apply Hhas; in_schema)
    | erewrite bind_run by (unfold lift; rewrite Hx; reflexivity)
    | erewrite bind_run by (unfold lift; rewrite Hx0; reflexivity)
    | erewrite bind_run by (unfold lift; rewrite Hx1; reflexivity)
    | erewrite bind_run by (rewrite Hk; reflexivity)
    | erewrite bind_run by (rewrite Hm; reflexivity) ].
  reflexivity.
Qed.

Lemma defaults_validated secret :
  (String.length secret <? 16)%nat = false -> validated (defaults secret).
Proof.
  intros Hlen. unfold validated, schema.
  repeat apply Forall_cons_2; try apply Forall_nil_2;
    unfold has, defaults;
    (eexists; eexists; split;
     [repeat first [apply lookup_insert_eq
                   | rewrite lookup_insert_ne by discriminate
                   | apply lookup_singleton_eq]|]);
    (split;
     [repeat first [apply lookup_insert_eq
                   | rewrite lookup_insert_ne by discriminate
                   | apply lookup_singleton_eq]|]).
  all: try exact I.
  all: try (eexists; split; [reflexivity|lia]).
  all: try (eexists; reflexivity).
  - eexists. split; [reflexivity|exact Hlen].
  - eexists. split; [reflexivity|reflexivity].
Qed.

(** X25.  From the empty configuration [validate_config] returns the
    defaults, with the secret key the host draws (64 hexadecimal digits from
    [secrets.token_hex(32)]; 16 characters are enough here). *)
Theorem validate_config_empty (w : world) :
  let secret := h_token_hex (w_host w) (w_tick w) in
  (16 <= String.length secret)%nat ->
  fst (validate_config ∅ w) = Ok (defaults secret).
Proof.
  intros secret Hlen.
  pose proof (validate_config_merged ∅ w) as H. cbv zeta in H.
  fold secret in H.
  assert (merge (defaults secret) ∅ = defaults secret) as Hm
    by (rewrite merge_unfold; apply map_fold_empty).
  rewrite Hm in H. apply H. apply defaults_validated.
  apply Nat.ltb_ge. exact Hlen.
Qed.

Lemma validate_config_empty_witness :
  fst (validate_config ∅ uploads) =
  Ok (defaults "000102030405060708090a0b0c0d0e0f101112131415161718191a1b1c1d1e1f").
Proof.
  apply (validate_config_empty uploads). cbn. lia.
Defined.

Lemma MODES_lower m : existsb (String.eqb m) MODES = true -> lower m = m.
Proof.
  unfold MODES. cbn [existsb]. rewrite !orb_true_iff.
  intros [H|[H|[H|[H|[H|H]]]]]; try discriminate;
    apply String.eqb_eq in H; subst m; reflexivity.
Qed.

(** X26.  The default mode of a configuration that [validate_config] has let
    through is a mode [apply_mode] supports. *)
Theorem apply_mode_accepts_configured_mode (cfg : gmap string value)
    (w : world) (v : gmap string value) (w1 : world) :
  validate_config cfg w = (Ok v, w1) ->
  exists m,
    field v "printing" "default_mode" = Ok (VStr m) /\
    forall im threshold, exists im', apply_mode im m threshold = Ok im'.
Proof.
  intros H. apply validate_config_validated in H.
  destruct (has_field v "printing" "default_mode" a_mode)
    as (x & Hx & m & -> & Hm); [apply validated_has; [exact H|in_schema]|].
  exists m. split; [exact Hx|]. intros im threshold.
  pose proof (apply_mode_supported_modes im m threshold) as Hs.
  rewrite (MODES_lower m Hm), Hm in Hs. exact Hs.
Qed.

Lemma apply_mode_accepts_configured_mode_witness :
  exists v m,
    fst (validate_config ∅ uploads) = Ok v /\
    field v "printing" "default_mode" = Ok (VStr m) /\
    forall im threshold, exists im', apply_mode im m threshold = Ok im'.
Proof.
  destruct (run_ok (validate_config ∅ uploads)) as [v H];
    [vm_compute; reflexivity|].
  destruct (apply_mode_accepts_configured_mode ∅ uploads v _ H) as (m & Hm).
  exists v, m. split; [rewrite H; reflexivity|exact Hm].
Defined.

(** ** The token check and the print request *)

(** X27.  With a configuration that [validate_config] has returned the
    token check raises nothing: it lets every request pass when
    [require_token] is off; with it on, it refuses every request with 503
    when the token is blank, passes a request whose header (or, without a
    header, whose query argument) is the token without the blanks around it,
    and refuses any other with 401. *)
Theorem require_token_validated (cfg0 : gmap string value) (w : world)
    (cfg : gmap string value) (w1 : world) (header query : option string) :
  validate_config cfg0 w = (Ok cfg, w1) ->
  exists b t,
    field cfg "security" "require_token" = Ok (VBool b) /\
    field cfg "security" "token" = Ok (VStr t) /\
    _require_token cfg header query =
    Ok (if negb b then Pass
        else if String.eqb (strip t) "" then Refuse 503
        else if bool_decide (opt_or header query = Some (strip t)) then Pass
        else Refuse 401).
Proof.
  intros H. apply validate_config_validated in H.
  pose proof (validated_has _ "security" "require_token" a_bool H
                ltac:(in_schema)) as (d & x & Hd & Hx & b & ->).
  pose proof (validated_has _ "security" "token" a_str H
                ltac:(in_schema)) as (d' & x' & Hd' & Hx' & t & ->).
  rewrite Hd in Hd'. injection Hd' as <-.
  exists b, t. unfold field, section, _require_token. rewrite Hd.
  cbn [default from_option id get]. rewrite Hx, Hx'.
  cbn [default from_option id truthy].
  split; [reflexivity|]. split; [reflexivity|].
  destruct b; cbn [negb]; [|reflexivity].
  destruct (String.eqb_spec t "") as [->|Ht]; cbn [negb];
    [reflexivity|].
  destruct (String.eqb (strip t) ""); [reflexivity|].
  destruct (bool_decide _); reflexivity.
Qed.

Lemma require_token_validated_witness :
  exists cfg,
    fst (validate_config ∅ uploads) = Ok cfg /\
    _require_token cfg None None = Ok Pass.
Proof.
  destruct (run_ok (validate_config ∅ uploads)) as [cfg H];
    [vm_compute; reflexivity|].
  exists cfg. split; [rewrite H; reflexivity|].
  destruct (require_token_validated ∅ uploads cfg _ None None H)
    as (b & t & Hb & Ht & ->).
  assert (match fst (validate_config ∅ uploads) with
          | Ok c => field c "security" "require_token"
          | Raise e => Raise e
          end = Ok (VBool false)) as Hf by (vm_compute; reflexivity).
  rewrite H in Hf. cbn [fst] in Hf. rewrite Hb in Hf. injection Hf as ->.
  reflexivity.
Defined.










(** ** The AirPrint lock, further *)

Lemma count_zero f (l : list pc) :
  Forall (fun p => f p = false) l -> count f l = 0%nat.
Proof.
  induction 1 as [|p l Hp _ IH]; [reflexivity|].
  rewrite count_cons, Hp, IH. reflexivity.
Qed.

(** X29.  The lock is not leaked: whatever the requests and however the
    helper ends, when no status handler is between acquire and release the
    lock is free. *)
Theorem airprint_lock_released (evs : list event) :
  let s := run evs initial in
  Forall (fun p => holds_lock p = false) (sv_handlers s) ->
  PP_AIRPRINT_LOCK (sv_state s) = false.
Proof.
  intros s Hnone.
  pose proof (run_lock_inv evs initial initial_lock_inv) as Hinv.
  fold s in Hinv. unfold lock_inv in Hinv.
  rewrite (count_zero _ _ Hnone) in Hinv.
  destruct (PP_AIRPRINT_LOCK (sv_state s)); [discriminate|reflexivity].
Qed.

Lemma airprint_lock_released_witness :
  PP_AIRPRINT_LOCK
    (sv_state (run [StatusRequest "HP" (float_of_Z 5);
                    Step 0 true; Step 0 true; Step 0 true; Step 0 true;
                    Step 0 false; Step 0 true] initial)) = false.
Proof.
  apply (airprint_lock_released
           [StatusRequest "HP" (float_of_Z 5);
            Step 0 true; Step 0 true; Step 0 true; Step 0 true;
            Step 0 false; Step 0 true]).
  vm_compute. repeat constructor.
Defined.

(** ** Reading the page count *)

Lemma digits_value_uint_acc d a :
  digits_value (Z.pos a) true (NilEmpty.string_of_uint d) =
  Some (Z.pos (Pos.of_uint_acc d a)).
Proof.
  revert a. induction d as [|d IH|d IH|d IH|d IH|d IH|d IH|d IH|d IH|d IH|d IH];
    intros a; [reflexivity|..];
    cbn [NilEmpty.string_of_uint digits_value Pos.of_uint_acc];
    (match goal with |- context [is_digit ?c] =>
       change (is_digit c) with true; cbv iota;
       match goal with |- context [code c] =>
         let v := eval vm_compute in (code c) in change (code c) with v end
     end);
    rewrite <- IH; f_equal; lia.
Qed.

Lemma digits_value_uint d b :
  d <> Decimal.Nil \/ b = true ->
  digits_value 0 b (NilEmpty.string_of_uint d) = Some (Z.of_N (Pos.of_uint d)).
Proof.
  revert b. induction d as [|d IH|d IH|d IH|d IH|d IH|d IH|d IH|d IH|d IH|d IH];
    intros b Hb.
  - destruct Hb as [Hb| ->]; [contradiction|reflexivity].
  - cbn [NilEmpty.string_of_uint digits_value Pos.of_uint].
    change (is_digit "0") with true. cbv iota.
    change (10 * 0 + (code "0" - 48)) with 0. apply IH. auto.
  - exact (digits_value_uint_acc d 1).
  - exact (digits_value_uint_acc d 2).
  - exact (digits_value_uint_acc d 3).
  - exact (digits_value_uint_acc d 4).
  - exact (digits_value_uint_acc d 5).
  - exact (digits_value_uint_acc d 6).
  - exact (digits_value_uint_acc d 7).
  - exact (digits_value_uint_acc d 8).
  - exact (digits_value_uint_acc d 9).
Qed.

Lemma string_of_uint_no_space d : no_space (NilEmpty.string_of_uint d) = true.
Proof.
  unfold no_space.
  induction d as [|d IH|d IH|d IH|d IH|d IH|d IH|d IH|d IH|d IH|d IH];
    [reflexivity|..]; cbn [NilEmpty.string_of_uint list_ascii_of_string forallb];
    rewrite IH; reflexivity.
Qed.

Lemma lstrip_no_space s : no_space s = true -> lstrip s = s.
Proof.
  destruct s as [|c s]; [reflexivity|]. unfold no_space.
  cbn [list_ascii_of_string forallb lstrip]. intros H.
  apply andb_true_iff in H as [Hc _]. apply negb_true_iff in Hc.
  rewrite Hc. reflexivity.
Qed.

Lemma rstrip_no_space s : no_space s = true -> rstrip s = s.
Proof.
  unfold no_space. induction s as [|c s IH]; [reflexivity|].
  cbn [list_ascii_of_string forallb rstrip]. intros H.
  apply andb_true_iff in H as [Hc H]. apply negb_true_iff in Hc.
  rewrite IH by exact H. rewrite Hc. destruct s; reflexivity.
Qed.

Lemma lstrip_pad pad s :
  forallb isspace (list_ascii_of_string pad) = true ->
  lstrip (pad +:+ s) = lstrip s.
Proof.
  induction pad as [|c pad IH]; [reflexivity|].
  cbn [list_ascii_of_string forallb]. intros H.
  apply andb_true_iff in H as [Hc H].
  change (String c pad +:+ s) with (String c (pad +:+ s)).
  cbn [lstrip]. rewrite Hc. apply IH. exact H.
Qed.

Lemma strip_pad pad s :
  forallb isspace (list_ascii_of_string pad) = true -> no_space s = true ->
  strip (pad +:+ s) = s.
Proof.
  intros Hpad Hs. unfold strip.
  rewrite lstrip_pad, lstrip_no_space, rstrip_no_space by assumption.
  reflexivity.
Qed.

Lemma str_of_Z_no_space n : no_space (str_of_Z n) = true.
Proof.
  unfold str_of_Z. destruct n as [|p|p]; [reflexivity| |];
    cbn [Z.to_int NilZero.string_of_int]; unfold NilZero.string_of_uint;
    destruct (Pos.to_uint p) eqn:Hp;
    try (exfalso; exact (DecimalPos.Unsigned.to_uint_nonnil p Hp));
    rewrite <- Hp; try apply string_of_uint_no_space;
    unfold no_space; cbn [list_ascii_of_string forallb];
    rewrite (string_of_uint_no_space (Pos.to_uint p)); reflexivity.
Qed.

Lemma int_of_digits p b :
  digits_value 0 b (NilEmpty.string_of_uint (Pos.to_uint p)) = Some (Z.pos p).
Proof.
  rewrite digits_value_uint
    by (left; apply DecimalPos.Unsigned.to_uint_nonnil).
  rewrite DecimalPos.Unsigned.of_to. reflexivity.
Qed.

Lemma string_of_uint_digit d c s :
  NilEmpty.string_of_uint d = String c s -> is_digit c = true.
Proof. destruct d; cbn; intros [= <- _]; reflexivity. Qed.

(** The decimal numeral of an integer is read back as that integer. *)
Lemma int_of_str_of_Z n : int_of_str (str_of_Z n) = Some n.
Proof.
  unfold int_of_str. unfold strip.
  rewrite lstrip_no_space, rstrip_no_space by apply str_of_Z_no_space.
  unfold str_of_Z. destruct n as [|p|p]; [reflexivity| |];
    cbn [Z.to_int NilZero.string_of_int]; unfold NilZero.string_of_uint;
    destruct (Pos.to_uint p) eqn:Hp;
    try (exfalso; exact (DecimalPos.Unsigned.to_uint_nonnil p Hp));
    rewrite <- Hp.
  all: try (change (code "-" =? 45) with true; cbv iota;
            rewrite int_of_digits; reflexivity).
  all: destruct (NilEmpty.string_of_uint (Pos.to_uint p)) as [|c s] eqn:Hs;
    [rewrite Hp in Hs; discriminate|];
    pose proof (string_of_uint_digit _ _ _ Hs) as Hc;
    assert ((code c =? 45) = false /\ (code c =? 43) = false) as [-> ->]
      by (unfold is_digit, between in Hc;
          change (code "0") with 48 in Hc; change (code "9") with 57 in Hc;
          split; lia);
    rewrite <- Hs; apply int_of_digits.
Qed.

Lemma pages_field_skip pre rest :
  Forall (fun ln => startswith (lower ln) "pages:" = false) pre ->
  pages_field (pre ++ rest) = pages_field rest.
Proof.
  induction 1 as [|ln pre Hln _ IH]; [reflexivity|].
  cbn [app pages_field]. rewrite Hln. exact IH.
Qed.

(** X30.  [pdf_page_count] returns the number [pdfinfo] prints: when the
    first line of the output that starts with "pages:", in any letter case,
    is "Pages:", blanks and the decimal numeral of [n], the count is [n]. *)
Theorem pdf_page_count_reads (path : string) (w : world) (out err : string)
    (created : list string) (pre : list string) (pad : string) (n : Z)
    (post : list string) :
  path_exists (w_files w) path = true ->
  child_of ["pdfinfo"; path] w = ChildExit 0 out err created ->
  splitlines out = pre ++ ("Pages:" +:+ pad +:+ str_of_Z n) :: post ->
  Forall (fun ln => startswith (lower ln) "pages:" = false) pre ->
  forallb isspace (list_ascii_of_string pad) = true ->
  fst (pdf_page_count path w) = Ok n.
Proof.
  intros Hex Hchild Hlines Hpre Hpad. unfold pdf_page_count.
  unfold bind at 1. unfold os_path_exists. rewrite Hex. cbn [negb].
  unfold bind.
  pose proof (run_cmd_cases ["pdfinfo"; path] (float_of_Z 8) true None w) as Hrun.
  rewrite Hchild in Hrun. cbv zeta in Hrun.
  change (true && negb (0 =? 0)) with false in Hrun. cbv iota in Hrun.
  destruct (run_cmd _ (float_of_Z 8) true None w) as [[res|e] w1];
    cbn [fst] in Hrun; [|discriminate]. injection Hrun as ->.
  cbn [stdout]. rewrite Hlines, pages_field_skip by exact Hpre.
  cbn [pages_field].
  assert (startswith (lower ("Pages:" +:+ pad +:+ str_of_Z n)) "pages:" = true)
    as -> by (apply prefix_spec; eexists; reflexivity).
  change (snd (split_once ":" ("Pages:" +:+ pad +:+ str_of_Z n)))
    with (Some (pad +:+ str_of_Z n)).
  cbv iota. rewrite strip_pad by (exact Hpad || apply str_of_Z_no_space).
  rewrite int_of_str_of_Z. reflexivity.
Qed.

Lemma pdf_page_count_reads_witness :
  fst (pdf_page_count "/up/a.pdf" uploads) = Ok 3.
Proof.
  apply (pdf_page_count_reads "/up/a.pdf" uploads
           ("Title: x" +:+ String LF ("Pages:  " +:+ str_of_Z 3)) "" []
           ["Title: x"] "  " 3 []).
  - vm_compute. reflexivity.
  - reflexivity.
  - vm_compute. reflexivity.
  - repeat constructor.
  - reflexivity.
Defined.
